(** * Digital avatar front end: connection hook, pipeline service and
      conversation components

    A shallow embedding of the TypeScript front end
    ([hooks/useWebSocket.ts], [services/avatarService.ts] and the React
    components [VoiceRecorder], [AvatarPage], [ChatInterface],
    [AvatarSystem], [ServiceStatus], [PhotoUpload], [AvatarSettings]
    and [AnimatedAvatar]) together with the properties of the
    orchestration core that the specification states about them and
    further properties read off the sources.

    Conventions of the embedding:
    - a JavaScript string is the list of its UTF-16 code units;
    - a promise is represented by the way it settles ([Outcome]); an
      [async] function is a computation that threads the log of the HTTP
      requests issued so far;
    - a React component is the record of its state cells and refs; an
      event handler is a function on that record.  A handler reads the
      state of the latest render, except where it is given the values
      it has seen explicitly. *)

From Stdlib Require Import ZArith NArith String Ascii DecimalString Bool Lia.
From stdpp Require Import base numbers option list.

Open Scope N_scope.

(** ** JavaScript strings *)

Module JsString.

Definition jsstring := list N.

(** Source literals are written in UTF-8; [js] gives their UTF-16 code
    units (sequences of one to three bytes, which covers every literal
    of the sources). *)
Fixpoint utf16_of_utf8 (bs : list N) : jsstring :=
  match bs with
  | [] => []
  | b0 :: r0 =>
      if b0 <? 128 then b0 :: utf16_of_utf8 r0
      else if b0 <? 224 then
        match r0 with
        | b1 :: r1 => ((b0 - 192) * 64 + (b1 - 128)) :: utf16_of_utf8 r1
        | [] => []
        end
      else
        match r0 with
        | b1 :: b2 :: r2 =>
            ((b0 - 224) * 4096 + (b1 - 128) * 64 + (b2 - 128))
              :: utf16_of_utf8 r2
        | _ => []
        end
  end.

Definition js (s : string) : jsstring :=
  utf16_of_utf8 (List.map N_of_ascii (list_ascii_of_string s)).

(** [String(n)] / template interpolation of a non-negative integer. *)
Definition number_toString (n : N) : jsstring :=
  js (NilZero.string_of_uint (N.to_uint n)).

(** ECMAScript WhiteSpace and LineTerminator code points, the ones
    [String.prototype.trim] strips. *)
Definition isWhiteSpace (c : N) : bool :=
  ((9 <=? c) && (c <=? 13))
  || (c =? 32) || (c =? 160) || (c =? 5760)
  || ((8192 <=? c) && (c <=? 8202))
  || (c =? 8232) || (c =? 8233) || (c =? 8239) || (c =? 8287)
  || (c =? 12288) || (c =? 65279).

Fixpoint trimStart (s : jsstring) : jsstring :=
  match s with
  | [] => []
  | c :: r => if isWhiteSpace c then trimStart r else s
  end.

Definition trimEnd (s : jsstring) : jsstring :=
  List.rev (trimStart (List.rev s)).

Definition trim (s : jsstring) : jsstring := trimEnd (trimStart s).

(** Truthiness of a string: the empty string is the only falsy one. *)
Definition truthy (s : jsstring) : bool :=
  match s with [] => false | _ :: _ => true end.

(** The input is empty or consists of white space only. *)
Definition blank (s : jsstring) : bool := forallb isWhiteSpace s.

End JsString.

Import JsString.

(** ** Promises *)

(** How a promise settles; [Pending] is a promise that never settles. *)
Inductive Thrown : Type :=
| ErrorObject (message : jsstring)   (* an instance of Error *)
| OtherValue.                        (* any other thrown value *)

Inductive Outcome (A : Type) : Type :=
| Fulfilled (a : A)
| Rejected (e : Thrown)
| Pending.

Arguments Fulfilled {A} a.
Arguments Rejected {A} e.
Arguments Pending {A}.

Definition Blob := list N.

(** ** services/avatarService.ts *)

Module AvatarService.

Record SpeechRecognitionResponse := {
  sr_text : jsstring;
  sr_confidence : Z }.

Record AIResponse := {
  ai_text : jsstring;
  ai_emotion : option jsstring }.

Record TTSResponse := {
  audio_url : jsstring;
  duration : Z }.

(** Body of the reply of [POST /synthesize]. *)
Record SynthesizeResult := {
  audio_id : jsstring;
  result_duration : option Z }.

Record ProcessResult := {
  recognizedText : jsstring;
  aiResponse : jsstring;
  audioUrl : jsstring }.

Record ServicesStatus := {
  backend : bool;
  tts : bool;
  sadtalker : bool }.

(** A fetch [Response]: the status line and what reading the body
    ([json()] or [blob()]) settles to. *)
Record Response (A : Type) := {
  status : N;
  body : Outcome A }.
Arguments status {A} r.
Arguments body {A} r.

Definition ok {A} (r : Response A) : bool :=
  (200 <=? status r) && (status r <=? 299).

(** The HTTP requests the service issues. *)
Inductive Request : Type :=
| PostRecognizeSpeech (audio : Blob)
| PostChat (message context : jsstring)
| PostSynthesize (text voice_id : jsstring) (speed : Z) (emotion : jsstring)
| GetAudio (id : jsstring)
| GetHealth (url : jsstring).

(** The world outside: what each endpoint answers. *)
Record Env := {
  recognize_api : Blob -> Outcome (Response SpeechRecognitionResponse);
  chat_api : jsstring -> jsstring -> Outcome (Response AIResponse);
  synthesize_api : jsstring -> Outcome (Response SynthesizeResult);
  audio_api : jsstring -> Outcome (Response Blob);
  health_api : jsstring -> Outcome (Response unit);
  createObjectURL : Blob -> jsstring }.

Definition baseUrl : jsstring := js "http://localhost:8000".
Definition ttsUrl : jsstring := js "http://localhost:8001".

(** An async computation: it extends the log of issued requests and
    settles. *)
Definition Async (A : Type) : Type :=
  list Request -> list Request * Outcome A.

Definition ret {A} (a : A) : Async A := fun log => (log, Fulfilled a).

Definition throw {A} (e : Thrown) : Async A := fun log => (log, Rejected e).

Definition bind {A B} (m : Async A) (k : A -> Async B) : Async B :=
  fun log =>
    match m log with
    | (log', Fulfilled a) => k a log'
    | (log', Rejected e) => (log', Rejected e)
    | (log', Pending) => (log', Pending)
    end.

(** [try { body } catch (error) { handler }]. *)
Definition try_catch {A} (body : Async A) (handler : Thrown -> Async A)
  : Async A :=
  fun log =>
    match body log with
    | (log', Rejected e) => handler e log'
    | r => r
    end.

(** [await fetch(...)]: the request goes out, then the promise settles. *)
Definition fetch {A} (rq : Request) (answer : Outcome A) : Async A :=
  fun log => (log ++ [rq], answer).

(** [await p] for a promise that is already running. *)
Definition await {A} (p : Outcome A) : Async A := fun log => (log, p).

Declare Scope async_scope.
Delimit Scope async_scope with async.
Notation "x <- m ;; k" := (bind m (fun x => k))
  (at level 100, m at next level, right associativity) : async_scope.
Open Scope async_scope.

Definition recognizeSpeech (env : Env) (audioBlob : Blob)
  : Async SpeechRecognitionResponse :=
  try_catch
    (response <- fetch (PostRecognizeSpeech audioBlob)
                       (recognize_api env audioBlob) ;;
     if negb (ok response) then
       throw (ErrorObject (js "Ошибка распознавания речи: "
                             ++ number_toString (status response)))
     else await (body response))
    (fun error => throw error).

Definition default_context : jsstring :=
  js "Ты дружелюбный цифровой аватар девочки. Отвечай кратко и естественно.".

(** [context || default]: an absent or empty context gives the default. *)
Definition context_or_default (context : option jsstring) : jsstring :=
  match context with
  | Some c => if truthy c then c else default_context
  | None => default_context
  end.

Definition getAIResponse (env : Env) (text : jsstring)
    (context : option jsstring) : Async AIResponse :=
  try_catch
    (response <- fetch (PostChat text (context_or_default context))
                       (chat_api env text (context_or_default context)) ;;
     if negb (ok response) then
       throw (ErrorObject (js "Ошибка получения ответа AI: "
                             ++ number_toString (status response)))
     else await (body response))
    (fun error => throw error).

Definition synthesizeSpeech (env : Env) (text : jsstring)
  : Async TTSResponse :=
  try_catch
    (response <- fetch (PostSynthesize text (js "default") 1 (js "neutral"))
                       (synthesize_api env text) ;;
     if negb (ok response) then
       throw (ErrorObject (js "Ошибка синтеза речи: "
                             ++ number_toString (status response)))
     else
       result <- await (body response) ;;
       audioResponse <- fetch (GetAudio (audio_id result))
                              (audio_api env (audio_id result)) ;;
       if negb (ok audioResponse) then
         throw (ErrorObject (js "Ошибка получения аудио файла"))
       else
         audioBlob <- await (body audioResponse) ;;
         ret {| audio_url := createObjectURL env audioBlob;
                duration := match result_duration result with
                            | Some d => if (d =? 0)%Z then 0%Z else d
                            | None => 0%Z
                            end |})
    (fun error => throw error).

(** Full cycle: recognition, then AI, then synthesis. *)
Definition processAudioInput (env : Env) (audioBlob : Blob)
  : Async ProcessResult :=
  try_catch
    (recognition <- recognizeSpeech env audioBlob ;;
     if negb (truthy (trim (sr_text recognition))) then
       throw (ErrorObject (js "Не удалось распознать речь"))
     else
       aiResponse <- getAIResponse env (sr_text recognition) None ;;
       ttsResponse <- synthesizeSpeech env (ai_text aiResponse) ;;
       ret {| recognizedText := sr_text recognition;
              aiResponse := ai_text aiResponse;
              audioUrl := audio_url ttsResponse |})
    (fun error => throw error).

(** [Promise.allSettled]: settles, and never rejects, once every input
    has settled; an input that never settles keeps it pending. *)
Inductive PromiseSettledResult (A : Type) : Type :=
| fulfilled (value : A)
| rejected (reason : Thrown).
Arguments fulfilled {A} value.
Arguments rejected {A} reason.

Fixpoint allSettled {A} (ps : list (Outcome A))
  : Outcome (list (PromiseSettledResult A)) :=
  match ps with
  | [] => Fulfilled []
  | p :: ps' =>
      match p, allSettled ps' with
      | Pending, _ => Pending
      | _, Pending => Pending
      | _, Rejected e => Rejected e
      | Fulfilled a, Fulfilled rs => Fulfilled (fulfilled a :: rs)
      | Rejected e, Fulfilled rs => Fulfilled (rejected e :: rs)
      end
  end.

(** [results[i].status === "fulfilled" && results[i].value.ok] *)
Definition probe_up {A} (r : option (PromiseSettledResult (Response A)))
  : bool :=
  match r with
  | Some (fulfilled value) => ok value
  | _ => false
  end.

Definition backend_health : jsstring := baseUrl ++ js "/health".
Definition tts_health : jsstring := ttsUrl ++ js "/health".
Definition sadtalker_health : jsstring := js "http://localhost:8002/health".

Definition health_urls : list jsstring :=
  [ backend_health; tts_health; sadtalker_health ].

(** The three probes are issued first (no timeout is attached to any
    of them), then the combined promise is awaited. *)
Definition checkServices (env : Env) : Async ServicesStatus :=
  fun log =>
    bind (await (allSettled (List.map (health_api env) health_urls)))
         (fun results =>
            ret {| backend := probe_up (results !! 0%nat);
                   tts := probe_up (results !! 1%nat);
                   sadtalker := probe_up (results !! 2%nat) |})
         (log ++ List.map GetHealth health_urls).

(** The requests a run issued, and how it ended, from an empty log. *)
Definition run {A} (m : Async A) : list Request * Outcome A := m [].

(** A probe counts as up when it is fulfilled with a success status. *)
Definition up (probe : Outcome (Response unit)) : bool :=
  match probe with
  | Fulfilled r => ok r
  | _ => false
  end.

Definition settles {A} (p : Outcome A) : bool :=
  match p with Pending => false | _ => true end.

(** The stages of the pipeline and the stage each request belongs
    to. *)
Inductive Stage : Type := Recognition | Generation | Synthesis.

Definition stage_of_request (rq : Request) : option Stage :=
  match rq with
  | PostRecognizeSpeech _ => Some Recognition
  | PostChat _ _ => Some Generation
  | PostSynthesize _ _ _ _ | GetAudio _ => Some Synthesis
  | GetHealth _ => None
  end.

(** The stage at which a rejected run failed: the stage of the last
    request it issued. *)
Definition failed_stage (r : list Request * Outcome ProcessResult)
  : option Stage :=
  match snd r with
  | Rejected _ => last (fst r) ≫= stage_of_request
  | _ => None
  end.

(** The way a stage made of one request fails, given how its fetch
    settles: a rejected fetch and an unreadable body fail with the
    error they reject with, a non-success status fails with the
    message of the stage followed by the status. *)
Definition stage_failure {A} (message : jsstring)
    (answer : Outcome (Response A)) : option Thrown :=
  match answer with
  | Rejected e => Some e
  | Fulfilled r =>
      if negb (ok r) then
        Some (ErrorObject (message ++ number_toString (status r)))
      else
        match body r with
        | Rejected e => Some e
        | _ => None
        end
  | Pending => None
  end.

(** The recognition service answered with a success status and the
    body [recognition]. *)
Definition recognized (env : Env) (audioBlob : Blob)
    (recognition : SpeechRecognitionResponse) : Prop :=
  exists r, recognize_api env audioBlob = Fulfilled r
            /\ ok r = true /\ body r = Fulfilled recognition.

(** The model answered the message [text] with a success status and
    the body [reply]. *)
Definition replied (env : Env) (text : jsstring) (reply : AIResponse) : Prop :=
  exists r, chat_api env text default_context = Fulfilled r
            /\ ok r = true /\ body r = Fulfilled reply.

(** Synthesis of [text] succeeded and the audio file [audio] was
    fetched. *)
Definition synthesized (env : Env) (text : jsstring) (audio : Blob) : Prop :=
  exists r result a,
    synthesize_api env text = Fulfilled r
    /\ ok r = true /\ body r = Fulfilled result
    /\ audio_api env (audio_id result) = Fulfilled a
    /\ ok a = true /\ body a = Fulfilled audio.

(** The way the request of the audio file fails: as [stage_failure]
    tells, except that a non-success status fails with a fixed message
    that does not carry the status. *)
Definition audio_failure (answer : Outcome (Response Blob)) : option Thrown :=
  match answer with
  | Rejected e => Some e
  | Fulfilled r =>
      if negb (ok r) then Some (ErrorObject (js "Ошибка получения аудио файла"))
      else
        match body r with
        | Rejected e => Some e
        | _ => None
        end
  | Pending => None
  end.

(** A request that is never answered, or that is answered with a
    success status and a body that never arrives. *)
Definition never_answers {A} (answer : Outcome (Response A)) : bool :=
  match answer with
  | Pending => true
  | Fulfilled r => ok r && match body r with Pending => true | _ => false end
  | Rejected _ => false
  end.

(** The synthesis request for [text] was answered with a success
    status and the body [result]. *)
Definition synthesis_answered (env : Env) (text : jsstring)
    (result : SynthesizeResult) : Prop :=
  exists r, synthesize_api env text = Fulfilled r
            /\ ok r = true /\ body r = Fulfilled result.

End AvatarService.

(** ** hooks/useWebSocket.ts *)

Module UseWebSocket.

Inductive ConnectionStatus : Type :=
| Connecting | Connected | Disconnected | Error.

Inductive ReadyState : Type := CONNECTING | OPEN | CLOSING | CLOSED.

Definition ReadyState_eqb (a b : ReadyState) : bool :=
  match a, b with
  | CONNECTING, CONNECTING | OPEN, OPEN
  | CLOSING, CLOSING | CLOSED, CLOSED => true
  | _, _ => false
  end.

(** A transport: its ready state and the frames handed to [send]. *)
Record WebSocket := {
  readyState : ReadyState;
  sent : list jsstring }.

Record Options := {
  url_valid : bool;             (* [new WebSocket(url)] does not throw *)
  reconnectInterval : Z;
  maxReconnectAttempts : Z }.

Definition default_options : Options :=
  {| url_valid := true;
     reconnectInterval := 3000;
     maxReconnectAttempts := 5 |}.

(** The state cells and refs of the hook, with the transports it has
    constructed ([sockets], indexed in creation order) and the timers
    it has set ([timers]: the delay while pending, [None] once fired
    or cleared). *)
Record Hook := {
  connectionStatus : ConnectionStatus;
  lastMessage : jsstring;
  reconnectAttempts : Z;
  wsRef : option nat;
  reconnectTimeoutRef : option nat;
  reconnectAttemptsRef : Z;
  sockets : list WebSocket;
  timers : list (option Z) }.

Definition initial : Hook :=
  {| connectionStatus := Disconnected;
     lastMessage := [];
     reconnectAttempts := 0;
     wsRef := None;
     reconnectTimeoutRef := None;
     reconnectAttemptsRef := 0;
     sockets := [];
     timers := [] |}.

Definition setConnectionStatus (s : ConnectionStatus) (h : Hook) : Hook :=
  {| connectionStatus := s;
     lastMessage := lastMessage h;
     reconnectAttempts := reconnectAttempts h;
     wsRef := wsRef h;
     reconnectTimeoutRef := reconnectTimeoutRef h;
     reconnectAttemptsRef := reconnectAttemptsRef h;
     sockets := sockets h;
     timers := timers h |}.

Definition setLastMessage (m : jsstring) (h : Hook) : Hook :=
  {| connectionStatus := connectionStatus h;
     lastMessage := m;
     reconnectAttempts := reconnectAttempts h;
     wsRef := wsRef h;
     reconnectTimeoutRef := reconnectTimeoutRef h;
     reconnectAttemptsRef := reconnectAttemptsRef h;
     sockets := sockets h;
     timers := timers h |}.

Definition setReconnectAttempts (n : Z) (h : Hook) : Hook :=
  {| connectionStatus := connectionStatus h;
     lastMessage := lastMessage h;
     reconnectAttempts := n;
     wsRef := wsRef h;
     reconnectTimeoutRef := reconnectTimeoutRef h;
     reconnectAttemptsRef := reconnectAttemptsRef h;
     sockets := sockets h;
     timers := timers h |}.

Definition set_wsRef (r : option nat) (h : Hook) : Hook :=
  {| connectionStatus := connectionStatus h;
     lastMessage := lastMessage h;
     reconnectAttempts := reconnectAttempts h;
     wsRef := r;
     reconnectTimeoutRef := reconnectTimeoutRef h;
     reconnectAttemptsRef := reconnectAttemptsRef h;
     sockets := sockets h;
     timers := timers h |}.

Definition set_reconnectTimeoutRef (r : option nat) (h : Hook) : Hook :=
  {| connectionStatus := connectionStatus h;
     lastMessage := lastMessage h;
     reconnectAttempts := reconnectAttempts h;
     wsRef := wsRef h;
     reconnectTimeoutRef := r;
     reconnectAttemptsRef := reconnectAttemptsRef h;
     sockets := sockets h;
     timers := timers h |}.

Definition set_reconnectAttemptsRef (n : Z) (h : Hook) : Hook :=
  {| connectionStatus := connectionStatus h;
     lastMessage := lastMessage h;
     reconnectAttempts := reconnectAttempts h;
     wsRef := wsRef h;
     reconnectTimeoutRef := reconnectTimeoutRef h;
     reconnectAttemptsRef := n;
     sockets := sockets h;
     timers := timers h |}.

Definition set_sockets (l : list WebSocket) (h : Hook) : Hook :=
  {| connectionStatus := connectionStatus h;
     lastMessage := lastMessage h;
     reconnectAttempts := reconnectAttempts h;
     wsRef := wsRef h;
     reconnectTimeoutRef := reconnectTimeoutRef h;
     reconnectAttemptsRef := reconnectAttemptsRef h;
     sockets := l;
     timers := timers h |}.

Definition set_timers (l : list (option Z)) (h : Hook) : Hook :=
  {| connectionStatus := connectionStatus h;
     lastMessage := lastMessage h;
     reconnectAttempts := reconnectAttempts h;
     wsRef := wsRef h;
     reconnectTimeoutRef := reconnectTimeoutRef h;
     reconnectAttemptsRef := reconnectAttemptsRef h;
     sockets := sockets h;
     timers := l |}.

(** [wsRef.current], with its position in [sockets]. *)
Definition current_socket (h : Hook) : option (nat * WebSocket) :=
  match wsRef h with
  | Some i =>
      match sockets h !! i with
      | Some ws => Some (i, ws)
      | None => None
      end
  | None => None
  end.

(** [wsRef.current?.readyState === WebSocket.OPEN] *)
Definition current_is_open (h : Hook) : bool :=
  match current_socket h with
  | Some (_, ws) => ReadyState_eqb (readyState ws) OPEN
  | None => false
  end.

Definition set_readyState (i : nat) (r : ReadyState) (h : Hook) : Hook :=
  match sockets h !! i with
  | Some ws =>
      set_sockets (<[i := {| readyState := r; sent := sent ws |}]> (sockets h)) h
  | None => h
  end.

(** [connect]: returns at once when the current transport is open;
    otherwise a fresh transport replaces the reference. *)
Definition connect (o : Options) (h : Hook) : Hook :=
  if current_is_open h then h
  else
    let h1 := setConnectionStatus Connecting h in
    if url_valid o then
      set_wsRef (Some (length (sockets h1)))
        (set_sockets (sockets h1 ++ [{| readyState := CONNECTING; sent := [] |}]) h1)
    else setConnectionStatus Error h1.

(** [setTimeout(() => connect(), reconnectInterval)] *)
Definition setTimeout (o : Options) (h : Hook) : Hook :=
  set_reconnectTimeoutRef (Some (length (timers h)))
    (set_timers (timers h ++ [Some (reconnectInterval o)]) h).

(** The handlers [connect] installs on every transport it constructs;
    [i] is the transport the event is fired at.  The event comes with
    the change of the transport's own ready state: OPEN when it opens,
    CLOSED when it is closed or has failed. *)
Definition onopen (i : nat) (h : Hook) : Hook :=
  match sockets h !! i with
  | None => h
  | Some _ =>
      set_reconnectAttemptsRef 0
        (setReconnectAttempts 0
           (setConnectionStatus Connected (set_readyState i OPEN h)))
  end.

Definition onmessage (i : nat) (data : jsstring) (h : Hook) : Hook :=
  match sockets h !! i with
  | None => h
  | Some _ => setLastMessage data h
  end.

Definition onclose (o : Options) (i : nat) (h : Hook) : Hook :=
  match sockets h !! i with
  | None => h
  | Some _ =>
      let h1 := setConnectionStatus Disconnected (set_readyState i CLOSED h) in
      if (reconnectAttemptsRef h1 <? maxReconnectAttempts o)%Z then
        let h2 := set_reconnectAttemptsRef (reconnectAttemptsRef h1 + 1) h1 in
        let h3 := setReconnectAttempts (reconnectAttemptsRef h2) h2 in
        setTimeout o h3
      else setConnectionStatus Error h1
  end.

Definition onerror (i : nat) (h : Hook) : Hook :=
  match sockets h !! i with
  | None => h
  | Some _ => setConnectionStatus Error (set_readyState i CLOSED h)
  end.

(** A pending reconnect timer fires and calls [connect]. *)
Definition timeout (o : Options) (t : nat) (h : Hook) : Hook :=
  match timers h !! t with
  | Some (Some _) => connect o (set_timers (<[t := None]> (timers h)) h)
  | _ => h
  end.

(** [ws.close()] on a transport. *)
Definition close_transport (ws : WebSocket) : WebSocket :=
  match readyState ws with
  | CLOSED => ws
  | _ => {| readyState := CLOSING; sent := sent ws |}
  end.

Definition disconnect (h : Hook) : Hook :=
  let h1 :=
    match reconnectTimeoutRef h with
    | Some t => set_reconnectTimeoutRef None
                  (set_timers (<[t := None]> (timers h)) h)
    | None => h
    end in
  let h2 :=
    match wsRef h1 with
    | Some i =>
        set_wsRef None
          (match sockets h1 !! i with
           | Some ws => set_sockets (<[i := close_transport ws]> (sockets h1)) h1
           | None => h1
           end)
    | None => h1
    end in
  set_reconnectAttemptsRef 0
    (setReconnectAttempts 0 (setConnectionStatus Disconnected h2)).

(** The argument of [sendMessage]: a string, or an object given by
    its [JSON.stringify] text. *)
Inductive Message : Type :=
| Str (s : jsstring)
| Obj (stringified : jsstring).

Definition messageString (m : Message) : jsstring :=
  match m with Str s => s | Obj j => j end.

Definition sendMessage (m : Message) (h : Hook) : Hook * bool :=
  match current_socket h with
  | Some (i, ws) =>
      if ReadyState_eqb (readyState ws) OPEN then
        (set_sockets
           (<[i := {| readyState := readyState ws;
                      sent := sent ws ++ [messageString m] |}]> (sockets h)) h,
         true)
      else (h, false)
  | None => (h, false)
  end.

(** The ready state of the current transport, if there is one. *)
Definition transport_state (h : Hook) : option ReadyState :=
  match current_socket h with
  | Some (_, ws) => Some (readyState ws)
  | None => None
  end.

(** What can happen to a mounted hook. *)
Inductive Event : Type :=
| EvConnect                         (* a call of [connect] *)
| EvDisconnect                      (* a call of [disconnect] *)
| EvSend (m : Message)              (* a call of [sendMessage] *)
| EvOpen (i : nat)
| EvMessage (i : nat) (data : jsstring)
| EvClose (i : nat)
| EvError (i : nat)
| EvTimeout (t : nat).

Definition step (o : Options) (h : Hook) (e : Event) : Hook :=
  match e with
  | EvConnect => connect o h
  | EvDisconnect => disconnect h
  | EvSend m => fst (sendMessage m h)
  | EvOpen i => onopen i h
  | EvMessage i d => onmessage i d h
  | EvClose i => onclose o i h
  | EvError i => onerror i h
  | EvTimeout t => timeout o t h
  end.

Definition steps (o : Options) (h : Hook) (es : list Event) : Hook :=
  fold_left (step o) es h.

(** An event other than a successful open (and other than an explicit
    [disconnect], which resets the counter as well). *)
Definition no_reset (e : Event) : bool :=
  match e with
  | EvOpen _ | EvDisconnect => false
  | _ => true
  end.

(** Timers set so far, fired or not. *)
Definition scheduled (h : Hook) : nat := length (timers h).

Definition pending_timers (h : Hook) : list nat :=
  List.map fst
    (List.filter (fun p => match snd p with Some _ => true | None => false end)
       (imap (fun i t => (i, t)) (timers h))).




End UseWebSocket.

(** ** components/VoiceRecorder.tsx *)

Module VoiceRecorder.

(** The argument of [onResponseReceived]. *)
Record Response := {
  text : jsstring;
  audioUrl : jsstring }.

(** The props of one render; the callbacks act on the state [P] of
    the parent component. *)
Record Props (P : Type) := {
  isConnected : bool;
  isProcessing : bool;
  onProcessingChange : bool -> P -> P;
  onAudioReady : option (Blob -> P -> P);
  onResponseReceived : option (Response -> P -> P) }.
Arguments isConnected {P} p.
Arguments isProcessing {P} p.
Arguments onProcessingChange {P} p.
Arguments onAudioReady {P} p.
Arguments onResponseReceived {P} p.

Inductive RecordingState : Type := inactive | recording.

(** The component with its parent: the parent's state, the state
    cells and the ref of the recorder, the runs of
    [avatarService.processAudioInput] that [handleSendAudio] is
    awaiting ([inflight], oldest first) and the audio elements
    played. *)
Record State (P : Type) := {
  parent : P;
  isRecording : bool;
  audioBlob : option Blob;
  error : jsstring;
  progress : jsstring;
  mediaRecorderRef : option RecordingState;
  inflight : list Blob;
  played : list jsstring }.
Arguments parent {P} s.
Arguments isRecording {P} s.
Arguments audioBlob {P} s.
Arguments error {P} s.
Arguments progress {P} s.
Arguments mediaRecorderRef {P} s.
Arguments inflight {P} s.
Arguments played {P} s.

Section Handlers.
Context {P : Type}.
Implicit Type s : State P.
Implicit Type pr : Props P.

Definition set_parent (p : P) s : State P :=
  {| parent := p; isRecording := isRecording s; audioBlob := audioBlob s;
     error := error s; progress := progress s;
     mediaRecorderRef := mediaRecorderRef s;
     inflight := inflight s; played := played s |}.

Definition setIsRecording (b : bool) s : State P :=
  {| parent := parent s; isRecording := b; audioBlob := audioBlob s;
     error := error s; progress := progress s;
     mediaRecorderRef := mediaRecorderRef s;
     inflight := inflight s; played := played s |}.

Definition setAudioBlob (b : option Blob) s : State P :=
  {| parent := parent s; isRecording := isRecording s; audioBlob := b;
     error := error s; progress := progress s;
     mediaRecorderRef := mediaRecorderRef s;
     inflight := inflight s; played := played s |}.

Definition setError (e : jsstring) s : State P :=
  {| parent := parent s; isRecording := isRecording s;
     audioBlob := audioBlob s; error := e; progress := progress s;
     mediaRecorderRef := mediaRecorderRef s;
     inflight := inflight s; played := played s |}.

Definition setProgress (g : jsstring) s : State P :=
  {| parent := parent s; isRecording := isRecording s;
     audioBlob := audioBlob s; error := error s; progress := g;
     mediaRecorderRef := mediaRecorderRef s;
     inflight := inflight s; played := played s |}.

Definition set_mediaRecorderRef (r : option RecordingState) s : State P :=
  {| parent := parent s; isRecording := isRecording s;
     audioBlob := audioBlob s; error := error s; progress := progress s;
     mediaRecorderRef := r;
     inflight := inflight s; played := played s |}.

Definition set_inflight (l : list Blob) s : State P :=
  {| parent := parent s; isRecording := isRecording s;
     audioBlob := audioBlob s; error := error s; progress := progress s;
     mediaRecorderRef := mediaRecorderRef s;
     inflight := l; played := played s |}.

Definition set_played (l : list jsstring) s : State P :=
  {| parent := parent s; isRecording := isRecording s;
     audioBlob := audioBlob s; error := error s; progress := progress s;
     mediaRecorderRef := mediaRecorderRef s;
     inflight := inflight s; played := l |}.

(** [getUserMedia] either grants the microphone or rejects. *)
Definition handleStartRecording pr (microphone : bool) s : State P :=
  if negb (isConnected pr) || isProcessing pr then s
  else
    let s1 := setProgress [] (setError [] s) in
    if microphone then
      setIsRecording true (set_mediaRecorderRef (Some recording) s1)
    else setError (js "Ошибка доступа к микрофону") s1.

(** [mediaRecorder.onstop] *)
Definition onstop pr (blob : Blob) s : State P :=
  let s1 := setAudioBlob (Some blob) s in
  match onAudioReady pr with
  | Some f => set_parent (f blob (parent s1)) s1
  | None => s1
  end.

(** [handleSendAudio] up to its [await]; [audioBlob_seen] is the
    blob of the render the handler belongs to. *)
Definition handleSendAudio pr (audioBlob_seen : option Blob) s : State P :=
  match audioBlob_seen with
  | None => s
  | Some blob =>
      if isProcessing pr then s
      else
        let s1 := set_parent (onProcessingChange pr true (parent s)) s in
        let s2 := setProgress (js "Обработка аудио...") (setError [] s1) in
        set_inflight (inflight s2 ++ [blob]) s2
  end.

(** [handleSendAudio] from its [await] on: run [i] has settled.
    [plays] tells whether [audio.play()] is fulfilled. *)
Definition handleSendAudio_settled pr (i : nat)
    (outcome : Outcome AvatarService.ProcessResult) (plays : bool) s
  : State P :=
  match inflight s !! i, outcome with
  | None, _ | _, Pending => s
  | Some _, Fulfilled result =>
      let s0 := set_inflight (delete i (inflight s)) s in
      let s1 := setProgress (js "Готово!") s0 in
      let s2 :=
        match onResponseReceived pr with
        | Some f =>
            set_parent
              (f {| text := AvatarService.aiResponse result;
                    audioUrl := AvatarService.audioUrl result |}
                 (parent s1)) s1
        | None => s1
        end in
      let s3 := setAudioBlob None s2 in
      let s4 := set_played (played s3 ++ [AvatarService.audioUrl result]) s3 in
      let s5 := setProgress []
                  (set_parent (onProcessingChange pr false (parent s4)) s4) in
      if plays then s5
      else setError (js "Ошибка воспроизведения аудио") s5
  | Some _, Rejected e =>
      let s0 := set_inflight (delete i (inflight s)) s in
      let s1 :=
        setError
          match e with
          | ErrorObject message => message
          | OtherValue => js "Ошибка обработки аудио"
          end s0 in
      setProgress []
        (set_parent (onProcessingChange pr false (parent s1)) s1)
  end.

Definition handleStopRecording s : State P :=
  let s1 := setIsRecording false s in
  match mediaRecorderRef s1 with
  | Some recording => set_mediaRecorderRef (Some inactive) s1
  | _ => s1
  end.

(** The callback [handleStopRecording] defers by 100 ms; it acts on
    the props and the blob of the render in which stop was
    pressed. *)
Definition handleStopRecording_deferred pr (audioBlob_seen : option Blob) s
  : State P :=
  match audioBlob_seen with
  | Some _ => handleSendAudio pr audioBlob_seen s
  | None => s
  end.

(** The cancel button, [disabled] while processing. *)
Definition cancel pr s : State P :=
  if isProcessing pr then s
  else setProgress [] (setError [] (setAudioBlob None s)).

End Handlers.

End VoiceRecorder.

(** ** components/AvatarPage.tsx *)

Module AvatarPage.

Inductive Sender : Type := user | avatar.

Record Message := {
  id : jsstring;
  text : jsstring;
  sender : Sender;
  timestamp : N }.

Record AvatarResponse := {
  r_text : jsstring;
  r_audioUrl : jsstring;
  r_recognizedText : option jsstring }.

Record Page := {
  isConnected : bool;
  isProcessing : bool;
  audioUrl : option jsstring;
  isSpeaking : bool;
  avatarResponse : option AvatarResponse;
  messages : list Message;
  played : list jsstring }.

Definition greeting (now : N) : Message :=
  {| id := js "1";
     text := js "Привет! Я цифровой аватар. Как дела?";
     sender := avatar;
     timestamp := now |}.

Definition initial (now : N) : Page :=
  {| isConnected := false; isProcessing := false; audioUrl := None;
     isSpeaking := false; avatarResponse := None;
     messages := [greeting now]; played := [] |}.

Definition setIsConnected (b : bool) (p : Page) : Page :=
  {| isConnected := b; isProcessing := isProcessing p;
     audioUrl := audioUrl p; isSpeaking := isSpeaking p;
     avatarResponse := avatarResponse p; messages := messages p;
     played := played p |}.

Definition setIsProcessing (b : bool) (p : Page) : Page :=
  {| isConnected := isConnected p; isProcessing := b;
     audioUrl := audioUrl p; isSpeaking := isSpeaking p;
     avatarResponse := avatarResponse p; messages := messages p;
     played := played p |}.

Definition setAudioUrl (u : option jsstring) (p : Page) : Page :=
  {| isConnected := isConnected p; isProcessing := isProcessing p;
     audioUrl := u; isSpeaking := isSpeaking p;
     avatarResponse := avatarResponse p; messages := messages p;
     played := played p |}.

Definition setIsSpeaking (b : bool) (p : Page) : Page :=
  {| isConnected := isConnected p; isProcessing := isProcessing p;
     audioUrl := audioUrl p; isSpeaking := b;
     avatarResponse := avatarResponse p; messages := messages p;
     played := played p |}.

Definition setAvatarResponse (r : option AvatarResponse) (p : Page) : Page :=
  {| isConnected := isConnected p; isProcessing := isProcessing p;
     audioUrl := audioUrl p; isSpeaking := isSpeaking p;
     avatarResponse := r; messages := messages p;
     played := played p |}.

Definition setMessages (f : list Message -> list Message) (p : Page) : Page :=
  {| isConnected := isConnected p; isProcessing := isProcessing p;
     audioUrl := audioUrl p; isSpeaking := isSpeaking p;
     avatarResponse := avatarResponse p; messages := f (messages p);
     played := played p |}.

Definition set_played (l : list jsstring) (p : Page) : Page :=
  {| isConnected := isConnected p; isProcessing := isProcessing p;
     audioUrl := audioUrl p; isSpeaking := isSpeaking p;
     avatarResponse := avatarResponse p; messages := messages p;
     played := l |}.

Definition handleConnect : Page -> Page := setIsConnected true.
Definition handleDisconnect : Page -> Page := setIsConnected false.

Definition handleAudioReady (env : AvatarService.Env) (blob : Blob)
    (p : Page) : Page :=
  setAudioUrl (Some (AvatarService.createObjectURL env blob))
    (setIsSpeaking true (setIsProcessing true p)).

Definition handleAvatarResponse (now : N) (response : AvatarResponse)
    (p : Page) : Page :=
  let p1 := setIsSpeaking true (setAvatarResponse (Some response) p) in
  let p2 :=
    match r_recognizedText response with
    | Some recognized =>
        if truthy recognized then
          setMessages
            (fun prev =>
               prev ++
               [ {| id := number_toString now ++ js "-user";
                    text := recognized;
                    sender := user;
                    timestamp := now |};
                 {| id := number_toString now ++ js "-avatar";
                    text := r_text response;
                    sender := avatar;
                    timestamp := now |} ]) p1
        else p1
    | None => p1
    end in
  set_played (played p2 ++ [r_audioUrl response]) p2.

(** [audio.onended] *)
Definition audio_onended : Page -> Page := setIsSpeaking false.

Definition handleVideoReady (p : Page) : Page :=
  setAudioUrl None (setIsSpeaking false (setIsProcessing false p)).

(** The props the page hands to its [VoiceRecorder]:
    [onResponseReceived] is
    [(resp) => handleAvatarResponse({...resp, recognizedText: resp.text ?? ""})]. *)
Definition voiceRecorderProps (env : AvatarService.Env) (now : N) (p : Page)
  : VoiceRecorder.Props Page :=
  {| VoiceRecorder.isConnected := isConnected p;
     VoiceRecorder.isProcessing := isProcessing p;
     VoiceRecorder.onProcessingChange := setIsProcessing;
     VoiceRecorder.onAudioReady := Some (handleAudioReady env);
     VoiceRecorder.onResponseReceived :=
       Some (fun resp =>
               handleAvatarResponse now
                 {| r_text := VoiceRecorder.text resp;
                    r_audioUrl := VoiceRecorder.audioUrl resp;
                    r_recognizedText := Some (VoiceRecorder.text resp) |}) |}.

(** The page with its voice recorder mounted. *)
Definition App := VoiceRecorder.State Page.

Definition mount (now : N) : App :=
  {| VoiceRecorder.parent := initial now;
     VoiceRecorder.isRecording := false;
     VoiceRecorder.audioBlob := None;
     VoiceRecorder.error := [];
     VoiceRecorder.progress := [];
     VoiceRecorder.mediaRecorderRef := None;
     VoiceRecorder.inflight := [];
     VoiceRecorder.played := [] |}.

(** What can happen to the mounted page.  A click runs the handler of
    the latest render; [Settled i] is the settlement of the pipeline
    run [i]. *)
Inductive Event : Type :=
| ClickConnect
| ClickDisconnect
| ClickStart (microphone : bool)
| ClickStop
| RecorderStopped (blob : Blob)
| ClickSend
| ClickCancel
| Settled (i : nat) (plays : bool)
| AudioEnded
| VideoReady
| StopDeferred (isProcessing_seen : bool) (audioBlob_seen : option Blob).

(** An event together with the services as they answer when it
    happens and the reading of [Date.now()]. *)
Record Occurrence := {
  world : AvatarService.Env;
  now : N;
  event : Event }.

Definition with_parent (f : Page -> Page) (s : App) : App :=
  VoiceRecorder.set_parent (f (VoiceRecorder.parent s)) s.

Definition step (s : App) (o : Occurrence) : App :=
  let pr := voiceRecorderProps (world o) (now o) (VoiceRecorder.parent s) in
  match event o with
  | ClickConnect => with_parent handleConnect s
  | ClickDisconnect => with_parent handleDisconnect s
  | ClickStart microphone => VoiceRecorder.handleStartRecording pr microphone s
  | ClickStop => VoiceRecorder.handleStopRecording s
  | RecorderStopped blob => VoiceRecorder.onstop pr blob s
  | ClickSend => VoiceRecorder.handleSendAudio pr (VoiceRecorder.audioBlob s) s
  | ClickCancel => VoiceRecorder.cancel pr s
  | Settled i plays =>
      match VoiceRecorder.inflight s !! i with
      | Some blob =>
          VoiceRecorder.handleSendAudio_settled pr i
            (snd (AvatarService.run
                    (AvatarService.processAudioInput (world o) blob)))
            plays s
      | None => s
      end
  | AudioEnded => with_parent audio_onended s
  | VideoReady => with_parent handleVideoReady s
  | StopDeferred isProcessing_seen audioBlob_seen =>
      VoiceRecorder.handleStopRecording_deferred
        {| VoiceRecorder.isConnected := VoiceRecorder.isConnected pr;
           VoiceRecorder.isProcessing := isProcessing_seen;
           VoiceRecorder.onProcessingChange := VoiceRecorder.onProcessingChange pr;
           VoiceRecorder.onAudioReady := VoiceRecorder.onAudioReady pr;
           VoiceRecorder.onResponseReceived := VoiceRecorder.onResponseReceived pr |}
        audioBlob_seen s
  end.

Definition steps (s : App) (os : list Occurrence) : App :=
  fold_left step os s.

(** No run is in flight, or exactly one is and the flag
    [isProcessing] is set. *)
Definition one_run (s : App) : Prop :=
  VoiceRecorder.inflight s = []
  \/ (exists blob, VoiceRecorder.inflight s = [blob])
     /\ isProcessing (VoiceRecorder.parent s) = true.

(** An occurrence is orderly in a state when it leaves the flag
    [isProcessing] to the run in flight: the page's [handleVideoReady]
    does not fire during a run, and the deferred callback of the stop
    button sees the flag as it is. *)
Definition orderly (s : App) (o : Occurrence) : bool :=
  match event o with
  | VideoReady =>
      match VoiceRecorder.inflight s with [] => true | _ :: _ => false end
  | StopDeferred isProcessing_seen _ =>
      Bool.eqb isProcessing_seen (isProcessing (VoiceRecorder.parent s))
  | _ => true
  end.

Fixpoint all_orderly (s : App) (os : list Occurrence) : bool :=
  match os with
  | [] => true
  | o :: os' => orderly s o && all_orderly (step s o) os'
  end.

End AvatarPage.

(** ** components/ChatInterface.tsx *)

Module ChatInterface.

Inductive Sender : Type := user | avatar.

Record Message := {
  id : jsstring;
  text : jsstring;
  sender : Sender;
  timestamp : N }.

(** The props [isConnected], [isProcessing] and the two state cells. *)
Record State := {
  isConnected : bool;
  isProcessing : bool;
  messages : list Message;
  inputText : jsstring }.

Definition handleSendMessage (now : N) (s : State) : State :=
  if negb (truthy (trim (inputText s)))
     || negb (isConnected s) || isProcessing s
  then s
  else
    {| isConnected := isConnected s;
       isProcessing := isProcessing s;
       messages := messages s ++
                   [ {| id := number_toString now;
                        text := inputText s;
                        sender := user;
                        timestamp := now |} ];
       inputText := [] |}.

End ChatInterface.

(** ** components/AvatarSystem.tsx *)

Module AvatarSystem.

Inductive MessageType : Type := user | assistant.

Record Message := {
  id : jsstring;
  type : MessageType;
  text : jsstring;
  audio : option jsstring;
  timestamp : N }.

(** The state cells and refs of the component that its handlers read
    or write, the [useWebSocket] hook it mounts, the timers it sets
    with [window.setTimeout] ([timeouts], as in the hook) and whether
    it holds the microphone. *)
Record System := {
  messages : list Message;
  isRecording : bool;
  isProcessing : bool;
  isSpeaking : bool;
  inputText : jsstring;
  currentAudioUrl : jsstring;
  error : jsstring;
  isConnected : bool;
  servicesStatus : AvatarService.ServicesStatus;
  ws : UseWebSocket.Hook;
  reconnectTimeoutRef : option nat;
  timeouts : list (option Z);
  microphone : bool }.

Definition set_messages (v : list Message) (s : System) : System :=
  {| messages := v; isRecording := isRecording s;
     isProcessing := isProcessing s; isSpeaking := isSpeaking s;
     inputText := inputText s; currentAudioUrl := currentAudioUrl s;
     error := error s; isConnected := isConnected s;
     servicesStatus := servicesStatus s; ws := ws s;
     reconnectTimeoutRef := reconnectTimeoutRef s;
     timeouts := timeouts s; microphone := microphone s |}.

Definition setIsRecording (v : bool) (s : System) : System :=
  {| messages := messages s; isRecording := v;
     isProcessing := isProcessing s; isSpeaking := isSpeaking s;
     inputText := inputText s; currentAudioUrl := currentAudioUrl s;
     error := error s; isConnected := isConnected s;
     servicesStatus := servicesStatus s; ws := ws s;
     reconnectTimeoutRef := reconnectTimeoutRef s;
     timeouts := timeouts s; microphone := microphone s |}.

Definition setIsProcessing (v : bool) (s : System) : System :=
  {| messages := messages s; isRecording := isRecording s;
     isProcessing := v; isSpeaking := isSpeaking s;
     inputText := inputText s; currentAudioUrl := currentAudioUrl s;
     error := error s; isConnected := isConnected s;
     servicesStatus := servicesStatus s; ws := ws s;
     reconnectTimeoutRef := reconnectTimeoutRef s;
     timeouts := timeouts s; microphone := microphone s |}.

Definition setIsSpeaking (v : bool) (s : System) : System :=
  {| messages := messages s; isRecording := isRecording s;
     isProcessing := isProcessing s; isSpeaking := v;
     inputText := inputText s; currentAudioUrl := currentAudioUrl s;
     error := error s; isConnected := isConnected s;
     servicesStatus := servicesStatus s; ws := ws s;
     reconnectTimeoutRef := reconnectTimeoutRef s;
     timeouts := timeouts s; microphone := microphone s |}.

Definition setInputText (v : jsstring) (s : System) : System :=
  {| messages := messages s; isRecording := isRecording s;
     isProcessing := isProcessing s; isSpeaking := isSpeaking s;
     inputText := v; currentAudioUrl := currentAudioUrl s;
     error := error s; isConnected := isConnected s;
     servicesStatus := servicesStatus s; ws := ws s;
     reconnectTimeoutRef := reconnectTimeoutRef s;
     timeouts := timeouts s; microphone := microphone s |}.

Definition setCurrentAudioUrl (v : jsstring) (s : System) : System :=
  {| messages := messages s; isRecording := isRecording s;
     isProcessing := isProcessing s; isSpeaking := isSpeaking s;
     inputText := inputText s; currentAudioUrl := v; error := error s;
     isConnected := isConnected s; servicesStatus := servicesStatus s;
     ws := ws s; reconnectTimeoutRef := reconnectTimeoutRef s;
     timeouts := timeouts s; microphone := microphone s |}.

Definition setError (v : jsstring) (s : System) : System :=
  {| messages := messages s; isRecording := isRecording s;
     isProcessing := isProcessing s; isSpeaking := isSpeaking s;
     inputText := inputText s; currentAudioUrl := currentAudioUrl s;
     error := v; isConnected := isConnected s;
     servicesStatus := servicesStatus s; ws := ws s;
     reconnectTimeoutRef := reconnectTimeoutRef s;
     timeouts := timeouts s; microphone := microphone s |}.

Definition setIsConnected (v : bool) (s : System) : System :=
  {| messages := messages s; isRecording := isRecording s;
     isProcessing := isProcessing s; isSpeaking := isSpeaking s;
     inputText := inputText s; currentAudioUrl := currentAudioUrl s;
     error := error s; isConnected := v;
     servicesStatus := servicesStatus s; ws := ws s;
     reconnectTimeoutRef := reconnectTimeoutRef s;
     timeouts := timeouts s; microphone := microphone s |}.

Definition setServicesStatus (v : AvatarService.ServicesStatus) (s : System) : System :=
  {| messages := messages s; isRecording := isRecording s;
     isProcessing := isProcessing s; isSpeaking := isSpeaking s;
     inputText := inputText s; currentAudioUrl := currentAudioUrl s;
     error := error s; isConnected := isConnected s; servicesStatus := v;
     ws := ws s; reconnectTimeoutRef := reconnectTimeoutRef s;
     timeouts := timeouts s; microphone := microphone s |}.

Definition set_ws (v : UseWebSocket.Hook) (s : System) : System :=
  {| messages := messages s; isRecording := isRecording s;
     isProcessing := isProcessing s; isSpeaking := isSpeaking s;
     inputText := inputText s; currentAudioUrl := currentAudioUrl s;
     error := error s; isConnected := isConnected s;
     servicesStatus := servicesStatus s; ws := v;
     reconnectTimeoutRef := reconnectTimeoutRef s;
     timeouts := timeouts s; microphone := microphone s |}.

Definition set_reconnectTimeoutRef (v : option nat) (s : System) : System :=
  {| messages := messages s; isRecording := isRecording s;
     isProcessing := isProcessing s; isSpeaking := isSpeaking s;
     inputText := inputText s; currentAudioUrl := currentAudioUrl s;
     error := error s; isConnected := isConnected s;
     servicesStatus := servicesStatus s; ws := ws s;
     reconnectTimeoutRef := v; timeouts := timeouts s;
     microphone := microphone s |}.

Definition set_timeouts (v : list (option Z)) (s : System) : System :=
  {| messages := messages s; isRecording := isRecording s;
     isProcessing := isProcessing s; isSpeaking := isSpeaking s;
     inputText := inputText s; currentAudioUrl := currentAudioUrl s;
     error := error s; isConnected := isConnected s;
     servicesStatus := servicesStatus s; ws := ws s;
     reconnectTimeoutRef := reconnectTimeoutRef s; timeouts := v;
     microphone := microphone s |}.

Definition set_microphone (v : bool) (s : System) : System :=
  {| messages := messages s; isRecording := isRecording s;
     isProcessing := isProcessing s; isSpeaking := isSpeaking s;
     inputText := inputText s; currentAudioUrl := currentAudioUrl s;
     error := error s; isConnected := isConnected s;
     servicesStatus := servicesStatus s; ws := ws s;
     reconnectTimeoutRef := reconnectTimeoutRef s;
     timeouts := timeouts s; microphone := v |}.

(** The hook is mounted with the default options:
    [useWebSocket("ws://localhost:8000/ws", { onOpen, ... })]. *)
Definition options : UseWebSocket.Options := UseWebSocket.default_options.

(** [setMessages((prev) => [...prev, m])] *)
Definition append_message (m : Message) (s : System) : System :=
  set_messages (messages s ++ [m]) s.

(** [JSON.stringify] of a string: quotation with the escapes of
    ECMAScript's QuoteJSONString. *)
Definition hex_digit (d : N) : N := if d <? 10 then 48 + d else 87 + d.

Definition unicode_escape (c : N) : jsstring :=
  [92; 117; hex_digit (c / 4096 mod 16); hex_digit (c / 256 mod 16);
   hex_digit (c / 16 mod 16); hex_digit (c mod 16)].

Definition is_high_surrogate (c : N) : bool := (55296 <=? c) && (c <=? 56319).
Definition is_low_surrogate (c : N) : bool := (56320 <=? c) && (c <=? 57343).

Definition quote_unit (c : N) : jsstring :=
  if c =? 8 then [92; 98]
  else if c =? 9 then [92; 116]
  else if c =? 10 then [92; 110]
  else if c =? 12 then [92; 102]
  else if c =? 13 then [92; 114]
  else if c =? 34 then [92; 34]
  else if c =? 92 then [92; 92]
  else if (c <? 32) || is_high_surrogate c || is_low_surrogate c
       then unicode_escape c
  else [c].

Fixpoint quote_units (s : jsstring) : jsstring :=
  match s with
  | [] => []
  | c :: r =>
      match r with
      | d :: r' =>
          if is_high_surrogate c && is_low_surrogate d
          then c :: d :: quote_units r'
          else quote_unit c ++ quote_units r
      | [] => quote_unit c
      end
  end.

Definition QuoteJSONString (s : jsstring) : jsstring :=
  [34] ++ quote_units s ++ [34].

(** [JSON.stringify({ type: "user_message", text })] *)
Definition stringify_user_message (text : jsstring) : jsstring :=
  js "{" ++ QuoteJSONString (js "type") ++ js ":"
    ++ QuoteJSONString (js "user_message") ++ js ","
    ++ QuoteJSONString (js "text") ++ js ":"
    ++ QuoteJSONString text ++ js "}".

(** [sendMessage] of the hook, called from the component. *)
Definition sendMessage (m : UseWebSocket.Message) (s : System)
  : System * bool :=
  let (h, sent) := UseWebSocket.sendMessage m (ws s) in (set_ws h s, sent).

(** The effect on [connectionStatus]: it mirrors the status into
    [isConnected] and, on Disconnected or Error, replaces the
    component's reconnect timer by one of 5 s. *)
Definition connectionStatus_effect (status : UseWebSocket.ConnectionStatus)
    (s : System) : System :=
  let s1 :=
    setIsConnected
      match status with UseWebSocket.Connected => true | _ => false end s in
  match status with
  | UseWebSocket.Disconnected | UseWebSocket.Error =>
      let s2 :=
        match reconnectTimeoutRef s1 with
        | Some t => set_timeouts (<[t := None]> (timeouts s1)) s1
        | None => s1
        end in
      set_reconnectTimeoutRef (Some (length (timeouts s2)))
        (set_timeouts (timeouts s2 ++ [Some 5000%Z]) s2)
  | _ => s1
  end.

Definition ConnectionStatus_eqb (a b : UseWebSocket.ConnectionStatus) : bool :=
  match a, b with
  | UseWebSocket.Connecting, UseWebSocket.Connecting
  | UseWebSocket.Connected, UseWebSocket.Connected
  | UseWebSocket.Disconnected, UseWebSocket.Disconnected
  | UseWebSocket.Error, UseWebSocket.Error => true
  | _, _ => false
  end.

(** After an event React renders again and runs the effect when the
    status it depends on differs from the one of the previous
    render. *)
Definition rerender (before : UseWebSocket.ConnectionStatus) (s : System)
  : System :=
  let status := UseWebSocket.connectionStatus (ws s) in
  if ConnectionStatus_eqb before status then s
  else connectionStatus_effect status s.

Definition with_ws (f : UseWebSocket.Hook -> UseWebSocket.Hook) (s : System)
  : System :=
  rerender (UseWebSocket.connectionStatus (ws s)) (set_ws (f (ws s)) s).

(** Mounting: the hook's effect calls [connect]; the component's
    effect runs with the status of the first render, Disconnected,
    and again once the status has become what [connect] set. *)
Definition mount : System :=
  let s0 :=
    {| messages := []; isRecording := false; isProcessing := false;
       isSpeaking := false; inputText := []; currentAudioUrl := [];
       error := []; isConnected := false;
       servicesStatus :=
         {| AvatarService.backend := false; AvatarService.tts := false;
            AvatarService.sadtalker := false |};
       ws := UseWebSocket.initial;
       reconnectTimeoutRef := None; timeouts := []; microphone := false |} in
  let s1 := set_ws (UseWebSocket.connect options (ws s0)) s0 in
  rerender UseWebSocket.Disconnected
    (connectionStatus_effect UseWebSocket.Disconnected s1).

(** The callbacks handed to the hook. *)
Definition handleWSOpen (s : System) : System :=
  fst (sendMessage (UseWebSocket.Str (js "ping")) (setError [] s)).

Definition handleWSError (s : System) : System :=
  setError (js "Ошибка WebSocket: " ++ js "[object Event]") s.

Definition socket_exists (i : nat) (s : System) : bool :=
  match UseWebSocket.sockets (ws s) !! i with Some _ => true | None => false end.

(** Transport events, each followed by the callback of the
    component. *)
Definition ws_open (i : nat) (s : System) : System :=
  if socket_exists i s then
    let before := UseWebSocket.connectionStatus (ws s) in
    rerender before (handleWSOpen (set_ws (UseWebSocket.onopen i (ws s)) s))
  else s.

Definition ws_close (i : nat) (s : System) : System :=
  with_ws (UseWebSocket.onclose options i) s.

Definition ws_error (i : nat) (s : System) : System :=
  if socket_exists i s then
    let before := UseWebSocket.connectionStatus (ws s) in
    rerender before (handleWSError (set_ws (UseWebSocket.onerror i (ws s)) s))
  else s.

(** A reconnect timer of the hook fires. *)
Definition hook_timeout (t : nat) (s : System) : System :=
  with_ws (UseWebSocket.timeout options t) s.

(** The reconnect timer of the component fires: [connect()]. *)
Definition timeout (t : nat) (s : System) : System :=
  match timeouts s !! t with
  | Some (Some _) =>
      with_ws (UseWebSocket.connect options)
        (set_timeouts (<[t := None]> (timeouts s)) s)
  | _ => s
  end.

(** The connect / disconnect button. *)
Definition handleConnect (s : System) : System :=
  if isConnected s then with_ws UseWebSocket.disconnect s
  else with_ws (UseWebSocket.connect options) s.

Definition startRecording (granted : bool) (s : System) : System :=
  if negb (isConnected s) then setError (js "Нет подключения к серверу") s
  else
    let s1 := setError [] s in
    if granted then setIsRecording true (set_microphone true s1)
    else setError (js "Не удалось получить доступ к микрофону") s1.

Definition stopRecording (s : System) : System :=
  if microphone s && isRecording s
  then setIsRecording false (set_microphone false s)
  else s.

(** [playAudioResponse]; [plays] tells whether [audio.play()] is
    fulfilled. *)
Definition playAudioResponse (audioUrl : jsstring) (plays : bool)
    (s : System) : System :=
  let s1 := setCurrentAudioUrl audioUrl (setIsSpeaking true s) in
  if plays then s1
  else setIsSpeaking false (setError (js "Ошибка воспроизведения аудио") s1).

(** [processAudioInput] of the component, given how the run of the
    service settles. *)
Definition processAudioInput_settled (now : N) (plays : bool)
    (outcome : Outcome AvatarService.ProcessResult) (s : System) : System :=
  let s0 := setError [] (setIsProcessing true s) in
  match outcome with
  | Pending => s0
  | Fulfilled result =>
      let userMessage :=
        {| id := number_toString now;
           type := user;
           text := AvatarService.recognizedText result;
           audio := None;
           timestamp := now |} in
      let assistantMessage :=
        {| id := number_toString (now + 1);
           type := assistant;
           text := AvatarService.aiResponse result;
           audio := Some (AvatarService.audioUrl result);
           timestamp := now |} in
      let s1 := append_message assistantMessage (append_message userMessage s0) in
      let s2 := setIsProcessing false s1 in
      playAudioResponse (AvatarService.audioUrl result) plays s2
  | Rejected e =>
      setIsProcessing false
        (setError
           match e with
           | ErrorObject message => message
           | OtherValue => js "Ошибка обработки аудио"
           end s0)
  end.

Definition processAudioInput (env : AvatarService.Env) (now : N)
    (plays : bool) (audioBlob : Blob) (s : System) : System :=
  processAudioInput_settled now plays
    (snd (AvatarService.run (AvatarService.processAudioInput env audioBlob))) s.

Definition handleSendText (now : N) (s : System) : System :=
  if negb (truthy (trim (inputText s))) || negb (isConnected s) then s
  else
    let userMessage :=
      {| id := number_toString now;
         type := user;
         text := inputText s;
         audio := None;
         timestamp := now |} in
    let s1 := setIsProcessing true (setInputText [] (append_message userMessage s)) in
    fst (sendMessage
           (UseWebSocket.Str (stringify_user_message (inputText s))) s1).

(** Events of the connection as the mounted component sees them. *)
Inductive Event : Type :=
| WsOpen (i : nat)
| WsClose (i : nat)
| WsError (i : nat)
| HookTimeout (t : nat)
| Timeout (t : nat)
| ClickConnect.

Definition step (s : System) (e : Event) : System :=
  match e with
  | WsOpen i => ws_open i s
  | WsClose i => ws_close i s
  | WsError i => ws_error i s
  | HookTimeout t => hook_timeout t s
  | Timeout t => timeout t s
  | ClickConnect => handleConnect s
  end.

Definition steps (s : System) (es : list Event) : System :=
  fold_left step es s.

(** Timers of the component that are still to fire. *)
Definition pending_timeouts (s : System) : list nat :=
  List.map fst
    (List.filter (fun p => match snd p with Some _ => true | None => false end)
       (imap (fun i t => (i, t)) (timeouts s))).

End AvatarSystem.

(** ** Concrete worlds and traces *)

Module Scenario.
Import AvatarService.

Definition respond {A} (code : N) (a : A) : Outcome (Response A) :=
  Fulfilled {| status := code; body := Fulfilled a |}.

(** Every service answers 200: recognition hears [heard], the model
    replies [reply], synthesis yields the audio [a1]. *)
Definition all_up (heard reply : jsstring) : Env :=
  {| recognize_api := fun _ => respond 200 {| sr_text := heard; sr_confidence := 1 |};
     chat_api := fun _ _ => respond 200 {| ai_text := reply; ai_emotion := None |};
     synthesize_api :=
       fun _ => respond 200 {| audio_id := js "a1"; result_duration := None |};
     audio_api := fun _ => respond 200 [82; 73; 70; 70];
     health_api := fun _ => respond 200 tt;
     createObjectURL := fun _ => js "blob:a1" |}.

Definition with_recognize
    (r : Blob -> Outcome (Response SpeechRecognitionResponse)) (env : Env) : Env :=
  {| recognize_api := r; chat_api := chat_api env;
     synthesize_api := synthesize_api env; audio_api := audio_api env;
     health_api := health_api env; createObjectURL := createObjectURL env |}.

Definition with_chat
    (c : jsstring -> jsstring -> Outcome (Response AIResponse)) (env : Env) : Env :=
  {| recognize_api := recognize_api env; chat_api := c;
     synthesize_api := synthesize_api env; audio_api := audio_api env;
     health_api := health_api env; createObjectURL := createObjectURL env |}.

Definition with_synthesize
    (y : jsstring -> Outcome (Response SynthesizeResult)) (env : Env) : Env :=
  {| recognize_api := recognize_api env; chat_api := chat_api env;
     synthesize_api := y; audio_api := audio_api env;
     health_api := health_api env; createObjectURL := createObjectURL env |}.

Definition with_health
    (h : jsstring -> Outcome (Response unit)) (env : Env) : Env :=
  {| recognize_api := recognize_api env; chat_api := chat_api env;
     synthesize_api := synthesize_api env; audio_api := audio_api env;
     health_api := h; createObjectURL := createObjectURL env |}.

Definition hello : jsstring := js "привет".
Definition hi_there : jsstring := js "Здравствуйте".
Definition speech : Blob := [1; 2; 3].

(** The error a [fetch] rejects with when the network fails. *)
Definition failed_to_fetch : Thrown := ErrorObject (js "Failed to fetch").

(** The request to the recognition service fails. *)
Definition recognition_unreachable : Env :=
  with_recognize (fun _ => Rejected failed_to_fetch) (all_up hello hi_there).

(** Recognition answers 500. *)
Definition recognition_500 : Env :=
  with_recognize
    (fun _ => Fulfilled {| status := 500; body := Pending |})
    (all_up hello hi_there).

(** Recognition never answers. *)
Definition recognition_hangs : Env :=
  with_recognize (fun _ => Pending) (all_up hello hi_there).

(** Synthesis answers 503. *)
Definition synthesis_503 : Env :=
  with_synthesize
    (fun _ => Fulfilled {| status := 503; body := Pending |})
    (all_up hello hi_there).

(** Recognition succeeds; the request to the model fails. *)
Definition generation_unreachable : Env :=
  with_chat (fun _ _ => Rejected failed_to_fetch) (all_up hello hi_there).

(** The error [response.json()] rejects with when the body is not
    JSON. *)
Definition unexpected_token : Thrown :=
  ErrorObject (js "Unexpected token < in JSON at position 0").

(** Recognition answers 200 with a body that is not JSON. *)
Definition recognition_malformed : Env :=
  with_recognize
    (fun _ => Fulfilled {| status := 200; body := Rejected unexpected_token |})
    (all_up hello hi_there).

(** Recognition succeeds; the model answers 200 with a body that is not
    JSON. *)
Definition generation_malformed : Env :=
  with_chat
    (fun _ _ => Fulfilled {| status := 200; body := Rejected unexpected_token |})
    (all_up hello hi_there).

(** Synthesis succeeds; the audio file is answered 404. *)
Definition audio_404 : Env :=
  {| recognize_api := recognize_api (all_up hello hi_there);
     chat_api := chat_api (all_up hello hi_there);
     synthesize_api := synthesize_api (all_up hello hi_there);
     audio_api := fun _ => Fulfilled {| status := 404; body := Pending |};
     health_api := health_api (all_up hello hi_there);
     createObjectURL := createObjectURL (all_up hello hi_there) |}.


(** The synthesis service never answers its health probe. *)
Definition tts_hangs : Env :=
  with_health
    (fun url => if decide (url = tts_health)
                then Pending else respond 200 tt)
    (all_up hello hi_there).

Definition at_ (e : AvatarPage.Event) : AvatarPage.Occurrence :=
  {| AvatarPage.world := all_up hello hi_there;
     AvatarPage.now := 1700000000000;
     AvatarPage.event := e |}.

(** A recording is made, the page's animation of it completes, and
    the send button is pressed. *)
Definition record_and_send : list AvatarPage.Occurrence :=
  List.map at_
    [ AvatarPage.ClickConnect; AvatarPage.ClickStart true;
      AvatarPage.ClickStop; AvatarPage.RecorderStopped speech;
      AvatarPage.VideoReady; AvatarPage.ClickSend ].

Definition sending : AvatarPage.App :=
  AvatarPage.steps (AvatarPage.mount 1700000000000) record_and_send.

(** The same, after which the connection is dropped before the send
    button is pressed. *)
Definition record_disconnect : list AvatarPage.Occurrence :=
  List.map at_
    [ AvatarPage.ClickConnect; AvatarPage.ClickStart true;
      AvatarPage.ClickStop; AvatarPage.RecorderStopped speech;
      AvatarPage.VideoReady; AvatarPage.ClickDisconnect ].

Definition recorded_offline : AvatarPage.App :=
  AvatarPage.steps (AvatarPage.mount 1700000000000) record_disconnect.

(** A second recording is stopped while the run of the first is in
    flight, and its animation completes before that run settles. *)
Definition second_speech : Blob := [4; 5; 6].

Definition record_during_run : list AvatarPage.Occurrence :=
  List.map at_
    [ AvatarPage.ClickConnect; AvatarPage.ClickStart true;
      AvatarPage.ClickStop; AvatarPage.RecorderStopped speech;
      AvatarPage.VideoReady; AvatarPage.ClickStart true;
      AvatarPage.ClickSend; AvatarPage.ClickStop;
      AvatarPage.RecorderStopped second_speech;
      AvatarPage.VideoReady; AvatarPage.ClickSend ].

(** The server is down: every transport fails as soon as it is
    constructed, and each timer of the hook fires in turn. *)
Fixpoint failures (n : nat) (first : nat) : list AvatarSystem.Event :=
  match n with
  | O => []
  | S n' =>
      [ AvatarSystem.WsError first; AvatarSystem.WsClose first;
        AvatarSystem.HookTimeout first ] ++ failures n' (S first)
  end.

(** Five failed attempts, each retried by the hook, then the failure
    of the fifth retry. *)
Definition server_down : list AvatarSystem.Event :=
  failures 5 0 ++ [ AvatarSystem.WsError 5; AvatarSystem.WsClose 5 ].

Definition exhausted : AvatarSystem.System :=
  AvatarSystem.steps AvatarSystem.mount server_down.

End Scenario.


(** ** components/AvatarSystem.tsx: the health check and the component
       as a whole *)

Module AvatarSystemActions.
Import AvatarSystem.

(** [Object.values(status).every(Boolean)] *)
Definition every_service (status : AvatarService.ServicesStatus) : bool :=
  AvatarService.backend status && AvatarService.tts status
  && AvatarService.sadtalker status.

(** [checkServicesStatus] from its [await] on, given how
    [avatarService.checkServices()] settles; [seen] is the
    [connectionStatus] of the render the function belongs to. *)
Definition checkServicesStatus_settled (seen : UseWebSocket.ConnectionStatus)
    (outcome : Outcome AvatarService.ServicesStatus) (s : System) : System :=
  match outcome with
  | Fulfilled status =>
      let s1 := setServicesStatus status s in
      if every_service status
         && negb (ConnectionStatus_eqb seen UseWebSocket.Connected)
      then with_ws (UseWebSocket.connect options) s1
      else s1
  | Rejected _ => s
  | Pending => s
  end.

Definition checkServicesStatus (env : AvatarService.Env)
    (seen : UseWebSocket.ConnectionStatus) (s : System) : System :=
  checkServicesStatus_settled seen
    (snd (AvatarService.run (AvatarService.checkServices env))) s.

(** Everything the model lets happen to the mounted component. *)
Inductive Action : Type :=
| Connection (e : Event)
| SendText (now : N)
| AudioInput (env : AvatarService.Env) (now : N) (plays : bool) (audioBlob : Blob)
| HealthCheck (env : AvatarService.Env) (seen : UseWebSocket.ConnectionStatus)
| StartRecording (granted : bool)
| StopRecording
| TypeText (text : jsstring).

Definition act (s : System) (a : Action) : System :=
  match a with
  | Connection e => step s e
  | SendText now => handleSendText now s
  | AudioInput env now plays audioBlob => processAudioInput env now plays audioBlob s
  | HealthCheck env seen => checkServicesStatus env seen s
  | StartRecording granted => startRecording granted s
  | StopRecording => stopRecording s
  | TypeText text => setInputText text s
  end.

Definition acts (s : System) (l : list Action) : System := fold_left act l s.

(** [isConnected] tells whether the status of the hook is Connected. *)
Definition mirrors (s : System) : Prop :=
  isConnected s
  = ConnectionStatus_eqb (UseWebSocket.connectionStatus (ws s))
      UseWebSocket.Connected.

(** Every timer of the component still to fire is the one its ref
    points to. *)
Definition one_timeout (s : System) : Prop :=
  forall t d, timeouts s !! t = Some (Some d) -> reconnectTimeoutRef s = Some t.

(** What the two invariants read of a state. *)
Definition connection_view (s : System) :=
  (isConnected s, UseWebSocket.connectionStatus (ws s), timeouts s,
   reconnectTimeoutRef s).

(** A state in which [isConnected] is set although the current
    transport is still connecting: [connect] was called a second time
    before the first transport opened, and then the first one
    opened. *)
Definition first_transport_opened : System :=
  setInputText (js "hi")
    (steps mount [ClickConnect; WsOpen 0]).

End AvatarSystemActions.

(** ** components/ServiceStatus.tsx *)

Module ServiceStatus.

Record State := {
  services : AvatarService.ServicesStatus;
  isChecking : bool;
  lastCheck : option N }.

Definition initial : State :=
  {| services := {| AvatarService.backend := false;
                    AvatarService.tts := false;
                    AvatarService.sadtalker := false |};
     isChecking := false;
     lastCheck := None |}.

Definition setServices (v : AvatarService.ServicesStatus) (s : State) : State :=
  {| services := v; isChecking := isChecking s; lastCheck := lastCheck s |}.

Definition setIsChecking (v : bool) (s : State) : State :=
  {| services := services s; isChecking := v; lastCheck := lastCheck s |}.

Definition setLastCheck (v : option N) (s : State) : State :=
  {| services := services s; isChecking := isChecking s; lastCheck := v |}.

(** [checkServices] from its [await] on, given how the check of the
    service settles; [now] is the reading of [new Date()]. *)
Definition checkServices_settled (now : N)
    (outcome : Outcome AvatarService.ServicesStatus) (s : State) : State :=
  match outcome with
  | Fulfilled status =>
      setIsChecking false (setLastCheck (Some now) (setServices status s))
  | Rejected _ => setIsChecking false s
  | Pending => s
  end.

Definition checkServices (env : AvatarService.Env) (now : N) (s : State)
  : State :=
  checkServices_settled now
    (snd (AvatarService.run (AvatarService.checkServices env)))
    (setIsChecking true s).

Inductive ServiceKey : Type := backend | tts | sadtalker.

Definition getServiceName (key : ServiceKey) : jsstring :=
  match key with
  | backend => js "Backend API"
  | tts => js "HierSpeech TTS"
  | sadtalker => js "SadTalker"
  end.

(** [Object.values(services).every(Boolean)] *)
Definition allServicesOnline (s : State) : bool :=
  AvatarService.backend (services s) && AvatarService.tts (services s)
  && AvatarService.sadtalker (services s).

End ServiceStatus.

(** ** components/PhotoUpload.tsx *)

Module PhotoUpload.

Record File := {
  name : jsstring;
  type : jsstring;
  size : N }.

(** The props: [maxFiles] (a count) and [acceptedFormats]. *)
Record Props := {
  maxFiles : N;
  acceptedFormats : list jsstring }.

Definition default_props : Props :=
  {| maxFiles := 5;
     acceptedFormats := [js "image/jpeg"; js "image/png"; js "image/webp"] |}.

(** The state cells, the files a [FileReader] has been started on
    ([reading]) and the lists handed to [onPhotosUploaded]
    ([notified], oldest first). *)
Record State := {
  dragActive : bool;
  uploadedPhotos : list File;
  previews : list jsstring;
  uploading : bool;
  error : option jsstring;
  reading : list File;
  notified : list (list File) }.

Definition initial : State :=
  {| dragActive := false; uploadedPhotos := []; previews := [];
     uploading := false; error := None; reading := []; notified := [] |}.

Definition setDragActive (v : bool) (s : State) : State :=
  {| dragActive := v; uploadedPhotos := uploadedPhotos s;
     previews := previews s; uploading := uploading s; error := error s;
     reading := reading s; notified := notified s |}.

Definition setUploadedPhotos (v : list File) (s : State) : State :=
  {| dragActive := dragActive s; uploadedPhotos := v;
     previews := previews s; uploading := uploading s; error := error s;
     reading := reading s; notified := notified s |}.

Definition setPreviews (v : list jsstring) (s : State) : State :=
  {| dragActive := dragActive s; uploadedPhotos := uploadedPhotos s;
     previews := v; uploading := uploading s; error := error s;
     reading := reading s; notified := notified s |}.

Definition setError (v : option jsstring) (s : State) : State :=
  {| dragActive := dragActive s; uploadedPhotos := uploadedPhotos s;
     previews := previews s; uploading := uploading s; error := v;
     reading := reading s; notified := notified s |}.

Definition set_reading (v : list File) (s : State) : State :=
  {| dragActive := dragActive s; uploadedPhotos := uploadedPhotos s;
     previews := previews s; uploading := uploading s; error := error s;
     reading := v; notified := notified s |}.

Definition onPhotosUploaded (photos : list File) (s : State) : State :=
  {| dragActive := dragActive s; uploadedPhotos := uploadedPhotos s;
     previews := previews s; uploading := uploading s; error := error s;
     reading := reading s; notified := notified s ++ [photos] |}.

(** [Array.prototype.join] *)
Fixpoint join (sep : jsstring) (l : list jsstring) : jsstring :=
  match l with
  | [] => []
  | [x] => x
  | x :: rest => x ++ sep ++ join sep rest
  end.

(** [acceptedFormats.includes(file.type)] *)
Definition includes (formats : list jsstring) (t : jsstring) : bool :=
  existsb (fun f => bool_decide (f = t)) formats.

Definition max_size : N := 10 * 1024 * 1024.

(** [(size / 1024 / 1024).toFixed(1)]: both divisions are exact, and
    [toFixed] takes the nearest multiple of 0.1, the larger one of two
    that are as near. *)
Definition megabytes_toFixed1 (size : N) : jsstring :=
  let tenths := (20 * size + 1024 * 1024) / (2 * 1024 * 1024) in
  number_toString (tenths / 10) ++ js "." ++ number_toString (tenths mod 10).

Section Handlers.

Variable props : Props.

Definition validateFile (file : File) : option jsstring :=
  if negb (includes (acceptedFormats props) (type file)) then
    Some (js "Неподдерживаемый формат: " ++ type file
          ++ js ". Поддерживаются: " ++ join (js ", ") (acceptedFormats props))
  else if max_size <? size file then
    Some (js "Файл слишком большой: " ++ megabytes_toFixed1 (size file)
          ++ js "MB. Максимум: 10MB")
  else None.

(** One turn of the [forEach] of [processFiles]: the photos accepted so
    far and the errors collected so far. *)
Definition processFile (uploaded : list File)
    (acc : list File * list jsstring) (file : File)
  : list File * list jsstring :=
  let (newPhotos, errors) := acc in
  match validateFile file with
  | Some validationError =>
      (newPhotos, errors ++ [name file ++ js ": " ++ validationError])
  | None =>
      if maxFiles props <=? N.of_nat (length uploaded + length newPhotos) then
        (newPhotos,
         errors ++ [js "Максимальное количество файлов: "
                    ++ number_toString (maxFiles props)])
      else (newPhotos ++ [file], errors)
  end.

Definition processFiles (files : list File) (s : State) : State :=
  let (newPhotos, errors) :=
    fold_left (processFile (uploadedPhotos s)) files ([], []) in
  let s1 := set_reading (reading s ++ newPhotos) s in
  match errors with
  | _ :: _ => setError (Some (join [10] errors)) s1
  | [] =>
      match newPhotos with
      | _ :: _ =>
          let updatedPhotos := uploadedPhotos s ++ newPhotos in
          setError None
            (onPhotosUploaded updatedPhotos (setUploadedPhotos updatedPhotos s1))
      | [] => s1
      end
  end.

(** [reader.onload] of a reader that was started: a result that is not
    empty becomes the last preview. *)
Definition reader_onload (result : option jsstring) (s : State) : State :=
  match result with
  | Some url => if truthy url then setPreviews (previews s ++ [url]) s else s
  | None => s
  end.

Inductive DragEventType : Type := dragenter | dragover | dragleave | drop.

Definition handleDrag (e : DragEventType) (s : State) : State :=
  match e with
  | dragenter | dragover => setDragActive true s
  | dragleave => setDragActive false s
  | drop => s
  end.

Definition handleDrop (files : list File) (s : State) : State :=
  let s1 := setDragActive false s in
  match files with
  | _ :: _ => processFiles files s1
  | [] => s1
  end.

Definition handleFileInput (files : list File) (s : State) : State :=
  match files with
  | _ :: _ => processFiles files s
  | [] => s
  end.

(** [array.filter((_, i) => keep(i))], the elements numbered from
    [i]. *)
Fixpoint filter_indexed {A} (keep : nat -> bool) (i : nat) (l : list A)
  : list A :=
  match l with
  | [] => []
  | x :: rest =>
      if keep i then x :: filter_indexed keep (S i) rest
      else filter_indexed keep (S i) rest
  end.

Definition removePhoto (index : nat) (s : State) : State :=
  let newPhotos :=
    filter_indexed (fun i => negb (i =? index)%nat) 0 (uploadedPhotos s) in
  let newPreviews :=
    filter_indexed (fun i => negb (i =? index)%nat) 0 (previews s) in
  onPhotosUploaded newPhotos
    (setPreviews newPreviews (setUploadedPhotos newPhotos s)).

(** What the user and the readers can do. *)
Inductive Action : Type :=
| Drag (e : DragEventType)
| Drop (files : list File)
| FileInput (files : list File)
| ReaderLoaded (result : option jsstring)
| RemovePhoto (index : nat).

Definition act (s : State) (a : Action) : State :=
  match a with
  | Drag e => handleDrag e s
  | Drop files => handleDrop files s
  | FileInput files => handleFileInput files s
  | ReaderLoaded result => reader_onload result s
  | RemovePhoto index => removePhoto index s
  end.

Definition acts (s : State) (l : list Action) : State := fold_left act l s.

(** A file that passes [validateFile]. *)
Definition acceptable (file : File) : bool :=
  includes (acceptedFormats props) (type file) && (size file <=? max_size).

(** The uploaded photos are within [maxFiles] and each of them passes
    [validateFile]. *)
Definition photos_ok (s : State) : Prop :=
  N.of_nat (length (uploadedPhotos s)) <= maxFiles props
  /\ Forall (fun f => acceptable f = true) (uploadedPhotos s).

End Handlers.

End PhotoUpload.

(** ** components/AvatarSettings.tsx *)

Module AvatarSettings.

Record AvatarSettings := {
  photos : list PhotoUpload.File;
  voiceSamples : list PhotoUpload.File;
  personality : jsstring;
  name : jsstring;
  description : jsstring }.

Inductive Tab : Type := Tab_photos | Tab_voice | Tab_personality.

(** The fields [handleInputChange] is called with. *)
Inductive Field : Type := Field_name | Field_description | Field_personality.

(** The state cells, the [PhotoUpload] the photos tab renders (none
    under the other tabs), the runs of [handleSave] that wait for
    their timer, each with the settings of the render it belongs to
    ([saving], oldest first), the alerts shown and the calls of
    [onSettingsSaved]. *)
Record State := {
  settings : AvatarSettings;
  activeTab : Tab;
  isSaving : bool;
  photoUpload : option PhotoUpload.State;
  saving : list AvatarSettings;
  alerts : list jsstring;
  saved : list AvatarSettings }.

Definition initial : State :=
  {| settings := {| photos := []; voiceSamples := []; personality := [];
                    name := []; description := [] |};
     activeTab := Tab_photos;
     isSaving := false;
     photoUpload := Some PhotoUpload.initial;
     saving := []; alerts := []; saved := [] |}.

Definition setSettings (v : AvatarSettings) (s : State) : State :=
  {| settings := v; activeTab := activeTab s; isSaving := isSaving s;
     photoUpload := photoUpload s; saving := saving s; alerts := alerts s;
     saved := saved s |}.

Definition setIsSaving (v : bool) (s : State) : State :=
  {| settings := settings s; activeTab := activeTab s; isSaving := v;
     photoUpload := photoUpload s; saving := saving s; alerts := alerts s;
     saved := saved s |}.

Definition set_photoUpload (v : option PhotoUpload.State) (s : State) : State :=
  {| settings := settings s; activeTab := activeTab s; isSaving := isSaving s;
     photoUpload := v; saving := saving s; alerts := alerts s;
     saved := saved s |}.

Definition set_saving (v : list AvatarSettings) (s : State) : State :=
  {| settings := settings s; activeTab := activeTab s; isSaving := isSaving s;
     photoUpload := photoUpload s; saving := v; alerts := alerts s;
     saved := saved s |}.

Definition alert (message : jsstring) (s : State) : State :=
  {| settings := settings s; activeTab := activeTab s; isSaving := isSaving s;
     photoUpload := photoUpload s; saving := saving s;
     alerts := alerts s ++ [message]; saved := saved s |}.

Definition onSettingsSaved (v : AvatarSettings) (s : State) : State :=
  {| settings := settings s; activeTab := activeTab s; isSaving := isSaving s;
     photoUpload := photoUpload s; saving := saving s; alerts := alerts s;
     saved := saved s ++ [v] |}.

(** [setActiveTab]: the [PhotoUpload] is rendered under the photos tab
    only, so that leaving the tab unmounts it and coming back mounts
    a new one. *)
Definition setActiveTab (tab : Tab) (s : State) : State :=
  {| settings := settings s; activeTab := tab; isSaving := isSaving s;
     photoUpload := match tab, activeTab s with
                    | Tab_photos, Tab_photos => photoUpload s
                    | Tab_photos, _ => Some PhotoUpload.initial
                    | _, _ => None
                    end;
     saving := saving s; alerts := alerts s; saved := saved s |}.

Definition handlePhotosUploaded (v : list PhotoUpload.File) (s : State)
  : State :=
  setSettings {| photos := v;
                 voiceSamples := voiceSamples (settings s);
                 personality := personality (settings s);
                 name := name (settings s);
                 description := description (settings s) |} s.

Definition handleVoiceSamplesUploaded (samples : list PhotoUpload.File)
    (s : State) : State :=
  setSettings {| photos := photos (settings s);
                 voiceSamples := samples;
                 personality := personality (settings s);
                 name := name (settings s);
                 description := description (settings s) |} s.

Definition handleInputChange (field : Field) (value : jsstring) (s : State)
  : State :=
  setSettings
    {| photos := photos (settings s);
       voiceSamples := voiceSamples (settings s);
       personality := match field with
                      | Field_personality => value
                      | _ => personality (settings s)
                      end;
       name := match field with
               | Field_name => value
               | _ => name (settings s)
               end;
       description := match field with
                      | Field_description => value
                      | _ => description (settings s)
                      end |} s.

(** [handleSave] up to its [await]. *)
Definition handleSave (s : State) : State :=
  if (length (photos (settings s)) =? 0)%nat then
    alert (js "Пожалуйста, загрузите хотя бы одно фото") s
  else set_saving (saving s ++ [settings s]) (setIsSaving true s).

(** [handleSave] from its [await] on: the timer of run [i] has fired.
    [throws] tells whether [onSettingsSaved] throws. *)
Definition handleSave_resumed (i : nat) (throws : bool) (s : State) : State :=
  match saving s !! i with
  | None => s
  | Some settings_seen =>
      let s0 := set_saving (delete i (saving s)) s in
      let s1 := onSettingsSaved settings_seen s0 in
      let s2 := if throws then alert (js "Ошибка сохранения настроек") s1
                else s1 in
      setIsSaving false s2
  end.

(** The props the photos tab gives its [PhotoUpload]. *)
Definition photoUpload_props : PhotoUpload.Props :=
  {| PhotoUpload.maxFiles := 5;
     PhotoUpload.acceptedFormats :=
       [js "image/jpeg"; js "image/png"; js "image/webp"] |}.

(** Something happens in the [PhotoUpload]: its calls of
    [onPhotosUploaded] reach [handlePhotosUploaded]. *)
Definition photoUpload_act (a : PhotoUpload.Action) (s : State) : State :=
  match photoUpload s with
  | None => s
  | Some c =>
      let c' := PhotoUpload.act photoUpload_props c a in
      let calls := drop (length (PhotoUpload.notified c))
                        (PhotoUpload.notified c') in
      fold_left (fun s' v => handlePhotosUploaded v s') calls
        (set_photoUpload (Some c') s)
  end.

(** What can happen: a click on a tab, on the back button (disabled
    while saving), something in the [PhotoUpload], a change of an
    input, a click on the save button (disabled while saving and
    without photos), the timer of a run of [handleSave]. *)
Inductive Action : Type :=
| ClickTab (tab : Tab)
| ClickBack
| Upload (a : PhotoUpload.Action)
| InputChange (field : Field) (value : jsstring)
| ClickSave
| SaveTimer (i : nat) (throws : bool).

Definition act (s : State) (a : Action) : State :=
  match a with
  | ClickTab tab => setActiveTab tab s
  | ClickBack => if isSaving s then s else setActiveTab Tab_photos s
  | Upload a => photoUpload_act a s
  | InputChange field value => handleInputChange field value s
  | ClickSave =>
      if isSaving s || (length (photos (settings s)) =? 0)%nat then s
      else handleSave s
  | SaveTimer i throws => handleSave_resumed i throws s
  end.

Definition acts (s : State) (l : list Action) : State := fold_left act l s.

(** The photos of saved settings: at least one, at most five, each of
    an accepted format and of at most 10 MB. *)
Definition photos_valid (v : AvatarSettings) : Prop :=
  (1 <= length (photos v) <= 5)%nat
  /\ Forall (fun f => PhotoUpload.acceptable photoUpload_props f = true)
       (photos v).

Definition leaves_photos_tab (a : Action) : bool :=
  match a with
  | ClickTab Tab_voice | ClickTab Tab_personality => true
  | _ => false
  end.

(** The photos of the settings and of the upload component are
    acceptable and at most five, and every run of [handleSave], waiting
    or done, has valid photos. *)
Definition settings_ok (s : State) : Prop :=
  (length (photos (settings s)) <= 5)%nat
  /\ Forall (fun f => PhotoUpload.acceptable photoUpload_props f = true)
       (photos (settings s))
  /\ (forall c, photoUpload s = Some c -> PhotoUpload.photos_ok photoUpload_props c)
  /\ Forall photos_valid (saving s)
  /\ Forall photos_valid (saved s).

(** While the photos tab is not left, the settings hold the photos of
    the upload component. *)
Definition in_step (s : State) : Prop :=
  exists c, photoUpload s = Some c
            /\ activeTab s = Tab_photos
            /\ photos (settings s) = PhotoUpload.uploadedPhotos c.

End AvatarSettings.

(** ** components/AnimatedAvatar.tsx *)

Module AnimatedAvatar.

Import AvatarService (Response, status, body, ok).

(** [s.split(sep)] for a separator of one code unit. *)
Fixpoint split (sep : N) (s : jsstring) : list jsstring :=
  match s with
  | [] => [[]]
  | c :: rest =>
      if c =? sep then [] :: split sep rest
      else match split sep rest with
           | segment :: segments => (c :: segment) :: segments
           | [] => [[c]]
           end
  end.

Fixpoint startsWith (pattern s : jsstring) : bool :=
  match pattern, s with
  | [], _ => true
  | p :: pattern', c :: s' => (p =? c) && startsWith pattern' s'
  | _ :: _, [] => false
  end.

(** [s.replace(pattern, replacement)] for a string pattern and a
    replacement without [$]: the first occurrence is replaced. *)
Fixpoint replace (pattern replacement s : jsstring) : jsstring :=
  match s with
  | [] => if startsWith pattern [] then replacement else []
  | c :: rest =>
      if startsWith pattern s then replacement ++ drop (length pattern) s
      else c :: replace pattern replacement rest
  end.

(** [videoPath.split("/").pop()?.replace(".mp4", "")] inside the
    template literal. *)
Definition video_id (videoPath : jsstring) : jsstring :=
  match last (split 47 videoPath) with
  | Some segment => replace (js ".mp4") [] segment
  | None => js "undefined"
  end.

Definition video_url (videoPath : jsstring) : jsstring :=
  js "http://127.0.0.1:8002/video/" ++ video_id videoPath.

(** Body of the reply of [POST /animate]; [video_path] is absent when
    the reply has no such string. *)
Record AnimateResult := {
  video_path : option jsstring }.

(** The HTTP requests the component issues; the other fields of the
    form of [POST /animate] are constants. *)
Inductive Request : Type :=
| Get (url : jsstring)
| PostAnimate (image audio : Blob)
| GetVideo (url : jsstring).

(** The world outside: what each request is answered; the polls of a
    video are numbered from 0. *)
Record Env := {
  get_api : jsstring -> Outcome (Response Blob);
  animate_api : Blob -> Blob -> Outcome (Response AnimateResult);
  video_api : jsstring -> nat -> Outcome (Response unit) }.

(** An async computation: it extends the log of issued requests and
    settles. *)
Definition Async (A : Type) : Type :=
  list Request -> list Request * Outcome A.

Definition ret {A} (a : A) : Async A := fun log => (log, Fulfilled a).

Definition throw {A} (e : Thrown) : Async A := fun log => (log, Rejected e).

Definition bind {A B} (m : Async A) (k : A -> Async B) : Async B :=
  fun log =>
    match m log with
    | (log', Fulfilled a) => k a log'
    | (log', Rejected e) => (log', Rejected e)
    | (log', Pending) => (log', Pending)
    end.

Definition fetch {A} (rq : Request) (answer : Outcome A) : Async A :=
  fun log => (log ++ [rq], answer).

Definition await {A} (p : Outcome A) : Async A := fun log => (log, p).

Declare Scope avatar_scope.
Delimit Scope avatar_scope with avatar.
Notation "x <- m ;; k" := (bind m (fun x => k))
  (at level 100, m at next level, right associativity) : avatar_scope.
Open Scope avatar_scope.

(** [checkVideo] of [waitForVideo], called for the poll numbered
    [attempt]; [calls] bounds the calls that are followed, and the
    promise has not settled when they are used up.  Without a path the
    template literal throws before the request, and [checkVideo] is
    called again. *)
Fixpoint checkVideo (env : Env) (videoPath : option jsstring)
    (attempt calls : nat) : Async unit :=
  match calls with
  | O => await Pending
  | S calls' =>
      match videoPath with
      | None => checkVideo env videoPath attempt calls'
      | Some path =>
          fun log =>
            match fetch (GetVideo (video_url path))
                        (video_api env (video_url path) attempt) log with
            | (log', Fulfilled response) =>
                if ok response then (log', Fulfilled tt)
                else checkVideo env videoPath (S attempt) calls' log'
            | (log', Rejected _) =>
                checkVideo env videoPath (S attempt) calls' log'
            | (log', Pending) => (log', Pending)
            end
      end
  end.

Definition waitForVideo (env : Env) (videoPath : option jsstring)
    (calls : nat) : Async unit :=
  checkVideo env videoPath 0 calls.

(** The body of the [try] of [createAnimation] from its first [await]
    to the end of [waitForVideo]. *)
Definition animate (env : Env) (imageUrl audioBlobUrl : jsstring)
    (calls : nat) : Async jsstring :=
  audioResponse <- fetch (Get audioBlobUrl) (get_api env audioBlobUrl) ;;
  audioBlob <- await (body audioResponse) ;;
  imageResponse <- fetch (Get imageUrl) (get_api env imageUrl) ;;
  image <- await (body imageResponse) ;;
  response <- fetch (PostAnimate image audioBlob)
                    (animate_api env image audioBlob) ;;
  if negb (ok response) then
    throw (ErrorObject (js "Ошибка создания анимации"))
  else
    result <- await (body response) ;;
    _ <- waitForVideo env (video_path result) calls ;;
    match video_path result with
    | Some videoPath => ret videoPath
    | None => await Pending   (* [waitForVideo] has not settled *)
    end.

Definition run {A} (m : Async A) : list Request * Outcome A := m [].

Record Props := {
  imageUrl : jsstring;
  audioUrl : option jsstring;
  isSpeaking : bool;
  onVideoReady : bool }.

(** The state cells, the calls of [onVideoReady] ([ready], oldest
    first) and the runs of [createAnimation] that have not settled,
    each with its audio ([runs], oldest first). *)
Record State := {
  videoUrl : jsstring;
  isAnimating : bool;
  animationProgress : N;
  error : jsstring;
  ready : list jsstring;
  runs : list jsstring }.

Definition initial : State :=
  {| videoUrl := []; isAnimating := false; animationProgress := 0;
     error := []; ready := []; runs := [] |}.

Definition setVideoUrl (v : jsstring) (s : State) : State :=
  {| videoUrl := v; isAnimating := isAnimating s;
     animationProgress := animationProgress s; error := error s;
     ready := ready s; runs := runs s |}.

Definition setIsAnimating (v : bool) (s : State) : State :=
  {| videoUrl := videoUrl s; isAnimating := v;
     animationProgress := animationProgress s; error := error s;
     ready := ready s; runs := runs s |}.

Definition setAnimationProgress (v : N) (s : State) : State :=
  {| videoUrl := videoUrl s; isAnimating := isAnimating s;
     animationProgress := v; error := error s;
     ready := ready s; runs := runs s |}.

Definition setError (v : jsstring) (s : State) : State :=
  {| videoUrl := videoUrl s; isAnimating := isAnimating s;
     animationProgress := animationProgress s; error := v;
     ready := ready s; runs := runs s |}.

Definition set_runs (v : list jsstring) (s : State) : State :=
  {| videoUrl := videoUrl s; isAnimating := isAnimating s;
     animationProgress := animationProgress s; error := error s;
     ready := ready s; runs := v |}.

(** [onVideoReady?.(videoPath)] *)
Definition call_onVideoReady (props : Props) (videoPath : jsstring)
    (s : State) : State :=
  if onVideoReady props then
    {| videoUrl := videoUrl s; isAnimating := isAnimating s;
       animationProgress := animationProgress s; error := error s;
       ready := ready s ++ [videoPath]; runs := runs s |}
  else s.

(** [createAnimation] up to its first [await]. *)
Definition createAnimation (audioBlobUrl : jsstring) (s : State) : State :=
  let s1 := setAnimationProgress 0 (setError [] (setIsAnimating true s)) in
  set_runs (runs s1 ++ [audioBlobUrl]) s1.

(** [createAnimation] once the body of its [try] has settled, for the
    run numbered [i]. *)
Definition createAnimation_settled (props : Props) (i : nat)
    (outcome : Outcome jsstring) (s : State) : State :=
  match runs s !! i, outcome with
  | None, _ | _, Pending => s
  | Some _, Fulfilled videoPath =>
      let s0 := set_runs (delete i (runs s)) s in
      setIsAnimating false
        (setAnimationProgress 100
           (call_onVideoReady props videoPath (setVideoUrl videoPath s0)))
  | Some _, Rejected err =>
      let s0 := set_runs (delete i (runs s)) s in
      setIsAnimating false
        (setError (match err with
                   | ErrorObject message => message
                   | OtherValue => js "Ошибка анимации"
                   end) s0)
  end.

(** The effect on [audioUrl] and [isSpeaking]. *)
Definition speaking_effect (props : Props) (s : State) : State :=
  match audioUrl props with
  | Some url => if truthy url && isSpeaking props then createAnimation url s
                else s
  | None => s
  end.

(** One run of [createAnimation] in a world, from the effect to the
    settlement. *)
Definition animation_run (env : Env) (props : Props) (audioBlobUrl : jsstring)
    (calls : nat) (s : State) : State :=
  let s1 := createAnimation audioBlobUrl s in
  createAnimation_settled props (length (runs s))
    (snd (run (animate env (imageUrl props) audioBlobUrl calls))) s1.

End AnimatedAvatar.
(** * Properties *)

(** ** Strings *)

Section Trim.

Lemma trimStart_blank (s : jsstring) : blank s = true -> trimStart s = [].
Proof.
  induction s as [|c r IH]; [reflexivity|].
  cbn [blank forallb trimStart]. intros [Hc Hr]%andb_prop.
  rewrite Hc. apply IH, Hr.
Qed.

Lemma trimStart_nil_blank (s : jsstring) : trimStart s = [] -> blank s = true.
Proof.
  induction s as [|c r IH]; [reflexivity|].
  cbn [blank forallb trimStart].
  destruct (isWhiteSpace c) eqn:Hc; [|discriminate].
  intros H. apply IH in H. exact H.
Qed.

Lemma blank_rev (s : jsstring) : blank (List.rev s) = blank s.
Proof.
  unfold blank. induction s as [|c r IH]; [reflexivity|].
  cbn [List.rev forallb]. rewrite forallb_app, IH. cbn [forallb].
  rewrite andb_true_r. apply andb_comm.
Qed.

(** What is left by [trimStart] is empty or starts with a character
    that is not white space. *)
Lemma trimStart_head (s : jsstring) :
  match trimStart s with
  | [] => True
  | c :: _ => isWhiteSpace c = false
  end.
Proof.
  induction s as [|c r IH]; [exact I|].
  cbn [trimStart]. destruct (isWhiteSpace c) eqn:Hc; [exact IH|exact Hc].
Qed.

(** The test [!s.trim()] of the sources holds exactly of the strings
    that are empty or white space only. *)
Lemma trim_falsy_iff_blank (s : jsstring) :
  truthy (trim s) = false <-> blank s = true.
Proof.
  split.
  - intros H. assert (Ht : trim s = []) by (destruct (trim s); [reflexivity|discriminate]).
    unfold trim, trimEnd in Ht.
    apply (f_equal (@List.rev N)) in Ht. rewrite rev_involutive in Ht.
    cbn [List.rev] in Ht. apply trimStart_nil_blank in Ht.
    rewrite blank_rev in Ht.
    pose proof (trimStart_head s) as Hh.
    destruct (trimStart s) as [|c t] eqn:E.
    + apply trimStart_nil_blank, E.
    + cbn [blank forallb] in Ht. rewrite Hh in Ht. discriminate.
  - intros H. unfold trim. rewrite (trimStart_blank s H). reflexivity.
Qed.

Lemma blank_not_truthy (s : jsstring) :
  blank s = true -> negb (truthy (trim s)) = true.
Proof. intros H. apply trim_falsy_iff_blank in H. rewrite H. reflexivity. Qed.

End Trim.

(** ** The pipeline of the service *)

Section Pipeline.
Import AvatarService.

Variable env : Env.
Variable audioBlob : Blob.

Lemma recognizeSpeech_recognized recognition log :
  AvatarService.recognized env audioBlob recognition ->
  recognizeSpeech env audioBlob log
  = (log ++ [PostRecognizeSpeech audioBlob], Fulfilled recognition).
Proof.
  intros (r & Hr & Hok & Hb).
  unfold recognizeSpeech, try_catch, bind, fetch, await.
  rewrite Hr, Hok. cbn [negb]. rewrite Hb. reflexivity.
Qed.

(** An empty recognition ends the run after the recognition request,
    with the error of the empty-recognition check. *)
Lemma processAudioInput_blank recognition :
  AvatarService.recognized env audioBlob recognition ->
  blank (sr_text recognition) = true ->
  run (processAudioInput env audioBlob)
  = ([PostRecognizeSpeech audioBlob],
     Rejected (ErrorObject (js "Не удалось распознать речь"))).
Proof.
  intros Hrec Hblank.
  unfold run, processAudioInput, try_catch, bind.
  rewrite (recognizeSpeech_recognized _ _ Hrec).
  rewrite (blank_not_truthy _ Hblank). reflexivity.
Qed.

End Pipeline.

(** C4.  When recognition returns a text that is empty or white space
    only, the run of the service ends, after the recognition request
    alone (generation is never requested), with the error "Не удалось
    распознать речь", and neither the AvatarSystem component nor the
    page of the voice recorder appends a message to its history. *)
Theorem recognition_empty_terminates
    (env : AvatarService.Env) (audioBlob : Blob)
    (recognition : AvatarService.SpeechRecognitionResponse)
    (now : N) (plays : bool)
    (s : AvatarSystem.System) (a : AvatarPage.App) (i : nat) :
  AvatarService.recognized env audioBlob recognition ->
  blank (AvatarService.sr_text recognition) = true ->
  VoiceRecorder.inflight a !! i = Some audioBlob ->
  AvatarService.run (AvatarService.processAudioInput env audioBlob)
  = ([AvatarService.PostRecognizeSpeech audioBlob],
     Rejected (ErrorObject (js "Не удалось распознать речь")))
  /\ AvatarSystem.messages (AvatarSystem.processAudioInput env now plays audioBlob s)
     = AvatarSystem.messages s
  /\ AvatarPage.messages
       (VoiceRecorder.parent
          (AvatarPage.step a
             {| AvatarPage.world := env; AvatarPage.now := now;
                AvatarPage.event := AvatarPage.Settled i plays |}))
     = AvatarPage.messages (VoiceRecorder.parent a).
Proof.
  intros Hrec Hblank Hi.
  pose proof (processAudioInput_blank env audioBlob recognition Hrec Hblank) as Hrun.
  split; [exact Hrun|]. split.
  - unfold AvatarSystem.processAudioInput. rewrite Hrun. reflexivity.
  - unfold AvatarPage.step.
    cbn [AvatarPage.event AvatarPage.world AvatarPage.now].
    rewrite Hi, Hrun. cbn [snd].
    unfold VoiceRecorder.handleSendAudio_settled. rewrite Hi. reflexivity.
Qed.

Lemma recognition_empty_terminates_witness :
  let env := Scenario.all_up [32; 10] Scenario.hi_there in
  blank [32; 10] = true
  /\ VoiceRecorder.inflight Scenario.sending !! 0%nat = Some Scenario.speech
  /\ AvatarService.run (AvatarService.processAudioInput env Scenario.speech)
     = ([AvatarService.PostRecognizeSpeech Scenario.speech],
        Rejected (ErrorObject (js "Не удалось распознать речь")))
  /\ AvatarPage.messages
       (VoiceRecorder.parent
          (AvatarPage.step Scenario.sending
             {| AvatarPage.world := env; AvatarPage.now := 7;
                AvatarPage.event := AvatarPage.Settled 0 true |}))
     = AvatarPage.messages (VoiceRecorder.parent Scenario.sending).
Proof.
  intros env.
  assert (Hrec : AvatarService.recognized env Scenario.speech
                   {| AvatarService.sr_text := [32; 10];
                      AvatarService.sr_confidence := 1 |}).
  { eexists. repeat split; reflexivity. }
  pose proof (recognition_empty_terminates env Scenario.speech _ 7 true
                AvatarSystem.mount Scenario.sending 0 Hrec eq_refl eq_refl)
    as (Hrun & _ & Hpage).
  split; [reflexivity|]. split; [vm_compute; reflexivity|].
  split; [exact Hrun | exact Hpage].
Defined.

(** ** Sending text *)

(** C10.  A text-send whose input is empty or white space only is a
    no-op, in the chat panel ([handleSendMessage]) and in the
    AvatarSystem component ([handleSendText]) alike: the whole state is
    left as it was, so no message is appended, no frame reaches the
    transport and no state cell changes. *)
Theorem blank_text_send_is_noop
    (now : N) (c : ChatInterface.State) (a : AvatarSystem.System) :
  blank (ChatInterface.inputText c) = true ->
  blank (AvatarSystem.inputText a) = true ->
  ChatInterface.handleSendMessage now c = c
  /\ AvatarSystem.handleSendText now a = a.
Proof.
  intros Hc Ha. split.
  - unfold ChatInterface.handleSendMessage.
    rewrite (blank_not_truthy _ Hc). reflexivity.
  - unfold AvatarSystem.handleSendText.
    rewrite (blank_not_truthy _ Ha). reflexivity.
Qed.

Lemma blank_text_send_is_noop_witness :
  let c := {| ChatInterface.isConnected := true;
              ChatInterface.isProcessing := false;
              ChatInterface.messages := [];
              ChatInterface.inputText := [32; 9; 10] |} in
  let a := AvatarSystem.setIsConnected true
             (AvatarSystem.setInputText [160; 32] AvatarSystem.mount) in
  blank [32; 9; 10] = true /\ blank [160; 32] = true
  /\ ChatInterface.handleSendMessage 7 c = c
  /\ AvatarSystem.handleSendText 7 a = a.
Proof.
  intros c a.
  split; [reflexivity|]. split; [reflexivity|].
  apply (blank_text_send_is_noop 7 c a); reflexivity.
Defined.

(** ** The connection hook *)

Section Hook.
Import UseWebSocket.

Lemma current_is_open_transport_state (h : Hook) :
  current_is_open h = true <-> transport_state h = Some OPEN.
Proof.
  unfold current_is_open, transport_state.
  destruct (current_socket h) as [[i ws]|]; [|split; discriminate].
  destruct (readyState ws); cbn; split; congruence.
Qed.

(** With the current transport open, [connect] changes nothing. *)
Lemma connect_open_is_noop (o : Options) (h : Hook) :
  transport_state h = Some OPEN -> connect o h = h.
Proof.
  intros H%current_is_open_transport_state. unfold connect. rewrite H.
  reflexivity.
Qed.

(** In any other state it constructs a transport (the url being
    well formed) and keeps every earlier one as it is. *)
Lemma connect_not_open_constructs (o : Options) (h : Hook) :
  url_valid o = true ->
  transport_state h <> Some OPEN ->
  sockets (connect o h)
  = sockets h ++ [{| readyState := CONNECTING; sent := [] |}]
  /\ wsRef (connect o h) = Some (length (sockets h))
  /\ connectionStatus (connect o h) = Connecting.
Proof.
  intros Hurl Hn. unfold connect.
  destruct (current_is_open h) eqn:E.
  - apply current_is_open_transport_state in E. contradiction.
  - rewrite Hurl. repeat split.
Qed.

End Hook.

Section Disconnect.
Import UseWebSocket.

Lemma disconnect_fields (h : Hook) :
  connectionStatus (disconnect h) = Disconnected
  /\ reconnectAttemptsRef (disconnect h) = 0%Z
  /\ reconnectAttempts (disconnect h) = 0%Z
  /\ wsRef (disconnect h) = None
  /\ reconnectTimeoutRef (disconnect h) = None.
Proof.
  destruct h as [st lm ra [i|] [t|] rr so ti]; unfold disconnect; cbn;
    try case_match; cbn; repeat split.
Qed.

Lemma disconnect_timers (h : Hook) :
  timers (disconnect h)
  = match reconnectTimeoutRef h with
    | Some t => <[t := None]> (timers h)
    | None => timers h
    end.
Proof.
  destruct h as [st lm ra [i|] [t|] rr so ti]; unfold disconnect; cbn;
    try case_match; reflexivity.
Qed.

Lemma disconnect_sockets_length (h : Hook) :
  length (sockets (disconnect h)) = length (sockets h).
Proof.
  destruct h as [st lm ra [i|] [t|] rr so ti]; unfold disconnect; cbn;
    try case_match; cbn; rewrite ?length_insert; reflexivity.
Qed.

End Disconnect.

Section Send.
Import UseWebSocket.








End Send.




(** C9.  [connect] called twice in a row from the initial state: the
    second call finds the first transport still connecting, constructs
    a second transport and moves the reference to it, leaving the
    first one open.  Two calls are not one. *)
Theorem connect_while_connecting_opens_second_transport :
  let once := UseWebSocket.connect UseWebSocket.default_options
                UseWebSocket.initial in
  let twice := UseWebSocket.connect UseWebSocket.default_options once in
  UseWebSocket.connectionStatus once = UseWebSocket.Connecting
  /\ UseWebSocket.transport_state once = Some UseWebSocket.CONNECTING
  /\ length (UseWebSocket.sockets once) = 1%nat
  /\ length (UseWebSocket.sockets twice) = 2%nat
  /\ UseWebSocket.wsRef twice = Some 1%nat
  /\ UseWebSocket.readyState <$> (UseWebSocket.sockets twice !! 0%nat)
     = Some UseWebSocket.CONNECTING
  /\ twice <> once.
Proof.
  cbv zeta. repeat split; try reflexivity.
  intros H. apply (f_equal (fun h => length (UseWebSocket.sockets h))) in H.
  vm_compute in H. discriminate.
Qed.

(** ** Reconnection *)

Section Reconnect.
Import UseWebSocket.

Variable o : Options.

Lemma connect_counter (h : Hook) :
  reconnectAttemptsRef (connect o h) = reconnectAttemptsRef h
  /\ timers (connect o h) = timers h.
Proof.
  unfold connect. destruct (current_is_open h); [split; reflexivity|].
  destruct (url_valid o); split; reflexivity.
Qed.

Lemma set_readyState_counter (i : nat) (r : ReadyState) (h : Hook) :
  reconnectAttemptsRef (set_readyState i r h) = reconnectAttemptsRef h
  /\ timers (set_readyState i r h) = timers h.
Proof.
  unfold set_readyState. destruct (sockets h !! i); split; reflexivity.
Qed.

(** One event other than an open or a disconnect: the counter stays
    within the maximum and grows by one exactly when a reconnect
    timer is set. *)
Lemma step_bounded (h : Hook) (e : Event) :
  no_reset e = true ->
  (0 <= reconnectAttemptsRef h <= maxReconnectAttempts o)%Z ->
  (0 <= reconnectAttemptsRef (step o h e) <= maxReconnectAttempts o)%Z
  /\ (Z.of_nat (scheduled (step o h e)) - Z.of_nat (scheduled h)
      = reconnectAttemptsRef (step o h e) - reconnectAttemptsRef h)%Z.
Proof.
  intros He Hb. unfold scheduled.
  destruct e as [| |m|i|i d|i|i|t]; try discriminate; cbn [step].
  - destruct (connect_counter h) as [-> ->]. lia.
  - unfold sendMessage. destruct (current_socket h) as [[i ws]|]; cbn [fst]; [|lia].
    destruct (ReadyState_eqb (readyState ws) OPEN); cbn [fst set_sockets
      reconnectAttemptsRef timers]; lia.
  - unfold onmessage. destruct (sockets h !! i); cbn; lia.
  - unfold onclose. destruct (sockets h !! i); [|lia].
    cbn zeta. cbn [setConnectionStatus reconnectAttemptsRef].
    destruct (set_readyState_counter i CLOSED h) as [Hc Ht]. rewrite Hc.
    destruct (reconnectAttemptsRef h <? maxReconnectAttempts o)%Z eqn:Hlt.
    + apply Z.ltb_lt in Hlt.
      cbn [setTimeout set_reconnectTimeoutRef set_timers setReconnectAttempts
             set_reconnectAttemptsRef setConnectionStatus
             reconnectAttemptsRef timers].
      rewrite Ht, length_app. cbn [length]. lia.
    + cbn [setConnectionStatus reconnectAttemptsRef timers].
      rewrite Hc, Ht. lia.
  - unfold onerror. destruct (sockets h !! i); [|lia].
    cbn [setConnectionStatus reconnectAttemptsRef timers].
    destruct (set_readyState_counter i CLOSED h) as [-> ->]. lia.
  - unfold timeout. destruct (timers h !! t) as [[d|]|]; try lia.
    destruct (connect_counter (set_timers (<[t:=None]> (timers h)) h)) as [-> ->].
    cbn [set_timers reconnectAttemptsRef timers]. rewrite length_insert. lia.
Qed.

(** However many transports close (or fail, or however often
    [connect] is called) without an open in between, the hook's
    counter never exceeds the maximum, and the hook has set as many
    reconnect timers as the counter has grown: at most the maximum. *)
Lemma hook_reconnects_bounded (es : list Event) (h : Hook) :
  forallb no_reset es = true ->
  (0 <= reconnectAttemptsRef h <= maxReconnectAttempts o)%Z ->
  (0 <= reconnectAttemptsRef (steps o h es) <= maxReconnectAttempts o)%Z
  /\ (Z.of_nat (scheduled (steps o h es)) - Z.of_nat (scheduled h)
      = reconnectAttemptsRef (steps o h es) - reconnectAttemptsRef h)%Z.
Proof.
  revert h. induction es as [|e es IH]; intros h Hes Hb.
  - cbn. lia.
  - cbn [forallb] in Hes. apply andb_prop in Hes as [He Hes].
    unfold steps. cbn [fold_left]. fold (steps o (step o h e) es).
    destruct (step_bounded h e He Hb) as [Hb1 Hs1].
    destruct (IH (step o h e) Hes Hb1) as [Hb2 Hs2].
    split; [exact Hb2 | lia].
Qed.

(** With the counter exhausted, a close sets the status to Error and
    the hook sets no timer. *)
Lemma onclose_exhausted (i : nat) (h : Hook) :
  is_Some (sockets h !! i) ->
  (maxReconnectAttempts o <= reconnectAttemptsRef h)%Z ->
  connectionStatus (onclose o i h) = Error
  /\ timers (onclose o i h) = timers h
  /\ reconnectAttemptsRef (onclose o i h) = reconnectAttemptsRef h.
Proof.
  intros [ws Hws] Hmax. unfold onclose. rewrite Hws. cbn zeta.
  cbn [setConnectionStatus reconnectAttemptsRef].
  destruct (set_readyState_counter i CLOSED h) as [Hc Ht]. rewrite Hc.
  destruct (reconnectAttemptsRef h <? maxReconnectAttempts o)%Z eqn:Hlt;
    [apply Z.ltb_lt in Hlt; lia|].
  cbn [setConnectionStatus connectionStatus timers reconnectAttemptsRef].
  auto.
Qed.

End Reconnect.

(** C2.  The hook mounted in the AvatarSystem component, the server
    being down: five attempts fail, each retried by the hook, and the
    fifth retry fails.  The hook's counter is exhausted, the status is
    Error and the hook has no timer pending; but the component's effect
    on the status has set a timer of its own, and when it fires
    [connect] constructs a seventh transport: a sixth automatic
    reconnect, for a maximum of five. *)
Theorem reconnects_continue_after_exhaustion :
  let s := Scenario.exhausted in
  UseWebSocket.connectionStatus (AvatarSystem.ws s) = UseWebSocket.Error
  /\ UseWebSocket.reconnectAttemptsRef (AvatarSystem.ws s)
     = UseWebSocket.maxReconnectAttempts AvatarSystem.options
  /\ length (UseWebSocket.sockets (AvatarSystem.ws s)) = 6%nat
  /\ UseWebSocket.pending_timers (AvatarSystem.ws s) = []
  /\ AvatarSystem.pending_timeouts s = [11%nat]
  /\ let s' := AvatarSystem.step s (AvatarSystem.Timeout 11) in
     UseWebSocket.connectionStatus (AvatarSystem.ws s') = UseWebSocket.Connecting
     /\ length (UseWebSocket.sockets (AvatarSystem.ws s')) = 7%nat
     /\ UseWebSocket.transport_state (AvatarSystem.ws s')
        = Some UseWebSocket.CONNECTING.
Proof. vm_compute. repeat split. Qed.

(** ** Stages of the pipeline *)

Section Stages.
Import AvatarService.

Variable env : Env.

(** A stage made of one request settles the way [stage_failure]
    tells, whatever the log so far. *)
Lemma recognizeSpeech_fails audioBlob e log :
  stage_failure (js "Ошибка распознавания речи: ")
    (recognize_api env audioBlob) = Some e ->
  recognizeSpeech env audioBlob log
  = (log ++ [PostRecognizeSpeech audioBlob], Rejected e).
Proof.
  unfold stage_failure, recognizeSpeech, try_catch, bind, fetch, await, throw.
  destruct (recognize_api env audioBlob) as [r|e'|]; [| congruence | discriminate].
  destruct (negb (ok r)); [congruence|].
  destruct (body r); congruence.
Qed.

Lemma getAIResponse_fails text e log :
  stage_failure (js "Ошибка получения ответа AI: ")
    (chat_api env text default_context) = Some e ->
  getAIResponse env text None log
  = (log ++ [PostChat text default_context], Rejected e).
Proof.
  unfold stage_failure, getAIResponse, try_catch, bind, fetch, await, throw.
  cbn [context_or_default].
  destruct (chat_api env text default_context) as [r|e'|];
    [| congruence | discriminate].
  destruct (negb (ok r)); [congruence|].
  destruct (body r); congruence.
Qed.

Lemma getAIResponse_replied text reply log :
  replied env text reply ->
  getAIResponse env text None log
  = (log ++ [PostChat text default_context], Fulfilled reply).
Proof.
  intros (r & Hr & Hok & Hb).
  unfold getAIResponse, try_catch, bind, fetch, await.
  cbn [context_or_default]. rewrite Hr, Hok. cbn [negb]. rewrite Hb.
  reflexivity.
Qed.

(** Synthesis adds its requests to the log and settles the same way
    from any log. *)
Lemma synthesizeSpeech_log text log :
  synthesizeSpeech env text log
  = (log ++ fst (run (synthesizeSpeech env text)),
     snd (run (synthesizeSpeech env text))).
Proof.
  unfold run, synthesizeSpeech, try_catch, bind, fetch, await, throw, ret.
  destruct (synthesize_api env text) as [r| |]; cbn [fst snd app];
    try reflexivity.
  destruct (negb (ok r)); cbn [fst snd]; try reflexivity.
  destruct (body r) as [result| |]; cbn [fst snd]; try reflexivity.
  destruct (audio_api env (audio_id result)) as [a| |]; cbn [fst snd app];
    rewrite <- ?app_assoc; cbn [app]; try reflexivity.
  destruct (negb (ok a)); cbn [fst snd]; try reflexivity.
  destruct (body a); reflexivity.
Qed.

Lemma synthesizeSpeech_synthesized text audio :
  synthesized env text audio ->
  exists log d,
    run (synthesizeSpeech env text)
    = (log, Fulfilled {| audio_url := createObjectURL env audio;
                         duration := d |}).
Proof.
  intros (r & result & a & Hr & Hok & Hb & Ha & Haok & Hab).
  unfold run, synthesizeSpeech, try_catch, bind, fetch, await, ret.
  rewrite Hr, Hok. cbn [negb]. rewrite Hb, Ha, Haok. cbn [negb].
  rewrite Hab. eauto.
Qed.

(** When every stage succeeds the run is fulfilled with the
    recognized text, the reply and the url of the synthesized
    audio. *)
Lemma processAudioInput_success audioBlob recognition reply audio :
  recognized env audioBlob recognition ->
  blank (sr_text recognition) = false ->
  replied env (sr_text recognition) reply ->
  synthesized env (ai_text reply) audio ->
  snd (run (processAudioInput env audioBlob))
  = Fulfilled {| recognizedText := sr_text recognition;
                 aiResponse := ai_text reply;
                 audioUrl := createObjectURL env audio |}.
Proof.
  intros Hrec Hblank Hrep Hsyn.
  destruct (synthesizeSpeech_synthesized _ _ Hsyn) as (log & d & Hrun).
  unfold run, processAudioInput, try_catch, bind.
  rewrite (recognizeSpeech_recognized _ _ _ _ Hrec).
  assert (Ht : negb (truthy (trim (sr_text recognition))) = false).
  { destruct (truthy (trim (sr_text recognition))) eqn:E; [reflexivity|].
    apply trim_falsy_iff_blank in E. congruence. }
  rewrite Ht, (getAIResponse_replied _ _ _ Hrep), synthesizeSpeech_log, Hrun.
  reflexivity.
Qed.

Lemma recognizeSpeech_hangs audioBlob log :
  never_answers (recognize_api env audioBlob) = true ->
  recognizeSpeech env audioBlob log
  = (log ++ [PostRecognizeSpeech audioBlob], Pending).
Proof.
  unfold never_answers, recognizeSpeech, try_catch, bind, fetch, await, throw.
  destruct (recognize_api env audioBlob) as [r|e'|];
    [| discriminate | reflexivity].
  intros H. apply andb_prop in H as [Hok Hb]. rewrite Hok. cbn [negb].
  destruct (body r); [discriminate|discriminate|reflexivity].
Qed.

Lemma getAIResponse_hangs text log :
  never_answers (chat_api env text default_context) = true ->
  getAIResponse env text None log
  = (log ++ [PostChat text default_context], Pending).
Proof.
  unfold never_answers, getAIResponse, try_catch, bind, fetch, await, throw.
  cbn [context_or_default].
  destruct (chat_api env text default_context) as [r|e'|];
    [| discriminate | reflexivity].
  intros H. apply andb_prop in H as [Hok Hb]. rewrite Hok. cbn [negb].
  destruct (body r); [discriminate|discriminate|reflexivity].
Qed.

(** Synthesis fails at its first request without asking for the audio
    file. *)
Lemma synthesizeSpeech_request_fails text e log :
  stage_failure (js "Ошибка синтеза речи: ") (synthesize_api env text)
  = Some e ->
  synthesizeSpeech env text log
  = (log ++ [PostSynthesize text (js "default") 1 (js "neutral")], Rejected e).
Proof.
  unfold stage_failure, synthesizeSpeech, try_catch, bind, fetch, await, throw.
  destruct (synthesize_api env text) as [r|e'|]; [| congruence | discriminate].
  destruct (negb (ok r)); [congruence|].
  destruct (body r); congruence.
Qed.

Lemma synthesizeSpeech_request_hangs text log :
  never_answers (synthesize_api env text) = true ->
  synthesizeSpeech env text log
  = (log ++ [PostSynthesize text (js "default") 1 (js "neutral")], Pending).
Proof.
  unfold never_answers, synthesizeSpeech, try_catch, bind, fetch, await, throw.
  destruct (synthesize_api env text) as [r|e'|];
    [| discriminate | reflexivity].
  intros H. apply andb_prop in H as [Hok Hb]. rewrite Hok. cbn [negb].
  destruct (body r); [discriminate|discriminate|reflexivity].
Qed.

(** Once the synthesis request has succeeded, synthesis fails the way
    the request of the audio file fails. *)
Lemma synthesizeSpeech_audio_fails text result e log :
  synthesis_answered env text result ->
  audio_failure (audio_api env (audio_id result)) = Some e ->
  synthesizeSpeech env text log
  = (log ++ [PostSynthesize text (js "default") 1 (js "neutral");
             GetAudio (audio_id result)],
     Rejected e).
Proof.
  intros (r & Hr & Hok & Hb).
  unfold audio_failure, synthesizeSpeech, try_catch, bind, fetch, await, throw.
  rewrite Hr, Hok. cbn [negb]. rewrite Hb, <- app_assoc. cbn [app].
  destruct (audio_api env (audio_id result)) as [a|e'|];
    [| congruence | discriminate].
  destruct (negb (ok a)); [congruence|].
  destruct (body a); congruence.
Qed.

Lemma synthesizeSpeech_audio_hangs text result log :
  synthesis_answered env text result ->
  never_answers (audio_api env (audio_id result)) = true ->
  synthesizeSpeech env text log
  = (log ++ [PostSynthesize text (js "default") 1 (js "neutral");
             GetAudio (audio_id result)],
     Pending).
Proof.
  intros (r & Hr & Hok & Hb).
  unfold never_answers, synthesizeSpeech, try_catch, bind, fetch, await, throw.
  rewrite Hr, Hok. cbn [negb]. rewrite Hb, <- app_assoc. cbn [app].
  destruct (audio_api env (audio_id result)) as [a|e'|];
    [| discriminate | reflexivity].
  intros H. apply andb_prop in H as [Hoka Hba]. rewrite Hoka. cbn [negb].
  destruct (body a); [discriminate|discriminate|reflexivity].
Qed.

End Stages.

(** C5.  A stage that fails ends the run at once with the error of that
    stage, passed on unchanged, and no request of a later stage is
    issued: the log of the run stops at the request that failed, and
    the audio file, the second request of synthesis, is asked for only
    after the synthesis request has succeeded.  The error carries no
    tag of the stage.  When the fetch is rejected or the body cannot
    be read it is the error they reject with.  When the response is
    not a success it is the message of the request followed by the
    status for recognition, generation and the synthesis request, and
    a fixed message without the status for the audio file.  There is
    no timeout: a request that is never answered, or whose body never
    arrives, leaves the run pending with no later request issued. *)
Theorem stage_failure_ends_run
    (env : AvatarService.Env) (audioBlob : Blob) (e : Thrown)
    (recognition : AvatarService.SpeechRecognitionResponse)
    (reply : AvatarService.AIResponse)
    (result : AvatarService.SynthesizeResult) :
  let run := AvatarService.run (AvatarService.processAudioInput env audioBlob) in
  let recognize := AvatarService.PostRecognizeSpeech audioBlob in
  let chat := AvatarService.PostChat (AvatarService.sr_text recognition)
                AvatarService.default_context in
  let synthesize := AvatarService.PostSynthesize (AvatarService.ai_text reply)
                      (js "default") 1 (js "neutral") in
  let audio := AvatarService.GetAudio (AvatarService.audio_id result) in
  (AvatarService.stage_failure (js "Ошибка распознавания речи: ")
     (AvatarService.recognize_api env audioBlob) = Some e ->
   run = ([recognize], Rejected e))
  /\ (AvatarService.never_answers (AvatarService.recognize_api env audioBlob)
      = true ->
      run = ([recognize], Pending))
  /\ (AvatarService.recognized env audioBlob recognition ->
      blank (AvatarService.sr_text recognition) = false ->
      (AvatarService.stage_failure (js "Ошибка получения ответа AI: ")
         (AvatarService.chat_api env (AvatarService.sr_text recognition)
            AvatarService.default_context) = Some e ->
       run = ([recognize; chat], Rejected e))
      /\ (AvatarService.never_answers
            (AvatarService.chat_api env (AvatarService.sr_text recognition)
               AvatarService.default_context) = true ->
          run = ([recognize; chat], Pending))
      /\ (AvatarService.replied env (AvatarService.sr_text recognition) reply ->
          (AvatarService.stage_failure (js "Ошибка синтеза речи: ")
             (AvatarService.synthesize_api env (AvatarService.ai_text reply))
           = Some e ->
           run = ([recognize; chat; synthesize], Rejected e))
          /\ (AvatarService.never_answers
                (AvatarService.synthesize_api env (AvatarService.ai_text reply))
              = true ->
              run = ([recognize; chat; synthesize], Pending))
          /\ (AvatarService.synthesis_answered env (AvatarService.ai_text reply)
                result ->
              (AvatarService.audio_failure
                 (AvatarService.audio_api env (AvatarService.audio_id result))
               = Some e ->
               run = ([recognize; chat; synthesize; audio], Rejected e))
              /\ (AvatarService.never_answers
                    (AvatarService.audio_api env
                       (AvatarService.audio_id result)) = true ->
                  run = ([recognize; chat; synthesize; audio], Pending))))).
Proof.
  intros run recognize chat synthesize audio.
  subst run recognize chat synthesize audio.
  assert (Htruthy : blank (AvatarService.sr_text recognition) = false ->
                    negb (truthy (trim (AvatarService.sr_text recognition))) = false).
  { intros Hb.
    destruct (truthy (trim (AvatarService.sr_text recognition))) eqn:E;
      [reflexivity|].
    apply trim_falsy_iff_blank in E. congruence. }
  split; [|split].
  - intros Hf.
    unfold AvatarService.run, AvatarService.processAudioInput,
      AvatarService.try_catch, AvatarService.bind.
    rewrite (recognizeSpeech_fails env _ _ _ Hf). reflexivity.
  - intros Hp.
    unfold AvatarService.run, AvatarService.processAudioInput,
      AvatarService.try_catch, AvatarService.bind.
    rewrite (recognizeSpeech_hangs env _ _ Hp). reflexivity.
  - intros Hrec Hb. split; [|split].
    + intros Hf.
      unfold AvatarService.run, AvatarService.processAudioInput,
        AvatarService.try_catch, AvatarService.bind.
      rewrite (recognizeSpeech_recognized _ _ _ _ Hrec), (Htruthy Hb).
      rewrite (getAIResponse_fails env _ _ _ Hf). reflexivity.
    + intros Hp.
      unfold AvatarService.run, AvatarService.processAudioInput,
        AvatarService.try_catch, AvatarService.bind.
      rewrite (recognizeSpeech_recognized _ _ _ _ Hrec), (Htruthy Hb).
      rewrite (getAIResponse_hangs env _ _ Hp). reflexivity.
    + intros Hrep. split; [|split].
      * intros Hf.
        unfold AvatarService.run, AvatarService.processAudioInput,
          AvatarService.try_catch, AvatarService.bind.
        rewrite (recognizeSpeech_recognized _ _ _ _ Hrec), (Htruthy Hb).
        rewrite (getAIResponse_replied env _ _ _ Hrep).
        rewrite (synthesizeSpeech_request_fails env _ _ _ Hf). reflexivity.
      * intros Hp.
        unfold AvatarService.run, AvatarService.processAudioInput,
          AvatarService.try_catch, AvatarService.bind.
        rewrite (recognizeSpeech_recognized _ _ _ _ Hrec), (Htruthy Hb).
        rewrite (getAIResponse_replied env _ _ _ Hrep).
        rewrite (synthesizeSpeech_request_hangs env _ _ Hp). reflexivity.
      * intros Hsyn. split.
        -- intros Hf.
           unfold AvatarService.run, AvatarService.processAudioInput,
             AvatarService.try_catch, AvatarService.bind.
           rewrite (recognizeSpeech_recognized _ _ _ _ Hrec), (Htruthy Hb).
           rewrite (getAIResponse_replied env _ _ _ Hrep).
           rewrite (synthesizeSpeech_audio_fails env _ _ _ _ Hsyn Hf).
           reflexivity.
        -- intros Hp.
           unfold AvatarService.run, AvatarService.processAudioInput,
             AvatarService.try_catch, AvatarService.bind.
           rewrite (recognizeSpeech_recognized _ _ _ _ Hrec), (Htruthy Hb).
           rewrite (getAIResponse_replied env _ _ _ Hrep).
           rewrite (synthesizeSpeech_audio_hangs env _ _ _ Hsyn Hp).
           reflexivity.
Qed.

Lemma stage_failure_ends_run_witness :
  let heard := {| AvatarService.sr_text := Scenario.hello;
                  AvatarService.sr_confidence := 1 |} in
  let said := {| AvatarService.ai_text := Scenario.hi_there;
                 AvatarService.ai_emotion := None |} in
  let made := {| AvatarService.audio_id := js "a1";
                 AvatarService.result_duration := None |} in
  let recognize := AvatarService.PostRecognizeSpeech Scenario.speech in
  let chat := AvatarService.PostChat Scenario.hello
                AvatarService.default_context in
  let synthesize := AvatarService.PostSynthesize Scenario.hi_there
                      (js "default") 1 (js "neutral") in
  AvatarService.run
    (AvatarService.processAudioInput Scenario.recognition_500 Scenario.speech)
  = ([recognize],
     Rejected (ErrorObject (js "Ошибка распознавания речи: 500")))
  /\ AvatarService.run
       (AvatarService.processAudioInput Scenario.generation_malformed
          Scenario.speech)
     = ([recognize; chat], Rejected Scenario.unexpected_token)
  /\ AvatarService.run
       (AvatarService.processAudioInput Scenario.synthesis_503 Scenario.speech)
     = ([recognize; chat; synthesize],
        Rejected (ErrorObject (js "Ошибка синтеза речи: 503")))
  /\ AvatarService.run
       (AvatarService.processAudioInput Scenario.audio_404 Scenario.speech)
     = ([recognize; chat; synthesize; AvatarService.GetAudio (js "a1")],
        Rejected (ErrorObject (js "Ошибка получения аудио файла")))
  /\ AvatarService.run
       (AvatarService.processAudioInput Scenario.recognition_hangs
          Scenario.speech)
     = ([recognize], Pending).
Proof.
  intros heard said made recognize chat synthesize.
  assert (Hrec : forall env,
             AvatarService.recognize_api env = AvatarService.recognize_api
                                                 (Scenario.all_up Scenario.hello
                                                    Scenario.hi_there) ->
             AvatarService.recognized env Scenario.speech heard).
  { intros env H. eexists. rewrite H. repeat split; reflexivity. }
  assert (Hrep : forall env,
             AvatarService.chat_api env = AvatarService.chat_api
                                            (Scenario.all_up Scenario.hello
                                               Scenario.hi_there) ->
             AvatarService.replied env Scenario.hello said).
  { intros env H. eexists. rewrite H. repeat split; reflexivity. }
  assert (Hsyn : AvatarService.synthesis_answered Scenario.audio_404
                   Scenario.hi_there made).
  { eexists. repeat split; reflexivity. }
  assert (H500 : AvatarService.stage_failure (js "Ошибка распознавания речи: ")
                   (AvatarService.recognize_api Scenario.recognition_500
                      Scenario.speech)
                 = Some (ErrorObject (js "Ошибка распознавания речи: 500")))
    by (vm_compute; reflexivity).
  assert (Hbad : AvatarService.stage_failure (js "Ошибка получения ответа AI: ")
                   (AvatarService.chat_api Scenario.generation_malformed
                      Scenario.hello AvatarService.default_context)
                 = Some Scenario.unexpected_token)
    by (vm_compute; reflexivity).
  assert (H503 : AvatarService.stage_failure (js "Ошибка синтеза речи: ")
                   (AvatarService.synthesize_api Scenario.synthesis_503
                      Scenario.hi_there)
                 = Some (ErrorObject (js "Ошибка синтеза речи: 503")))
    by (vm_compute; reflexivity).
  assert (H404 : AvatarService.audio_failure
                   (AvatarService.audio_api Scenario.audio_404 (js "a1"))
                 = Some (ErrorObject (js "Ошибка получения аудио файла")))
    by (vm_compute; reflexivity).
  destruct (stage_failure_ends_run Scenario.recognition_500 Scenario.speech
              (ErrorObject (js "Ошибка распознавания речи: 500"))
              heard said made) as (R1 & _).
  destruct (stage_failure_ends_run Scenario.generation_malformed Scenario.speech
              Scenario.unexpected_token heard said made) as (_ & _ & G1).
  destruct (G1 (Hrec _ eq_refl) eq_refl) as (G2 & _).
  destruct (stage_failure_ends_run Scenario.synthesis_503 Scenario.speech
              (ErrorObject (js "Ошибка синтеза речи: 503"))
              heard said made) as (_ & _ & S1).
  destruct (S1 (Hrec _ eq_refl) eq_refl) as (_ & _ & S2).
  destruct (S2 (Hrep _ eq_refl)) as (S3 & _).
  destruct (stage_failure_ends_run Scenario.audio_404 Scenario.speech
              (ErrorObject (js "Ошибка получения аудио файла"))
              heard said made) as (_ & _ & A1).
  destruct (A1 (Hrec _ eq_refl) eq_refl) as (_ & _ & A2).
  destruct (A2 (Hrep _ eq_refl)) as (_ & _ & A3).
  destruct (A3 Hsyn) as (A4 & _).
  destruct (stage_failure_ends_run Scenario.recognition_hangs Scenario.speech
              OtherValue heard said made) as (_ & P1 & _).
  pose proof (R1 H500) as E1. pose proof (G2 Hbad) as E2.
  pose proof (S3 H503) as E3. pose proof (A4 H404) as E4.
  pose proof (P1 eq_refl) as E5.
  vm_compute in E1, E2, E3, E4, E5. vm_compute.
  split; [exact E1|]. split; [exact E2|]. split; [exact E3|].
  split; [exact E4|exact E5].
Defined.

(** The claim of C5 as it stands asks that the error of a failed run
    tell the stage that failed, and that a stage that times out end the
    run.  A malformed payload at recognition and a malformed payload at
    generation end their runs with the very same error, so that no
    reading of the error tells the stage; and a recognition service
    that never answers leaves the run pending, without an error. *)
Lemma errors_do_not_identify_stage :
  AvatarService.run
    (AvatarService.processAudioInput Scenario.recognition_malformed
       Scenario.speech)
  = ([AvatarService.PostRecognizeSpeech Scenario.speech],
     Rejected Scenario.unexpected_token)
  /\ AvatarService.run
       (AvatarService.processAudioInput Scenario.generation_malformed
          Scenario.speech)
     = ([AvatarService.PostRecognizeSpeech Scenario.speech;
         AvatarService.PostChat Scenario.hello AvatarService.default_context],
        Rejected Scenario.unexpected_token)
  /\ (~ exists tag : Thrown -> option AvatarService.Stage,
        forall env audioBlob e,
          snd (AvatarService.run (AvatarService.processAudioInput env audioBlob))
          = Rejected e ->
          tag e
          = AvatarService.failed_stage
              (AvatarService.run
                 (AvatarService.processAudioInput env audioBlob)))
  /\ snd (AvatarService.run
            (AvatarService.processAudioInput Scenario.recognition_hangs
               Scenario.speech))
     = Pending.
Proof.
  assert (H1 : AvatarService.run
                 (AvatarService.processAudioInput Scenario.recognition_malformed
                    Scenario.speech)
               = ([AvatarService.PostRecognizeSpeech Scenario.speech],
                  Rejected Scenario.unexpected_token))
    by (vm_compute; reflexivity).
  assert (H2 : AvatarService.run
                 (AvatarService.processAudioInput Scenario.generation_malformed
                    Scenario.speech)
               = ([AvatarService.PostRecognizeSpeech Scenario.speech;
                   AvatarService.PostChat Scenario.hello
                     AvatarService.default_context],
                  Rejected Scenario.unexpected_token))
    by (vm_compute; reflexivity).
  split; [exact H1|]. split; [exact H2|]. split; [|vm_compute; reflexivity].
  intros [tag H].
  pose proof (H Scenario.recognition_malformed Scenario.speech
                Scenario.unexpected_token) as T1.
  pose proof (H Scenario.generation_malformed Scenario.speech
                Scenario.unexpected_token) as T2.
  rewrite H1 in T1. rewrite H2 in T2.
  specialize (T1 eq_refl). specialize (T2 eq_refl).
  rewrite T1 in T2. vm_compute in T2. discriminate.
Qed.

(** ** Health probes *)

(** C8.  [checkServices] issues one probe per endpoint, the three fixed
    ones, none with a timeout.  Once every probe has settled it is
    fulfilled (it never rejects) with one flag per service, each
    computed from that service's probe alone: up when the probe is
    fulfilled with a success status, down when it is rejected or the
    status is not a success.  While a probe has not settled the check
    itself stays pending. *)
Theorem checkServices_waits_for_every_probe (env : AvatarService.Env) :
  let probe := AvatarService.health_api env in
  fst (AvatarService.run (AvatarService.checkServices env))
  = [ AvatarService.GetHealth AvatarService.backend_health;
      AvatarService.GetHealth AvatarService.tts_health;
      AvatarService.GetHealth AvatarService.sadtalker_health ]
  /\ snd (AvatarService.run (AvatarService.checkServices env))
     = if AvatarService.settles (probe AvatarService.backend_health)
          && AvatarService.settles (probe AvatarService.tts_health)
          && AvatarService.settles (probe AvatarService.sadtalker_health)
       then Fulfilled
              {| AvatarService.backend :=
                   AvatarService.up (probe AvatarService.backend_health);
                 AvatarService.tts :=
                   AvatarService.up (probe AvatarService.tts_health);
                 AvatarService.sadtalker :=
                   AvatarService.up (probe AvatarService.sadtalker_health) |}
       else Pending.
Proof.
  cbv zeta.
  unfold AvatarService.run, AvatarService.checkServices, AvatarService.bind,
    AvatarService.await, AvatarService.ret, AvatarService.health_urls.
  cbn [List.map AvatarService.allSettled app].
  destruct (AvatarService.health_api env AvatarService.backend_health);
    destruct (AvatarService.health_api env AvatarService.tts_health);
    destruct (AvatarService.health_api env AvatarService.sadtalker_health);
    split; reflexivity.
Qed.

(** The claim of C8 as it stands has the combined status returned with
    a hanging probe counted as a failure.  With the synthesis service
    never answering its probe, and the other two up, the check never
    returns. *)
Lemma checkServices_hangs_with_one_probe :
  AvatarService.up
    (AvatarService.health_api Scenario.tts_hangs AvatarService.backend_health)
  = true
  /\ AvatarService.up
       (AvatarService.health_api Scenario.tts_hangs AvatarService.sadtalker_health)
     = true
  /\ AvatarService.health_api Scenario.tts_hangs AvatarService.tts_health = Pending
  /\ snd (AvatarService.run (AvatarService.checkServices Scenario.tts_hangs))
     = Pending
  /\ ~ exists status,
         snd (AvatarService.run (AvatarService.checkServices Scenario.tts_hangs))
         = Fulfilled status.
Proof.
  assert (H : snd (AvatarService.run
                     (AvatarService.checkServices Scenario.tts_hangs)) = Pending)
    by (vm_compute; reflexivity).
  repeat split; try (vm_compute; reflexivity).
  intros [status Hs]. rewrite H in Hs. discriminate.
Qed.

(** ** The voice recorder and its page *)

Section FirstRequest.

(** A run always starts with the request to the recognition
    service. *)
Lemma processAudioInput_starts_with_recognition
    (env : AvatarService.Env) (audioBlob : Blob) :
  exists rest,
    fst (AvatarService.run (AvatarService.processAudioInput env audioBlob))
    = AvatarService.PostRecognizeSpeech audioBlob :: rest.
Proof.
  unfold AvatarService.run, AvatarService.processAudioInput,
    AvatarService.try_catch, AvatarService.bind.
  unfold AvatarService.recognizeSpeech at 1.
  unfold AvatarService.try_catch, AvatarService.bind, AvatarService.fetch,
    AvatarService.await, AvatarService.throw.
  cbn [app].
  destruct (AvatarService.recognize_api env audioBlob) as [r| |];
    [| eexists; reflexivity | eexists; reflexivity].
  destruct (negb (AvatarService.ok r)); [eexists; reflexivity|].
  destruct (AvatarService.body r) as [rec| |];
    [| eexists; reflexivity | eexists; reflexivity].
  destruct (negb (truthy (trim (AvatarService.sr_text rec))));
    [eexists; reflexivity|].
  unfold AvatarService.getAIResponse, AvatarService.try_catch,
    AvatarService.bind, AvatarService.fetch, AvatarService.await,
    AvatarService.throw.
  cbn [app].
  match goal with
  | |- context [AvatarService.chat_api ?e ?t ?c] =>
      destruct (AvatarService.chat_api e t c) as [c0| |]
  end; [| eexists; reflexivity | eexists; reflexivity].
  destruct (negb (AvatarService.ok c0)); [eexists; reflexivity|].
  destruct (AvatarService.body c0) as [reply| |];
    [| eexists; reflexivity | eexists; reflexivity].
  rewrite synthesizeSpeech_log.
  destruct (snd (AvatarService.run
                   (AvatarService.synthesizeSpeech env
                      (AvatarService.ai_text reply))));
    eexists; reflexivity.
Qed.

End FirstRequest.

(** C6.  The pipeline does not consult the connection.
    [handleSendAudio] reads the recorded blob, the flag [isProcessing]
    it is given and [onProcessingChange], and nothing else of its
    props: with a recorded blob and the flag lowered it starts a run
    whatever [isConnected] is, and with the flag raised it does
    nothing, whether or not a run is in flight.  Every run begins with
    the request to the recognition service.  The connection is checked
    where a recording starts: [handleStartRecording] with
    [isConnected] false is a no-op, whether or not the microphone would
    be granted. *)
Theorem pipeline_ignores_connection
    {P : Type} (pr pr' : VoiceRecorder.Props P) (s : VoiceRecorder.State P)
    (env : AvatarService.Env) (audioBlob : Blob) (seen : option Blob)
    (microphone : bool) :
  (VoiceRecorder.isProcessing pr = VoiceRecorder.isProcessing pr' ->
   VoiceRecorder.onProcessingChange pr = VoiceRecorder.onProcessingChange pr' ->
   VoiceRecorder.handleSendAudio pr seen s
   = VoiceRecorder.handleSendAudio pr' seen s)
  /\ (VoiceRecorder.isProcessing pr = false ->
      VoiceRecorder.inflight (VoiceRecorder.handleSendAudio pr (Some audioBlob) s)
      = VoiceRecorder.inflight s ++ [audioBlob])
  /\ (VoiceRecorder.isProcessing pr = true ->
      VoiceRecorder.handleSendAudio pr seen s = s)
  /\ (exists rest,
        fst (AvatarService.run (AvatarService.processAudioInput env audioBlob))
        = AvatarService.PostRecognizeSpeech audioBlob :: rest)
  /\ (VoiceRecorder.isConnected pr = false ->
      VoiceRecorder.handleStartRecording pr microphone s = s).
Proof.
  split; [|split; [|split; [|split]]].
  - intros Hp Hc. unfold VoiceRecorder.handleSendAudio. rewrite Hp, Hc.
    reflexivity.
  - intros Hp. unfold VoiceRecorder.handleSendAudio. rewrite Hp. reflexivity.
  - intros Hp. unfold VoiceRecorder.handleSendAudio. rewrite Hp.
    destruct seen; reflexivity.
  - apply processAudioInput_starts_with_recognition.
  - intros Hc. unfold VoiceRecorder.handleStartRecording. rewrite Hc.
    reflexivity.
Qed.

Lemma pipeline_ignores_connection_witness :
  let s := Scenario.recorded_offline in
  let env := Scenario.all_up Scenario.hello Scenario.hi_there in
  let pr := AvatarPage.voiceRecorderProps env 7 (VoiceRecorder.parent s) in
  let online := AvatarPage.voiceRecorderProps env 7
                  (AvatarPage.handleConnect (VoiceRecorder.parent s)) in
  VoiceRecorder.isProcessing pr = false
  /\ VoiceRecorder.isConnected pr = false
  /\ VoiceRecorder.isConnected online = true
  /\ VoiceRecorder.handleSendAudio pr (Some Scenario.speech) s
     = VoiceRecorder.handleSendAudio online (Some Scenario.speech) s
  /\ VoiceRecorder.inflight
       (VoiceRecorder.handleSendAudio pr (Some Scenario.speech) s)
     = VoiceRecorder.inflight s ++ [Scenario.speech]
  /\ VoiceRecorder.handleStartRecording pr true s = s.
Proof.
  intros s env pr online.
  destruct (pipeline_ignores_connection pr online s env Scenario.speech
              (Some Scenario.speech) true)
    as (Hsame & Hsend & _ & _ & Hstart).
  split; [reflexivity|]. split; [reflexivity|]. split; [reflexivity|].
  split; [exact (Hsame eq_refl eq_refl)|].
  split; [exact (Hsend eq_refl) | exact (Hstart eq_refl)].
Defined.

(** The claim of C6 as it stands has an invocation made while not
    connected fail at once without contacting a service.  With the
    page disconnected after a recording, the send button starts a run,
    and that run issues the recognition request and the ones after
    it. *)
Lemma pipeline_runs_while_disconnected :
  let s := Scenario.recorded_offline in
  let s' := AvatarPage.step s (Scenario.at_ AvatarPage.ClickSend) in
  AvatarPage.isConnected (VoiceRecorder.parent s) = false
  /\ VoiceRecorder.inflight s = []
  /\ VoiceRecorder.inflight s' = [Scenario.speech]
  /\ VoiceRecorder.error s' = []
  /\ length (fst (AvatarService.run
                    (AvatarService.processAudioInput
                       (Scenario.all_up Scenario.hello Scenario.hi_there)
                       Scenario.speech))) = 4%nat.
Proof. vm_compute. repeat split. Qed.

(** ** History of the conversation *)

(** In the AvatarSystem component a fulfilled run appends the user's
    message, carrying the recognized text, and then the assistant's,
    carrying the reply and the audio. *)
Lemma system_appends_user_then_assistant
    (now : N) (plays : bool) (result : AvatarService.ProcessResult)
    (s : AvatarSystem.System) :
  AvatarSystem.messages
    (AvatarSystem.processAudioInput_settled now plays (Fulfilled result) s)
  = AvatarSystem.messages s
    ++ [ {| AvatarSystem.id := number_toString now;
            AvatarSystem.type := AvatarSystem.user;
            AvatarSystem.text := AvatarService.recognizedText result;
            AvatarSystem.audio := None;
            AvatarSystem.timestamp := now |};
         {| AvatarSystem.id := number_toString (now + 1);
            AvatarSystem.type := AvatarSystem.assistant;
            AvatarSystem.text := AvatarService.aiResponse result;
            AvatarSystem.audio := Some (AvatarService.audioUrl result);
            AvatarSystem.timestamp := now |} ].
Proof.
  unfold AvatarSystem.processAudioInput_settled, AvatarSystem.playAudioResponse,
    AvatarSystem.append_message.
  destruct plays; cbn; rewrite <- app_assoc; reflexivity.
Qed.

(** On the page of the voice recorder a fulfilled run appends two
    messages as well, but the user's message carries the reply: the
    recorder hands on the reply and the audio only, and the page takes
    the reply for the recognized text. *)
Lemma page_appends_reply_twice
    (env : AvatarService.Env) (now : N) (plays : bool) (i : nat)
    (audioBlob : Blob) (result : AvatarService.ProcessResult)
    (a : AvatarPage.App) :
  VoiceRecorder.inflight a !! i = Some audioBlob ->
  snd (AvatarService.run (AvatarService.processAudioInput env audioBlob))
  = Fulfilled result ->
  truthy (AvatarService.aiResponse result) = true ->
  AvatarPage.messages
    (VoiceRecorder.parent
       (AvatarPage.step a
          {| AvatarPage.world := env; AvatarPage.now := now;
             AvatarPage.event := AvatarPage.Settled i plays |}))
  = AvatarPage.messages (VoiceRecorder.parent a)
    ++ [ {| AvatarPage.id := number_toString now ++ js "-user";
            AvatarPage.text := AvatarService.aiResponse result;
            AvatarPage.sender := AvatarPage.user;
            AvatarPage.timestamp := now |};
         {| AvatarPage.id := number_toString now ++ js "-avatar";
            AvatarPage.text := AvatarService.aiResponse result;
            AvatarPage.sender := AvatarPage.avatar;
            AvatarPage.timestamp := now |} ].
Proof.
  intros Hi Hrun Ht.
  unfold AvatarPage.step.
  cbn [AvatarPage.event AvatarPage.world AvatarPage.now].
  rewrite Hi, Hrun.
  unfold VoiceRecorder.handleSendAudio_settled. rewrite Hi.
  unfold AvatarPage.voiceRecorderProps.
  cbn [VoiceRecorder.onResponseReceived VoiceRecorder.onProcessingChange].
  unfold AvatarPage.handleAvatarResponse.
  cbn [AvatarPage.r_recognizedText AvatarPage.r_text VoiceRecorder.text].
  rewrite Ht. destruct plays; reflexivity.
Qed.

(** C3.  A run in which every stage succeeds, started from the voice
    recorder of the page: recognition hears "привет", the model replies
    "Здравствуйте".  The run is fulfilled with both texts and the url of
    the audio, and two messages are appended, the user's first; but the
    user's message carries the reply, not the recognized text. *)
Theorem page_user_message_carries_reply :
  let env := Scenario.all_up Scenario.hello Scenario.hi_there in
  let s := AvatarPage.step Scenario.sending
             (Scenario.at_ (AvatarPage.Settled 0 true)) in
  VoiceRecorder.inflight Scenario.sending = [Scenario.speech]
  /\ AvatarService.run (AvatarService.processAudioInput env Scenario.speech)
     = ([ AvatarService.PostRecognizeSpeech Scenario.speech;
          AvatarService.PostChat Scenario.hello AvatarService.default_context;
          AvatarService.PostSynthesize Scenario.hi_there (js "default") 1
            (js "neutral");
          AvatarService.GetAudio (js "a1") ],
        Fulfilled {| AvatarService.recognizedText := Scenario.hello;
                     AvatarService.aiResponse := Scenario.hi_there;
                     AvatarService.audioUrl := js "blob:a1" |})
  /\ List.map (fun m => (AvatarPage.sender m, AvatarPage.text m))
       (AvatarPage.messages (VoiceRecorder.parent s))
     = List.map (fun m => (AvatarPage.sender m, AvatarPage.text m))
         (AvatarPage.messages (VoiceRecorder.parent Scenario.sending))
       ++ [ (AvatarPage.user, Scenario.hi_there);
            (AvatarPage.avatar, Scenario.hi_there) ]
  /\ Scenario.hi_there <> Scenario.hello.
Proof.
  cbv zeta. split; [reflexivity|]. split; [vm_compute; reflexivity|].
  split; [vm_compute; reflexivity|]. vm_compute. discriminate.
Qed.

(** ** One run at a time *)

Section SingleFlight.
Import AvatarPage.

Lemma handleSendAudio_one_run pr seen (s : App) :
  VoiceRecorder.isProcessing pr = isProcessing (VoiceRecorder.parent s) ->
  VoiceRecorder.onProcessingChange pr = setIsProcessing ->
  one_run s -> one_run (VoiceRecorder.handleSendAudio pr seen s).
Proof.
  intros Hp Hc Hs. unfold VoiceRecorder.handleSendAudio.
  destruct seen as [blob|]; [|exact Hs].
  destruct (VoiceRecorder.isProcessing pr) eqn:E; [exact Hs|].
  destruct Hs as [Hs|[_ Hs]]; [|congruence].
  right. cbn. rewrite Hs, Hc. split; [eexists|]; reflexivity.
Qed.

Lemma step_one_run (s : App) (o : Occurrence) :
  orderly s o = true -> one_run s -> one_run (step s o).
Proof.
  intros Ho Hs. unfold step, orderly in *.
  destruct (event o) as [ | |mic| |blob| | |i plays| | |seen_p seen_b].
  - exact Hs.
  - exact Hs.
  - unfold VoiceRecorder.handleStartRecording.
    destruct (_ || _); [exact Hs|]. destruct mic; exact Hs.
  - unfold VoiceRecorder.handleStopRecording. cbn zeta.
    destruct (VoiceRecorder.mediaRecorderRef _) as [[|]|]; exact Hs.
  - destruct Hs as [Hs|[Hs _]]; [left; exact Hs|].
    right. split; [exact Hs|reflexivity].
  - apply handleSendAudio_one_run; [reflexivity|reflexivity|exact Hs].
  - unfold VoiceRecorder.cancel. destruct (VoiceRecorder.isProcessing _);
      exact Hs.
  - destruct (VoiceRecorder.inflight s !! i) as [blob|] eqn:Hi; [|exact Hs].
    assert (Hempty : VoiceRecorder.inflight s = [blob] /\ i = 0%nat).
    { destruct Hs as [Hs|[[b Hs] _]]; rewrite Hs in Hi.
      - destruct i; discriminate.
      - destruct i as [|i]; [|destruct i; discriminate].
        cbn in Hi. injection Hi as ->. auto. }
    destruct Hempty as [Hfl ->].
    unfold VoiceRecorder.handleSendAudio_settled. rewrite Hi.
    destruct (snd _) as [result|e|]; [| |exact Hs].
    + left. destruct plays; cbn; rewrite Hfl; reflexivity.
    + left. cbn. rewrite Hfl. reflexivity.
  - exact Hs.
  - destruct (VoiceRecorder.inflight s) eqn:E; [|discriminate].
    left. exact E.
  - unfold VoiceRecorder.handleStopRecording_deferred.
    destruct seen_b as [b|]; [|exact Hs].
    apply handleSendAudio_one_run; [|reflexivity|exact Hs].
    cbn. apply eqb_prop, Ho.
Qed.

Lemma steps_one_run (os : list Occurrence) (s : App) :
  all_orderly s os = true -> one_run s -> one_run (steps s os).
Proof.
  revert s. induction os as [|o os IH]; intros s Ho Hs; [exact Hs|].
  cbn [all_orderly] in Ho. apply andb_prop in Ho as [Ho Hos].
  unfold steps. cbn [fold_left]. apply IH; [exact Hos|].
  apply step_one_run; assumption.
Qed.

End SingleFlight.

(** C1.  On the page of the voice recorder, as long as nothing but the
    run in flight clears the flag [isProcessing] (the page's
    [handleVideoReady] does not fire during a run and the deferred
    callback of the stop button sees the flag as it is), at most one
    run of the pipeline is in flight at any instant.  Pressing send
    while a run is in flight is a no-op: the run in flight is not
    cancelled and goes on to its own result or error, and no run is
    started. *)
Theorem send_while_processing_is_rejected
    (start : N) (os : list AvatarPage.Occurrence) (o : AvatarPage.Occurrence) :
  AvatarPage.all_orderly (AvatarPage.mount start) os = true ->
  AvatarPage.event o = AvatarPage.ClickSend ->
  let s := AvatarPage.steps (AvatarPage.mount start) os in
  (length (VoiceRecorder.inflight s) <= 1)%nat
  /\ (VoiceRecorder.inflight s <> [] -> AvatarPage.step s o = s).
Proof.
  intros Hos Ho s.
  assert (Hs : AvatarPage.one_run s).
  { apply steps_one_run; [exact Hos|]. left. reflexivity. }
  split.
  - destruct Hs as [->|[[b ->] _]]; cbn; lia.
  - intros Hne. destruct Hs as [Hs|[_ Hp]]; [contradiction|].
    unfold AvatarPage.step. rewrite Ho.
    unfold VoiceRecorder.handleSendAudio, AvatarPage.voiceRecorderProps.
    cbn [VoiceRecorder.isProcessing]. rewrite Hp.
    destruct (VoiceRecorder.audioBlob s); reflexivity.
Qed.

Lemma send_while_processing_is_rejected_witness :
  let s := AvatarPage.steps (AvatarPage.mount 1700000000000)
             Scenario.record_and_send in
  AvatarPage.all_orderly (AvatarPage.mount 1700000000000)
    Scenario.record_and_send = true
  /\ VoiceRecorder.inflight s = [Scenario.speech]
  /\ (length (VoiceRecorder.inflight s) <= 1)%nat
  /\ AvatarPage.step s (Scenario.at_ AvatarPage.ClickSend) = s.
Proof.
  intros s.
  destruct (send_while_processing_is_rejected 1700000000000
              Scenario.record_and_send (Scenario.at_ AvatarPage.ClickSend)
              eq_refl eq_refl) as [Hlen Hnoop].
  split; [reflexivity|]. split; [reflexivity|]. split; [exact Hlen|].
  apply Hnoop. discriminate.
Defined.

(** The claim of C1 as it stands has a second invocation cancel the
    run in flight and start its own.  With a run in flight, pressing
    send again changes nothing: the first run stays in flight and no
    second one is started. *)
Lemma send_does_not_cancel :
  let s := Scenario.sending in
  let s' := AvatarPage.step s (Scenario.at_ AvatarPage.ClickSend) in
  VoiceRecorder.inflight s = [Scenario.speech]
  /\ VoiceRecorder.audioBlob s = Some Scenario.speech
  /\ VoiceRecorder.inflight s' = [Scenario.speech]
  /\ s' = s.
Proof. vm_compute. repeat split. Qed.

(** When the page's [handleVideoReady] does fire during a run, the
    flag is cleared under the run and a second run can start beside
    it. *)
Example video_ready_during_run_allows_overlap :
  AvatarPage.all_orderly (AvatarPage.mount 1700000000000)
    Scenario.record_during_run = false
  /\ VoiceRecorder.inflight
       (AvatarPage.steps (AvatarPage.mount 1700000000000)
          Scenario.record_during_run)
     = [Scenario.speech; Scenario.second_speech].
Proof. vm_compute. split; reflexivity. Qed.

(** * Further properties of the sources *)

(** ** The connection hook: reconnection and disconnection *)

(** X1.  Whatever happens to the hook short of an open or an explicit
    disconnect (transports closing or failing, timers firing, calls of
    [connect] or [sendMessage]), its attempt counter stays within the
    configured maximum, and the hook sets exactly as many reconnect
    timers as the counter grows by: at most the maximum. *)
Theorem hook_reconnect_budget
    (o : UseWebSocket.Options) (es : list UseWebSocket.Event)
    (h : UseWebSocket.Hook) :
  forallb UseWebSocket.no_reset es = true ->
  (0 <= UseWebSocket.reconnectAttemptsRef h
   <= UseWebSocket.maxReconnectAttempts o)%Z ->
  (UseWebSocket.reconnectAttemptsRef (UseWebSocket.steps o h es)
   <= UseWebSocket.maxReconnectAttempts o)%Z
  /\ (Z.of_nat (UseWebSocket.scheduled (UseWebSocket.steps o h es))
      - Z.of_nat (UseWebSocket.scheduled h)
      = UseWebSocket.reconnectAttemptsRef (UseWebSocket.steps o h es)
        - UseWebSocket.reconnectAttemptsRef h)%Z
  /\ (Z.of_nat (UseWebSocket.scheduled (UseWebSocket.steps o h es))
      - Z.of_nat (UseWebSocket.scheduled h)
      <= UseWebSocket.maxReconnectAttempts o)%Z.
Proof.
  intros Hes Hb.
  destruct (hook_reconnects_bounded o es h Hes Hb) as [Hb' Hs].
  split; [lia|]. split; [exact Hs | lia].
Qed.

Lemma hook_reconnect_budget_witness :
  let o := UseWebSocket.default_options in
  let h := UseWebSocket.connect o UseWebSocket.initial in
  let es := [ UseWebSocket.EvError 0; UseWebSocket.EvClose 0;
              UseWebSocket.EvTimeout 0; UseWebSocket.EvClose 1;
              UseWebSocket.EvClose 1; UseWebSocket.EvClose 0;
              UseWebSocket.EvClose 0; UseWebSocket.EvClose 0;
              UseWebSocket.EvClose 0; UseWebSocket.EvClose 0 ] in
  forallb UseWebSocket.no_reset es = true
  /\ UseWebSocket.reconnectAttemptsRef (UseWebSocket.steps o h es) = 5%Z
  /\ (Z.of_nat (UseWebSocket.scheduled (UseWebSocket.steps o h es))
      - Z.of_nat (UseWebSocket.scheduled h) <= 5)%Z.
Proof.
  intros o h es.
  assert (Hb : (0 <= UseWebSocket.reconnectAttemptsRef h
                <= UseWebSocket.maxReconnectAttempts o)%Z)
    by (vm_compute; split; discriminate).
  destruct (hook_reconnect_budget o es h eq_refl Hb) as (_ & _ & Hs).
  split; [reflexivity|]. split; [vm_compute; reflexivity | exact Hs].
Defined.

(** X2.  [disconnect] leaves the hook Disconnected with the counter at
    zero, no current transport and the timer of its ref cleared; a
    message sent afterwards is refused; and disconnecting again changes
    nothing. *)
Theorem disconnect_is_idempotent (h : UseWebSocket.Hook) :
  UseWebSocket.disconnect (UseWebSocket.disconnect h) = UseWebSocket.disconnect h
  /\ UseWebSocket.connectionStatus (UseWebSocket.disconnect h)
     = UseWebSocket.Disconnected
  /\ UseWebSocket.reconnectAttemptsRef (UseWebSocket.disconnect h) = 0%Z
  /\ UseWebSocket.transport_state (UseWebSocket.disconnect h) = None
  /\ (forall m, UseWebSocket.sendMessage m (UseWebSocket.disconnect h)
                = (UseWebSocket.disconnect h, false))
  /\ (forall t d, UseWebSocket.reconnectTimeoutRef h = Some t ->
                  UseWebSocket.timers (UseWebSocket.disconnect h) !! t
                  <> Some (Some d)).
Proof.
  destruct (disconnect_fields h) as (Hs & Hc & Ha & Hw & Ht).
  split; [|split; [exact Hs|split; [exact Hc|split; [|split]]]].
  - remember (UseWebSocket.disconnect h) as h' eqn:E.
    unfold UseWebSocket.disconnect at 1. rewrite Ht, Hw.
    destruct h'; cbn in *. subst. reflexivity.
  - unfold UseWebSocket.transport_state, UseWebSocket.current_socket.
    rewrite Hw. reflexivity.
  - intros m. unfold UseWebSocket.sendMessage, UseWebSocket.current_socket.
    rewrite Hw. reflexivity.
  - intros t d Hr. rewrite disconnect_timers, Hr.
    destruct (decide (t < length (UseWebSocket.timers h))%nat) as [Hlt|Hge].
    + rewrite list_lookup_insert_eq by exact Hlt. discriminate.
    + rewrite list_insert_ge by lia.
      rewrite lookup_ge_None_2 by lia. discriminate.
Qed.

(** X3.  An explicit [disconnect] does not end reconnection.  The
    transport it closes keeps its handlers, so when the close event of
    that transport arrives the hook counts a first attempt and sets a
    reconnect timer; when the timer fires, [connect] constructs a new
    transport. *)
Theorem close_after_disconnect_reconnects
    (o : UseWebSocket.Options) (h : UseWebSocket.Hook) (i : nat)
    (ws : UseWebSocket.WebSocket) :
  UseWebSocket.url_valid o = true ->
  (0 < UseWebSocket.maxReconnectAttempts o)%Z ->
  UseWebSocket.wsRef h = Some i ->
  UseWebSocket.sockets h !! i = Some ws ->
  let closed := UseWebSocket.onclose o i (UseWebSocket.disconnect h) in
  let t := length (UseWebSocket.timers h) in
  UseWebSocket.connectionStatus closed = UseWebSocket.Disconnected
  /\ UseWebSocket.reconnectAttemptsRef closed = 1%Z
  /\ UseWebSocket.reconnectTimeoutRef closed = Some t
  /\ UseWebSocket.timers closed !! t = Some (Some (UseWebSocket.reconnectInterval o))
  /\ UseWebSocket.connectionStatus (UseWebSocket.timeout o t closed)
     = UseWebSocket.Connecting
  /\ length (UseWebSocket.sockets (UseWebSocket.timeout o t closed))
     = S (length (UseWebSocket.sockets h))
  /\ UseWebSocket.transport_state (UseWebSocket.timeout o t closed)
     = Some UseWebSocket.CONNECTING.
Proof.
  intros Hurl Hmax Hw Hi closed t.
  destruct (disconnect_fields h) as (Hs & Hc & Ha & Hw' & Ht).
  pose proof (disconnect_timers h) as Htm.
  pose proof (disconnect_sockets_length h) as Hlen.
  assert (Hlt : (length (UseWebSocket.timers (UseWebSocket.disconnect h))
                 = length (UseWebSocket.timers h))).
  { rewrite Htm. destruct (UseWebSocket.reconnectTimeoutRef h);
      rewrite ?length_insert; reflexivity. }
  assert (His : is_Some (UseWebSocket.sockets (UseWebSocket.disconnect h) !! i)).
  { apply lookup_lt_is_Some. rewrite Hlen. eapply lookup_lt_Some, Hi. }
  destruct His as [ws' Hws'].
  remember (UseWebSocket.disconnect h) as d eqn:Ed.
  assert (Hcl : closed
                = UseWebSocket.setTimeout o
                    (UseWebSocket.setReconnectAttempts 1
                       (UseWebSocket.set_reconnectAttemptsRef 1
                          (UseWebSocket.setConnectionStatus UseWebSocket.Disconnected
                             (UseWebSocket.set_readyState i UseWebSocket.CLOSED d))))).
  { subst closed. unfold UseWebSocket.onclose. rewrite Hws'. cbn zeta.
    cbn [UseWebSocket.setConnectionStatus UseWebSocket.reconnectAttemptsRef
           UseWebSocket.set_reconnectAttemptsRef].
    destruct (set_readyState_counter i UseWebSocket.CLOSED d) as [Hrc _].
    rewrite Hrc, Hc.
    destruct (0 <? UseWebSocket.maxReconnectAttempts o)%Z eqn:E;
      [reflexivity | apply Z.ltb_ge in E; lia]. }
  destruct (set_readyState_counter i UseWebSocket.CLOSED d) as [_ Hrt].
  assert (Htimers : UseWebSocket.timers closed
                    = UseWebSocket.timers d ++ [Some (UseWebSocket.reconnectInterval o)]).
  { rewrite Hcl. cbn. rewrite Hrt. reflexivity. }
  assert (Hsock : length (UseWebSocket.sockets closed)
                  = length (UseWebSocket.sockets h)).
  { rewrite Hcl. cbn. unfold UseWebSocket.set_readyState. rewrite Hws'. cbn.
    rewrite length_insert. exact Hlen. }
  assert (Hwc : UseWebSocket.wsRef closed = None).
  { rewrite Hcl. cbn. unfold UseWebSocket.set_readyState. rewrite Hws'. cbn.
    exact Hw'. }
  assert (Hlook : UseWebSocket.timers closed !! t
                  = Some (Some (UseWebSocket.reconnectInterval o))).
  { rewrite Htimers. subst t. rewrite <- Hlt.
    rewrite lookup_app_r by lia. rewrite Nat.sub_diag. reflexivity. }
  split; [rewrite Hcl; reflexivity|].
  split; [rewrite Hcl; reflexivity|].
  split; [rewrite Hcl; cbn; rewrite Hrt, Hlt; reflexivity|].
  split; [exact Hlook|].
  unfold UseWebSocket.timeout. rewrite Hlook.
  set (fired := UseWebSocket.set_timers _ closed).
  assert (Hn : UseWebSocket.transport_state fired <> Some UseWebSocket.OPEN).
  { unfold UseWebSocket.transport_state, UseWebSocket.current_socket.
    subst fired. cbn. rewrite Hwc. discriminate. }
  destruct (connect_not_open_constructs o fired Hurl Hn) as (Hso & Hwr & Hst).
  split; [exact Hst|]. split.
  - rewrite Hso, length_app. subst fired. cbn. rewrite Hsock. lia.
  - unfold UseWebSocket.transport_state, UseWebSocket.current_socket.
    rewrite Hwr, Hso. rewrite lookup_app_r by lia. rewrite Nat.sub_diag.
    reflexivity.
Qed.

Lemma close_after_disconnect_reconnects_witness :
  let o := UseWebSocket.default_options in
  let h := UseWebSocket.onopen 0 (UseWebSocket.connect o UseWebSocket.initial) in
  let closed := UseWebSocket.onclose o 0 (UseWebSocket.disconnect h) in
  UseWebSocket.wsRef h = Some 0%nat
  /\ UseWebSocket.connectionStatus h = UseWebSocket.Connected
  /\ UseWebSocket.reconnectAttemptsRef closed = 1%Z
  /\ UseWebSocket.transport_state (UseWebSocket.timeout o 0 closed)
     = Some UseWebSocket.CONNECTING.
Proof.
  intros o h closed.
  destruct (close_after_disconnect_reconnects o h 0
              {| UseWebSocket.readyState := UseWebSocket.OPEN;
                 UseWebSocket.sent := [] |}
              eq_refl eq_refl eq_refl eq_refl)
    as (_ & Hc & _ & _ & _ & _ & Ht).
  split; [reflexivity|]. split; [reflexivity|]. split; [exact Hc | exact Ht].
Defined.

(** ** The service: what each stage requests *)

Section ServiceRequests.
Import AvatarService.

Variable env : Env.

Lemma recognizeSpeech_run audioBlob :
  fst (run (recognizeSpeech env audioBlob)) = [PostRecognizeSpeech audioBlob]
  /\ forall r, snd (run (recognizeSpeech env audioBlob)) = Fulfilled r
               <-> recognized env audioBlob r.
Proof.
  unfold run, recognized, recognizeSpeech, try_catch, bind, fetch, await, throw.
  cbn [app].
  destruct (recognize_api env audioBlob) as [resp|e|] eqn:Ha; cbn [fst snd].
  - destruct (ok resp) eqn:Hok; cbn [negb fst snd].
    + destruct (body resp) as [b|e|] eqn:Hb; cbn [fst snd];
        (split; [reflexivity|]); intros r; split.
      * intros [= <-]. eauto.
      * intros (r' & [= <-] & _ & Hb'). congruence.
      * discriminate.
      * intros (r' & [= <-] & _ & Hb'). congruence.
      * discriminate.
      * intros (r' & [= <-] & _ & Hb'). congruence.
    + split; [reflexivity|]. intros r; split; [discriminate|].
      intros (r' & [= <-] & Hok' & _). congruence.
  - split; [reflexivity|]. intros r; split; [discriminate|].
    intros (r' & Hr' & _). discriminate.
  - split; [reflexivity|]. intros r; split; [discriminate|].
    intros (r' & Hr' & _). discriminate.
Qed.

Lemma getAIResponse_request text context :
  fst (run (getAIResponse env text context))
  = [PostChat text (context_or_default context)].
Proof.
  unfold run, getAIResponse, try_catch, bind, fetch, await, throw.
  cbn [app].
  destruct (chat_api env text (context_or_default context)) as [resp| |];
    cbn [fst snd]; try reflexivity.
  destruct (negb (ok resp)); cbn [fst snd]; try reflexivity.
  destruct (body resp); reflexivity.
Qed.

Lemma getAIResponse_none_run text :
  forall reply,
    snd (run (getAIResponse env text None)) = Fulfilled reply
    <-> replied env text reply.
Proof.
  unfold run, replied, getAIResponse, try_catch, bind, fetch, await, throw.
  cbn [app context_or_default].
  destruct (chat_api env text default_context) as [resp|e|] eqn:Ha;
    cbn [fst snd].
  - destruct (ok resp) eqn:Hok; cbn [negb fst snd].
    + destruct (body resp) as [b|e|] eqn:Hb; cbn [fst snd];
        intros r; split.
      * intros [= <-]. eauto.
      * intros (r' & [= <-] & _ & Hb'). congruence.
      * discriminate.
      * intros (r' & [= <-] & _ & Hb'). congruence.
      * discriminate.
      * intros (r' & [= <-] & _ & Hb'). congruence.
    + intros r; split; [discriminate|].
      intros (r' & [= <-] & Hok' & _). congruence.
  - intros r; split; [discriminate|].
    intros (r' & Hr' & _). discriminate.
  - intros r; split; [discriminate|].
    intros (r' & Hr' & _). discriminate.
Qed.

Lemma getAIResponse_run text context :
  forall reply,
    snd (run (getAIResponse env text context)) = Fulfilled reply
    <-> exists r, chat_api env text (context_or_default context) = Fulfilled r
                  /\ ok r = true /\ body r = Fulfilled reply.
Proof.
  unfold run, getAIResponse, try_catch, bind, fetch, await, throw.
  cbn [app]. generalize (context_or_default context). intros sent.
  destruct (chat_api env text sent) as [resp|e|] eqn:Ha; cbn [fst snd].
  - destruct (ok resp) eqn:Hok; cbn [negb fst snd].
    + destruct (body resp) as [b|e|] eqn:Hb; cbn [fst snd];
        intros r; split.
      * intros [= <-]. eauto.
      * intros (r' & [= <-] & _ & Hb'). congruence.
      * discriminate.
      * intros (r' & [= <-] & _ & Hb'). congruence.
      * discriminate.
      * intros (r' & [= <-] & _ & Hb'). congruence.
    + intros r; split; [discriminate|].
      intros (r' & [= <-] & Hok' & _). congruence.
  - intros r; split; [discriminate|].
    intros (r' & Hr' & _). discriminate.
  - intros r; split; [discriminate|].
    intros (r' & Hr' & _). discriminate.
Qed.

Lemma context_or_default_cases context :
  context_or_default context
  = match context with
    | Some (c :: cs) => c :: cs
    | _ => default_context
    end.
Proof. unfold context_or_default. destruct context as [[|c cs]|]; reflexivity. Qed.

(** The requests of synthesis: the synthesis request, followed by the
    request for the audio file only when synthesis answered with a
    success status and a readable body. *)
Lemma synthesizeSpeech_requests text :
  fst (run (synthesizeSpeech env text))
  = match synthesize_api env text with
    | Fulfilled r =>
        if ok r then
          match body r with
          | Fulfilled result =>
              [PostSynthesize text (js "default") 1 (js "neutral");
               GetAudio (audio_id result)]
          | _ => [PostSynthesize text (js "default") 1 (js "neutral")]
          end
        else [PostSynthesize text (js "default") 1 (js "neutral")]
    | _ => [PostSynthesize text (js "default") 1 (js "neutral")]
    end.
Proof.
  unfold run, synthesizeSpeech, try_catch, bind, fetch, await, throw, ret.
  cbn [app].
  destruct (synthesize_api env text) as [r| |]; cbn [fst snd app];
    try reflexivity.
  destruct (ok r); cbn [negb fst snd]; try reflexivity.
  destruct (body r) as [result| |]; cbn [fst snd]; try reflexivity.
  destruct (audio_api env (audio_id result)) as [a| |]; cbn [fst snd app];
    try reflexivity.
  destruct (negb (ok a)); cbn [fst snd]; try reflexivity.
  destruct (body a); reflexivity.
Qed.

Lemma synthesizeSpeech_fulfilled text tts :
  snd (run (synthesizeSpeech env text)) = Fulfilled tts ->
  exists audio, synthesized env text audio
                /\ audio_url tts = createObjectURL env audio.
Proof.
  unfold run, synthesized, synthesizeSpeech, try_catch, bind, fetch, await,
    throw, ret.
  destruct (synthesize_api env text) as [r| |] eqn:Hr; cbn [fst snd];
    try discriminate.
  destruct (ok r) eqn:Hok; cbn [negb fst snd]; try discriminate.
  destruct (body r) as [result| |] eqn:Hb; cbn [fst snd]; try discriminate.
  destruct (audio_api env (audio_id result)) as [a| |] eqn:Ha; cbn [fst snd];
    try discriminate.
  destruct (ok a) eqn:Hoka; cbn [negb fst snd]; try discriminate.
  destruct (body a) as [audio| |] eqn:Hba; cbn [fst snd]; try discriminate.
  intros [= <-]. exists audio. split; [|reflexivity].
  exists r, result, a. repeat split; assumption.
Qed.

End ServiceRequests.

(** X4.  Recognition and the chat request each issue exactly one
    request, whatever the answer, and are fulfilled exactly when the
    service answers that request with a success status and a readable
    body, with that body; the chat request carries the caller's
    context, and the default context whenever the caller's context is
    absent or empty. *)
Theorem single_request_stages
    (env : AvatarService.Env) (audioBlob : Blob) (text : jsstring)
    (context : option jsstring) :
  let sent := match context with
              | Some (c :: cs) => c :: cs
              | _ => AvatarService.default_context
              end in
  fst (AvatarService.run (AvatarService.recognizeSpeech env audioBlob))
  = [AvatarService.PostRecognizeSpeech audioBlob]
  /\ (forall r,
        snd (AvatarService.run (AvatarService.recognizeSpeech env audioBlob))
        = Fulfilled r
        <-> exists response,
              AvatarService.recognize_api env audioBlob = Fulfilled response
              /\ AvatarService.ok response = true
              /\ AvatarService.body response = Fulfilled r)
  /\ fst (AvatarService.run (AvatarService.getAIResponse env text context))
     = [AvatarService.PostChat text sent]
  /\ (forall reply,
        snd (AvatarService.run (AvatarService.getAIResponse env text context))
        = Fulfilled reply
        <-> exists response,
              AvatarService.chat_api env text sent = Fulfilled response
              /\ AvatarService.ok response = true
              /\ AvatarService.body response = Fulfilled reply).
Proof.
  intros sent. subst sent.
  destruct (recognizeSpeech_run env audioBlob) as [H1 H2].
  rewrite <- (context_or_default_cases context).
  split; [exact H1|]. split; [exact H2|]. split.
  - apply getAIResponse_request.
  - apply getAIResponse_run.
Qed.

(** X5.  Synthesis asks for the audio file only after the synthesis
    service has answered with a success status and a readable body,
    and then by the id of that body; and when it is fulfilled, both
    requests succeeded and the url it returns is the object url of the
    audio that was fetched. *)
Theorem synthesis_fetches_audio_after_success
    (env : AvatarService.Env) (text : jsstring) :
  (forall id,
     In (AvatarService.GetAudio id)
        (fst (AvatarService.run (AvatarService.synthesizeSpeech env text))) ->
     exists r result,
       AvatarService.synthesize_api env text = Fulfilled r
       /\ AvatarService.ok r = true
       /\ AvatarService.body r = Fulfilled result
       /\ AvatarService.audio_id result = id)
  /\ (forall tts,
        snd (AvatarService.run (AvatarService.synthesizeSpeech env text))
        = Fulfilled tts ->
        exists audio,
          AvatarService.synthesized env text audio
          /\ AvatarService.audio_url tts = AvatarService.createObjectURL env audio)
  /\ (1 <= length (fst (AvatarService.run
                          (AvatarService.synthesizeSpeech env text))) <= 2)%nat.
Proof.
  split; [|split].
  - intros id. rewrite synthesizeSpeech_requests.
    destruct (AvatarService.synthesize_api env text) as [r| |] eqn:Hr;
      try (intros [H|[]]; discriminate).
    destruct (AvatarService.ok r) eqn:Hok;
      try (intros [H|[]]; discriminate).
    destruct (AvatarService.body r) as [result| |] eqn:Hb;
      try (intros [H|[]]; discriminate).
    intros [H|[H|[]]]; [discriminate|]. injection H as <-.
    exists r, result. repeat split; assumption.
  - apply synthesizeSpeech_fulfilled.
  - rewrite synthesizeSpeech_requests.
    destruct (AvatarService.synthesize_api env text) as [r| |];
      cbn [length]; try lia.
    destruct (AvatarService.ok r); cbn [length]; try lia.
    destruct (AvatarService.body r); cbn [length]; lia.
Qed.

(** X6.  When every stage succeeds, the run issues the four requests in
    order (recognition, the chat request carrying the recognized text
    untrimmed and the default context, synthesis of the reply, the
    audio file by the id synthesis returned) and is fulfilled with the
    recognized text, the reply and the object url of the audio. *)
Theorem pipeline_success
    (env : AvatarService.Env) (audioBlob : Blob)
    (recognition : AvatarService.SpeechRecognitionResponse)
    (reply : AvatarService.AIResponse)
    (r : AvatarService.Response AvatarService.SynthesizeResult)
    (result : AvatarService.SynthesizeResult)
    (a : AvatarService.Response Blob) (audio : Blob) :
  AvatarService.recognized env audioBlob recognition ->
  blank (AvatarService.sr_text recognition) = false ->
  AvatarService.replied env (AvatarService.sr_text recognition) reply ->
  AvatarService.synthesize_api env (AvatarService.ai_text reply) = Fulfilled r ->
  AvatarService.ok r = true ->
  AvatarService.body r = Fulfilled result ->
  AvatarService.audio_api env (AvatarService.audio_id result) = Fulfilled a ->
  AvatarService.ok a = true ->
  AvatarService.body a = Fulfilled audio ->
  AvatarService.run (AvatarService.processAudioInput env audioBlob)
  = ([ AvatarService.PostRecognizeSpeech audioBlob;
       AvatarService.PostChat (AvatarService.sr_text recognition)
         AvatarService.default_context;
       AvatarService.PostSynthesize (AvatarService.ai_text reply)
         (js "default") 1 (js "neutral");
       AvatarService.GetAudio (AvatarService.audio_id result) ],
     Fulfilled
       {| AvatarService.recognizedText := AvatarService.sr_text recognition;
          AvatarService.aiResponse := AvatarService.ai_text reply;
          AvatarService.audioUrl := AvatarService.createObjectURL env audio |}).
Proof.
  intros Hrec Hblank Hrep Hr Hok Hb Ha Hoka Hba.
  assert (Ht : negb (truthy (trim (AvatarService.sr_text recognition))) = false).
  { destruct (truthy (trim (AvatarService.sr_text recognition))) eqn:E;
      [reflexivity|]. apply trim_falsy_iff_blank in E. congruence. }
  unfold AvatarService.run, AvatarService.processAudioInput,
    AvatarService.try_catch, AvatarService.bind.
  rewrite (recognizeSpeech_recognized _ _ _ _ Hrec), Ht.
  rewrite (getAIResponse_replied env _ _ _ Hrep).
  unfold AvatarService.synthesizeSpeech, AvatarService.try_catch,
    AvatarService.bind, AvatarService.fetch, AvatarService.await,
    AvatarService.ret.
  rewrite Hr, Hok. cbn [negb]. rewrite Hb, Ha, Hoka. cbn [negb]. rewrite Hba.
  reflexivity.
Qed.

Lemma pipeline_success_witness :
  let env := Scenario.all_up Scenario.hello Scenario.hi_there in
  blank Scenario.hello = false
  /\ AvatarService.run (AvatarService.processAudioInput env Scenario.speech)
     = ([ AvatarService.PostRecognizeSpeech Scenario.speech;
          AvatarService.PostChat Scenario.hello AvatarService.default_context;
          AvatarService.PostSynthesize Scenario.hi_there
            (js "default") 1 (js "neutral");
          AvatarService.GetAudio (js "a1") ],
        Fulfilled
          {| AvatarService.recognizedText := Scenario.hello;
             AvatarService.aiResponse := Scenario.hi_there;
             AvatarService.audioUrl := js "blob:a1" |}).
Proof.
  intros env.
  assert (Hrec : AvatarService.recognized env Scenario.speech
                   {| AvatarService.sr_text := Scenario.hello;
                      AvatarService.sr_confidence := 1 |})
    by (eexists; repeat split; reflexivity).
  assert (Hrep : AvatarService.replied env Scenario.hello
                   {| AvatarService.ai_text := Scenario.hi_there;
                      AvatarService.ai_emotion := None |})
    by (eexists; repeat split; reflexivity).
  assert (Hb : blank Scenario.hello = false) by (vm_compute; reflexivity).
  split; [exact Hb|].
  pose proof (pipeline_success env Scenario.speech _ _
                {| AvatarService.status := 200;
                   AvatarService.body :=
                     Fulfilled {| AvatarService.audio_id := js "a1";
                                  AvatarService.result_duration := None |} |}
                {| AvatarService.audio_id := js "a1";
                   AvatarService.result_duration := None |}
                {| AvatarService.status := 200;
                   AvatarService.body := Fulfilled [82; 73; 70; 70] |}
                [82; 73; 70; 70]
                Hrec Hb Hrep eq_refl eq_refl eq_refl eq_refl eq_refl eq_refl)
    as H.
  vm_compute in H. vm_compute. exact H.
Defined.

(** X7.  Whatever the services answer, a run issues between one and
    four requests, each at most once and in this order: the recognition
    request, the chat request with the recognized text and the default
    context, the synthesis request for the reply, the request of the
    audio file by the id synthesis returned.  A request is issued only
    when the one before it was answered with a success status and a
    readable body (for the chat request, a recognized text that is not
    blank).  There are no retries. *)
Theorem requests_follow_the_stages
    (env : AvatarService.Env) (audioBlob : Blob) :
  exists (n : nat) (text reply id : jsstring),
    (1 <= n <= 4)%nat
    /\ fst (AvatarService.run (AvatarService.processAudioInput env audioBlob))
       = take n [ AvatarService.PostRecognizeSpeech audioBlob;
                  AvatarService.PostChat text AvatarService.default_context;
                  AvatarService.PostSynthesize reply (js "default") 1
                    (js "neutral");
                  AvatarService.GetAudio id ]
    /\ ((2 <= n)%nat ->
        exists recognition,
          AvatarService.recognized env audioBlob recognition
          /\ AvatarService.sr_text recognition = text
          /\ blank text = false)
    /\ ((3 <= n)%nat ->
        exists answer,
          AvatarService.replied env text answer
          /\ AvatarService.ai_text answer = reply)
    /\ (n = 4%nat ->
        exists result,
          AvatarService.synthesis_answered env reply result
          /\ AvatarService.audio_id result = id).
Proof.
  assert (One : forall log : list AvatarService.Request,
             log = [AvatarService.PostRecognizeSpeech audioBlob] ->
             exists (n : nat) (text reply id : jsstring),
               (1 <= n <= 4)%nat
               /\ log
                  = take n [ AvatarService.PostRecognizeSpeech audioBlob;
                             AvatarService.PostChat text
                               AvatarService.default_context;
                             AvatarService.PostSynthesize reply (js "default") 1
                               (js "neutral");
                             AvatarService.GetAudio id ]
               /\ ((2 <= n)%nat ->
                   exists recognition,
                     AvatarService.recognized env audioBlob recognition
                     /\ AvatarService.sr_text recognition = text
                     /\ blank text = false)
               /\ ((3 <= n)%nat ->
                   exists answer,
                     AvatarService.replied env text answer
                     /\ AvatarService.ai_text answer = reply)
               /\ (n = 4%nat ->
                   exists result,
                     AvatarService.synthesis_answered env reply result
                     /\ AvatarService.audio_id result = id)).
  { intros log ->. exists 1%nat, [], [], [].
    split; [lia|]. split; [reflexivity|].
    split; [intros H; lia|]. split; [intros H; lia|intros H; lia]. }
  unfold AvatarService.run, AvatarService.processAudioInput,
    AvatarService.try_catch, AvatarService.bind.
  unfold AvatarService.recognizeSpeech at 1.
  unfold AvatarService.try_catch, AvatarService.bind, AvatarService.fetch,
    AvatarService.await, AvatarService.throw.
  cbn [app].
  destruct (AvatarService.recognize_api env audioBlob) as [r| |] eqn:Hr;
    [| apply One; reflexivity | apply One; reflexivity].
  destruct (AvatarService.ok r) eqn:Hok; cbn [negb];
    [|apply One; reflexivity].
  destruct (AvatarService.body r) as [rec| |] eqn:Hb;
    [| apply One; reflexivity | apply One; reflexivity].
  destruct (truthy (trim (AvatarService.sr_text rec))) eqn:Ht; cbn [negb];
    [|apply One; reflexivity].
  clear One.
  assert (Hrec : exists recognition,
             AvatarService.recognized env audioBlob recognition
             /\ AvatarService.sr_text recognition = AvatarService.sr_text rec
             /\ blank (AvatarService.sr_text rec) = false).
  { exists rec. split; [exists r; repeat split; assumption|].
    split; [reflexivity|].
    destruct (blank (AvatarService.sr_text rec)) eqn:E; [|reflexivity].
    apply trim_falsy_iff_blank in E. congruence. }
  assert (Two : forall log : list AvatarService.Request,
             log = [AvatarService.PostRecognizeSpeech audioBlob;
                    AvatarService.PostChat (AvatarService.sr_text rec)
                      AvatarService.default_context] ->
             exists (n : nat) (text reply id : jsstring),
               (1 <= n <= 4)%nat
               /\ log
                  = take n [ AvatarService.PostRecognizeSpeech audioBlob;
                             AvatarService.PostChat text
                               AvatarService.default_context;
                             AvatarService.PostSynthesize reply (js "default") 1
                               (js "neutral");
                             AvatarService.GetAudio id ]
               /\ ((2 <= n)%nat ->
                   exists recognition,
                     AvatarService.recognized env audioBlob recognition
                     /\ AvatarService.sr_text recognition = text
                     /\ blank text = false)
               /\ ((3 <= n)%nat ->
                   exists answer,
                     AvatarService.replied env text answer
                     /\ AvatarService.ai_text answer = reply)
               /\ (n = 4%nat ->
                   exists result,
                     AvatarService.synthesis_answered env reply result
                     /\ AvatarService.audio_id result = id)).
  { intros log ->. exists 2%nat, (AvatarService.sr_text rec), [], [].
    split; [lia|]. split; [reflexivity|].
    split; [intros _; exact Hrec|]. split; [intros H; lia|intros H; lia]. }
  unfold AvatarService.getAIResponse, AvatarService.try_catch,
    AvatarService.bind, AvatarService.fetch, AvatarService.await,
    AvatarService.throw.
  cbn [app AvatarService.context_or_default].
  destruct (AvatarService.chat_api env (AvatarService.sr_text rec)
              AvatarService.default_context) as [c0| |] eqn:Hc;
    [| apply Two; reflexivity | apply Two; reflexivity].
  destruct (AvatarService.ok c0) eqn:Hokc; cbn [negb];
    [|apply Two; reflexivity].
  destruct (AvatarService.body c0) as [answer| |] eqn:Hbc;
    [| apply Two; reflexivity | apply Two; reflexivity].
  clear Two.
  assert (Hrep : exists a,
             AvatarService.replied env (AvatarService.sr_text rec) a
             /\ AvatarService.ai_text a = AvatarService.ai_text answer).
  { exists answer. split; [exists c0; repeat split; assumption|reflexivity]. }
  rewrite synthesizeSpeech_log.
  assert (Hlog :
    exists (n : nat) (id : jsstring),
      (3 <= n <= 4)%nat
      /\ [AvatarService.PostRecognizeSpeech audioBlob;
          AvatarService.PostChat (AvatarService.sr_text rec)
            AvatarService.default_context]
         ++ fst (AvatarService.run
                   (AvatarService.synthesizeSpeech env
                      (AvatarService.ai_text answer)))
         = take n [ AvatarService.PostRecognizeSpeech audioBlob;
                    AvatarService.PostChat (AvatarService.sr_text rec)
                      AvatarService.default_context;
                    AvatarService.PostSynthesize (AvatarService.ai_text answer)
                      (js "default") 1 (js "neutral");
                    AvatarService.GetAudio id ]
      /\ (n = 4%nat ->
          exists result,
            AvatarService.synthesis_answered env (AvatarService.ai_text answer)
              result
            /\ AvatarService.audio_id result = id)).
  { rewrite synthesizeSpeech_requests.
    destruct (AvatarService.synthesize_api env (AvatarService.ai_text answer))
      as [s| |] eqn:Hs;
      [| exists 3%nat, []; split; [lia|]; split; [reflexivity|intros H; lia]
       | exists 3%nat, []; split; [lia|]; split; [reflexivity|intros H; lia]].
    destruct (AvatarService.ok s) eqn:Hoks;
      [|exists 3%nat, []; split; [lia|]; split; [reflexivity|intros H; lia]].
    destruct (AvatarService.body s) as [result| |] eqn:Hbs;
      [| exists 3%nat, []; split; [lia|]; split; [reflexivity|intros H; lia]
       | exists 3%nat, []; split; [lia|]; split; [reflexivity|intros H; lia]].
    exists 4%nat, (AvatarService.audio_id result).
    split; [lia|]. split; [reflexivity|]. intros _.
    exists result. split; [exists s; repeat split; assumption|reflexivity]. }
  destruct Hlog as (n & id & Hn & Hlog & Hfour).
  exists n, (AvatarService.sr_text rec), (AvatarService.ai_text answer), id.
  split; [lia|]. split.
  - destruct (snd (AvatarService.run
                     (AvatarService.synthesizeSpeech env
                        (AvatarService.ai_text answer))));
      unfold AvatarService.ret; cbn [fst snd]; exact Hlog.
  - split; [intros _; exact Hrec|]. split; [intros _; exact Hrep|exact Hfour].
Qed.

(** ** The AvatarSystem component as a whole *)

Section SystemInvariants.
Import AvatarSystem AvatarSystemActions.

Lemma ConnectionStatus_eqb_eq (a b : UseWebSocket.ConnectionStatus) :
  ConnectionStatus_eqb a b = true <-> a = b.
Proof. destruct a, b; cbn; split; congruence. Qed.

Lemma mirrors_view (s s' : System) :
  connection_view s = connection_view s' -> mirrors s -> mirrors s'.
Proof. unfold connection_view, mirrors. intros [= -> -> _ _]. auto. Qed.

Lemma view_status (s s' : System) :
  connection_view s = connection_view s' ->
  UseWebSocket.connectionStatus (ws s) = UseWebSocket.connectionStatus (ws s').
Proof. unfold connection_view. intros [= _ H _ _]. exact H. Qed.

Lemma one_timeout_view (s s' : System) :
  connection_view s = connection_view s' -> one_timeout s -> one_timeout s'.
Proof. unfold connection_view, one_timeout. intros [= _ _ -> ->]. auto. Qed.

Lemma hook_sendMessage_status (m : UseWebSocket.Message) (h : UseWebSocket.Hook) :
  UseWebSocket.connectionStatus (fst (UseWebSocket.sendMessage m h))
  = UseWebSocket.connectionStatus h.
Proof.
  unfold UseWebSocket.sendMessage.
  destruct (UseWebSocket.current_socket h) as [[i w]|]; [|reflexivity].
  destruct (UseWebSocket.ReadyState_eqb _ _); reflexivity.
Qed.

Lemma sendMessage_view (m : UseWebSocket.Message) (s : System) :
  connection_view (fst (sendMessage m s)) = connection_view s.
Proof.
  unfold sendMessage, connection_view.
  pose proof (hook_sendMessage_status m (ws s)) as H.
  destruct (UseWebSocket.sendMessage m (ws s)) as [h b]. cbn in *.
  rewrite H. reflexivity.
Qed.

Lemma effect_mirrors (s : System) :
  mirrors (connectionStatus_effect (UseWebSocket.connectionStatus (ws s)) s).
Proof.
  unfold mirrors, connectionStatus_effect.
  destruct (UseWebSocket.connectionStatus (ws s)) eqn:E; cbn;
    try destruct (reconnectTimeoutRef s); cbn; rewrite E; reflexivity.
Qed.

Lemma effect_one_timeout (st : UseWebSocket.ConnectionStatus) (s : System) :
  one_timeout s -> one_timeout (connectionStatus_effect st s).
Proof.
  intros Hs.
  assert (Hkeep : one_timeout
                    (setIsConnected
                       match st with UseWebSocket.Connected => true | _ => false end
                       s)) by exact Hs.
  assert (Hset : forall s0, one_timeout s0 ->
            one_timeout
              (set_reconnectTimeoutRef
                 (Some (length (timeouts
                    match reconnectTimeoutRef s0 with
                    | Some t => set_timeouts (<[t := None]> (timeouts s0)) s0
                    | None => s0
                    end)))
                 (set_timeouts
                    (timeouts
                       match reconnectTimeoutRef s0 with
                       | Some t => set_timeouts (<[t := None]> (timeouts s0)) s0
                       | None => s0
                       end ++ [Some 5000%Z])
                    match reconnectTimeoutRef s0 with
                    | Some t => set_timeouts (<[t := None]> (timeouts s0)) s0
                    | None => s0
                    end))).
  { intros s0 H0 t d. unfold one_timeout in H0.
    destruct (reconnectTimeoutRef s0) as [r|] eqn:Er; cbn.
    - rewrite length_insert. intros Hl.
      destruct (decide (t < length (timeouts s0))%nat) as [Hlt|Hge].
      + rewrite lookup_app_l in Hl by (rewrite length_insert; exact Hlt).
        destruct (decide (r = t)) as [->|Hne].
        * rewrite list_lookup_insert_eq in Hl by exact Hlt. discriminate.
        * rewrite list_lookup_insert_ne in Hl by exact Hne.
          apply H0 in Hl. congruence.
      + rewrite lookup_app_r in Hl by (rewrite length_insert; lia).
        rewrite length_insert in Hl.
        destruct (t - length (timeouts s0))%nat as [|k] eqn:Ek;
          [|destruct k; discriminate].
        f_equal. lia.
    - intros Hl.
      destruct (decide (t < length (timeouts s0))%nat) as [Hlt|Hge].
      + rewrite lookup_app_l in Hl by exact Hlt. apply H0 in Hl. discriminate.
      + rewrite lookup_app_r in Hl by lia.
        destruct (t - length (timeouts s0))%nat as [|k] eqn:Ek;
          [|destruct k; discriminate].
        f_equal. lia. }
  unfold connectionStatus_effect.
  destruct st; try exact Hkeep; apply Hset; exact Hkeep.
Qed.

Lemma rerender_mirrors (before : UseWebSocket.ConnectionStatus) (s : System) :
  (UseWebSocket.connectionStatus (ws s) = before -> mirrors s) ->
  mirrors (rerender before s).
Proof.
  intros H. unfold rerender.
  destruct (ConnectionStatus_eqb before _) eqn:E.
  - apply ConnectionStatus_eqb_eq in E. auto.
  - apply effect_mirrors.
Qed.

Lemma rerender_one_timeout (before : UseWebSocket.ConnectionStatus) (s : System) :
  one_timeout s -> one_timeout (rerender before s).
Proof.
  intros H. unfold rerender.
  destruct (ConnectionStatus_eqb before _); [exact H|].
  apply effect_one_timeout, H.
Qed.

Lemma with_ws_mirrors (f : UseWebSocket.Hook -> UseWebSocket.Hook) (s : System) :
  mirrors s -> mirrors (with_ws f s).
Proof.
  intros H. unfold with_ws. apply rerender_mirrors.
  unfold mirrors in *. cbn. intros ->. exact H.
Qed.

Lemma with_ws_one_timeout (f : UseWebSocket.Hook -> UseWebSocket.Hook)
    (s : System) :
  one_timeout s -> one_timeout (with_ws f s).
Proof. intros H. unfold with_ws. apply rerender_one_timeout. exact H. Qed.

Lemma clear_one_timeout (t : nat) (s : System) :
  one_timeout s -> one_timeout (set_timeouts (<[t := None]> (timeouts s)) s).
Proof.
  intros H t' d. cbn. intros Hl.
  destruct (decide (t = t')) as [->|Hne].
  - destruct (decide (t' < length (timeouts s))%nat) as [Hlt|Hge].
    + rewrite list_lookup_insert_eq in Hl by exact Hlt. discriminate.
    + rewrite list_insert_ge in Hl by lia. apply H in Hl. exact Hl.
  - rewrite list_lookup_insert_ne in Hl by exact Hne. apply H in Hl. exact Hl.
Qed.

Lemma step_invariants (s : System) (e : Event) :
  mirrors s /\ one_timeout s -> mirrors (step s e) /\ one_timeout (step s e).
Proof.
  intros [Hm Ho]. destruct e as [i|i|i|t|t|]; cbn [step].
  - unfold ws_open. destruct (socket_exists i s); [|auto].
    set (s1 := set_ws (UseWebSocket.onopen i (ws s)) s).
    assert (Hv : connection_view (handleWSOpen s1) = connection_view s1).
    { unfold handleWSOpen. rewrite sendMessage_view. reflexivity. }
    split.
    + apply rerender_mirrors. intros Hst.
      apply (mirrors_view s1); [symmetry; exact Hv|].
      apply view_status in Hv.
      unfold mirrors in *. cbn [isConnected s1 set_ws].
      rewrite <- Hv, Hst. exact Hm.
    + apply rerender_one_timeout.
      apply (one_timeout_view s1); [symmetry; exact Hv|]. exact Ho.
  - split; [apply with_ws_mirrors | apply with_ws_one_timeout]; assumption.
  - unfold ws_error. destruct (socket_exists i s); [|auto].
    set (s1 := set_ws (UseWebSocket.onerror i (ws s)) s).
    assert (Hv : connection_view (handleWSError s1) = connection_view s1)
      by reflexivity.
    split.
    + apply rerender_mirrors. intros Hst.
      apply (mirrors_view s1); [symmetry; exact Hv|].
      apply view_status in Hv.
      unfold mirrors in *. cbn [isConnected s1 set_ws].
      rewrite <- Hv, Hst. exact Hm.
    + apply rerender_one_timeout.
      apply (one_timeout_view s1); [symmetry; exact Hv|]. exact Ho.
  - split; [apply with_ws_mirrors | apply with_ws_one_timeout]; assumption.
  - unfold timeout. destruct (timeouts s !! t) as [[d|]|]; auto.
    split; [apply with_ws_mirrors | apply with_ws_one_timeout, clear_one_timeout];
      assumption.
  - unfold handleConnect.
    destruct (isConnected s);
      (split; [apply with_ws_mirrors | apply with_ws_one_timeout]); assumption.
Qed.

Lemma handleSendText_view (now : N) (s : System) :
  connection_view (handleSendText now s) = connection_view s.
Proof.
  unfold handleSendText.
  destruct (negb (truthy (trim (inputText s))) || negb (isConnected s));
    [reflexivity|].
  rewrite sendMessage_view. reflexivity.
Qed.

Lemma processAudioInput_settled_view now plays outcome (s : System) :
  connection_view (processAudioInput_settled now plays outcome s)
  = connection_view s.
Proof.
  unfold processAudioInput_settled, playAudioResponse.
  destruct outcome; [destruct plays| |]; reflexivity.
Qed.

Lemma act_invariants (s : System) (a : Action) :
  mirrors s /\ one_timeout s -> mirrors (act s a) /\ one_timeout (act s a).
Proof.
  intros H. destruct a as [e|now|env now plays b|env seen|granted| |text];
    cbn [act].
  - apply step_invariants, H.
  - pose proof (handleSendText_view now s) as Hv. destruct H.
    split; [apply (mirrors_view s) | apply (one_timeout_view s)];
      solve [symmetry; exact Hv | assumption].
  - pose proof (processAudioInput_settled_view now plays
                  (snd (AvatarService.run
                          (AvatarService.processAudioInput env b))) s) as Hv.
    destruct H.
    split; [apply (mirrors_view s) | apply (one_timeout_view s)];
      solve [symmetry; exact Hv | assumption].
  - unfold checkServicesStatus, checkServicesStatus_settled. destruct H as [Hm Ho].
    destruct (snd _) as [status| |]; auto.
    destruct (_ && _); [|auto].
    split; [apply with_ws_mirrors | apply with_ws_one_timeout]; assumption.
  - unfold startRecording. destruct H.
    destruct (negb (isConnected s)); [auto|]. destruct granted; auto.
  - unfold stopRecording. destruct (_ && _); auto.
  - exact H.
Qed.

Lemma acts_invariants (l : list Action) (s : System) :
  mirrors s /\ one_timeout s -> mirrors (acts s l) /\ one_timeout (acts s l).
Proof.
  revert s. induction l as [|a l IH]; intros s H; [exact H|].
  unfold acts. cbn [fold_left]. apply IH, act_invariants, H.
Qed.

Lemma mount_invariants : mirrors mount /\ one_timeout mount.
Proof.
  split; [reflexivity|].
  intros t d. destruct t as [|t]; [reflexivity|]. destruct t; discriminate.
Qed.

End SystemInvariants.

(** X8.  In the mounted AvatarSystem component, whatever happens
    (transport events, timers, the connect button, text and audio
    input, health checks, recording), [isConnected] is true exactly
    when the status of the hook is Connected. *)
Theorem isConnected_mirrors_status (l : list AvatarSystemActions.Action) :
  let s := AvatarSystemActions.acts AvatarSystem.mount l in
  AvatarSystem.isConnected s
  = AvatarSystem.ConnectionStatus_eqb
      (UseWebSocket.connectionStatus (AvatarSystem.ws s)) UseWebSocket.Connected.
Proof. exact (proj1 (acts_invariants l _ mount_invariants)). Qed.

(** X9.  The component never has two reconnect timers of its own
    pending: whatever happens, a timer still to fire is the one its ref
    points to, because the effect clears the timer of the ref before it
    sets the next. *)
Theorem one_component_timer_pending
    (l : list AvatarSystemActions.Action) (t t' : nat) (d d' : Z) :
  let s := AvatarSystemActions.acts AvatarSystem.mount l in
  AvatarSystem.timeouts s !! t = Some (Some d) ->
  AvatarSystem.timeouts s !! t' = Some (Some d') ->
  t = t' /\ AvatarSystem.reconnectTimeoutRef s = Some t.
Proof.
  intros s H1 H2.
  pose proof (proj2 (acts_invariants l _ mount_invariants)) as Ho.
  fold s in Ho. pose proof (Ho _ _ H1) as E1. pose proof (Ho _ _ H2) as E2.
  split; [congruence | exact E1].
Qed.

Lemma one_component_timer_pending_witness :
  let l := List.map AvatarSystemActions.Connection Scenario.server_down in
  let s := AvatarSystemActions.acts AvatarSystem.mount l in
  AvatarSystem.timeouts s !! 11%nat = Some (Some 5000%Z)
  /\ AvatarSystem.reconnectTimeoutRef s = Some 11%nat.
Proof.
  intros l s.
  assert (H : AvatarSystem.timeouts s !! 11%nat = Some (Some 5000%Z))
    by (vm_compute; reflexivity).
  split; [exact H|].
  exact (proj2 (one_component_timer_pending l 11 11 5000 5000 H H)).
Defined.

(** ** Handlers of the AvatarSystem component *)

Section SystemHandlers.
Import AvatarSystem AvatarSystemActions.

Lemma sendMessage_cells (m : UseWebSocket.Message) (s : System) :
  inputText (fst (sendMessage m s)) = inputText s
  /\ messages (fst (sendMessage m s)) = messages s
  /\ isProcessing (fst (sendMessage m s)) = isProcessing s
  /\ isConnected (fst (sendMessage m s)) = isConnected s.
Proof.
  unfold sendMessage.
  destruct (UseWebSocket.sendMessage m (ws s)) as [h b]. repeat split.
Qed.

Lemma sendMessage_refused (m : UseWebSocket.Message) (s : System) :
  UseWebSocket.transport_state (ws s) <> Some UseWebSocket.OPEN ->
  ws (fst (sendMessage m s)) = ws s.
Proof.
  intros Hn. unfold sendMessage, UseWebSocket.sendMessage.
  unfold UseWebSocket.transport_state in Hn.
  destruct (UseWebSocket.current_socket (ws s)) as [[i w]|]; [|reflexivity].
  destruct (UseWebSocket.readyState w); cbn; try reflexivity.
  contradiction Hn. reflexivity.
Qed.

(** The outcome of the service's health check, probe by probe. *)
Lemma checkServices_outcome (env : AvatarService.Env) :
  snd (AvatarService.run (AvatarService.checkServices env))
  = if AvatarService.settles
         (AvatarService.health_api env AvatarService.backend_health)
       && AvatarService.settles
            (AvatarService.health_api env AvatarService.tts_health)
       && AvatarService.settles
            (AvatarService.health_api env AvatarService.sadtalker_health)
    then Fulfilled
           {| AvatarService.backend :=
                AvatarService.up
                  (AvatarService.health_api env AvatarService.backend_health);
              AvatarService.tts :=
                AvatarService.up
                  (AvatarService.health_api env AvatarService.tts_health);
              AvatarService.sadtalker :=
                AvatarService.up
                  (AvatarService.health_api env AvatarService.sadtalker_health) |}
    else Pending.
Proof.
  unfold AvatarService.run, AvatarService.checkServices, AvatarService.bind,
    AvatarService.await, AvatarService.ret, AvatarService.health_urls.
  cbn [List.map AvatarService.allSettled app].
  destruct (AvatarService.health_api env AvatarService.backend_health);
    destruct (AvatarService.health_api env AvatarService.tts_health);
    destruct (AvatarService.health_api env AvatarService.sadtalker_health);
    reflexivity.
Qed.

Lemma with_ws_connect_open (s : System) :
  UseWebSocket.transport_state (ws s) = Some UseWebSocket.OPEN ->
  with_ws (UseWebSocket.connect options) s = s.
Proof.
  intros Ho. unfold with_ws.
  apply current_is_open_transport_state in Ho.
  unfold UseWebSocket.connect. rewrite Ho. unfold rerender. cbn [set_ws ws].
  assert (E : ConnectionStatus_eqb (UseWebSocket.connectionStatus (ws s))
                (UseWebSocket.connectionStatus (ws s)) = true)
    by (destruct (UseWebSocket.connectionStatus (ws s)); reflexivity).
  rewrite E. destruct s; reflexivity.
Qed.

End SystemHandlers.

(** X10.  However the run of the service settles, the component's
    [processAudioInput] releases [isProcessing].  A fulfilled run
    appends the user's message with the recognized text and then the
    assistant's with the reply and the audio, and makes that audio the
    current one; a rejected run leaves the history as it was and shows
    the error's message.  While the run has not settled the flag stays
    set and nothing is appended. *)
Theorem audio_input_settles
    (now : N) (plays : bool) (s : AvatarSystem.System)
    (result : AvatarService.ProcessResult) (e : Thrown) :
  (let s' := AvatarSystem.processAudioInput_settled now plays (Fulfilled result) s in
   AvatarSystem.isProcessing s' = false
   /\ AvatarSystem.currentAudioUrl s' = AvatarService.audioUrl result
   /\ List.map (fun m => (AvatarSystem.type m, AvatarSystem.text m,
                          AvatarSystem.audio m))
        (AvatarSystem.messages s')
      = List.map (fun m => (AvatarSystem.type m, AvatarSystem.text m,
                            AvatarSystem.audio m))
          (AvatarSystem.messages s)
        ++ [ (AvatarSystem.user, AvatarService.recognizedText result, None);
             (AvatarSystem.assistant, AvatarService.aiResponse result,
              Some (AvatarService.audioUrl result)) ])
  /\ (let s' := AvatarSystem.processAudioInput_settled now plays (Rejected e) s in
      AvatarSystem.isProcessing s' = false
      /\ AvatarSystem.messages s' = AvatarSystem.messages s
      /\ AvatarSystem.error s'
         = match e with
           | ErrorObject message => message
           | OtherValue => js "Ошибка обработки аудио"
           end)
  /\ (let s' := AvatarSystem.processAudioInput_settled now plays Pending s in
      AvatarSystem.isProcessing s' = true
      /\ AvatarSystem.messages s' = AvatarSystem.messages s).
Proof.
  split; [|split].
  - cbv zeta. rewrite system_appends_user_then_assistant.
    unfold AvatarSystem.processAudioInput_settled,
      AvatarSystem.playAudioResponse.
    split; [destruct plays; reflexivity|].
    split; [destruct plays; reflexivity|].
    rewrite map_app. reflexivity.
  - cbv zeta. unfold AvatarSystem.processAudioInput_settled.
    split; [reflexivity|]. split; reflexivity.
  - cbv zeta. split; reflexivity.
Qed.

(** X11.  Sending twice sends once.  In the chat panel and in the
    AvatarSystem component alike, a second call of the send handler
    right after the first changes nothing more: a call that sent has
    emptied the input, and a call that did nothing leaves the state on
    which the second call does nothing again. *)
Theorem send_twice_sends_once
    (now now' : N) (c : ChatInterface.State) (a : AvatarSystem.System) :
  ChatInterface.handleSendMessage now' (ChatInterface.handleSendMessage now c)
  = ChatInterface.handleSendMessage now c
  /\ AvatarSystem.handleSendText now' (AvatarSystem.handleSendText now a)
     = AvatarSystem.handleSendText now a.
Proof.
  split.
  - destruct (negb (truthy (trim (ChatInterface.inputText c)))
              || negb (ChatInterface.isConnected c)
              || ChatInterface.isProcessing c) eqn:E.
    + assert (H : ChatInterface.handleSendMessage now c = c)
        by (unfold ChatInterface.handleSendMessage; rewrite E; reflexivity).
      rewrite H. unfold ChatInterface.handleSendMessage. rewrite E. reflexivity.
    + assert (H : ChatInterface.inputText (ChatInterface.handleSendMessage now c)
                  = [])
        by (unfold ChatInterface.handleSendMessage; rewrite E; reflexivity).
      unfold ChatInterface.handleSendMessage at 1. rewrite H. reflexivity.
  - destruct (negb (truthy (trim (AvatarSystem.inputText a)))
              || negb (AvatarSystem.isConnected a)) eqn:E.
    + assert (H : AvatarSystem.handleSendText now a = a)
        by (unfold AvatarSystem.handleSendText; rewrite E; reflexivity).
      rewrite H. unfold AvatarSystem.handleSendText. rewrite E. reflexivity.
    + assert (H : AvatarSystem.inputText (AvatarSystem.handleSendText now a) = []).
      { unfold AvatarSystem.handleSendText. rewrite E.
        match goal with
        | |- context [AvatarSystem.sendMessage ?m ?s1] =>
            destruct (sendMessage_cells m s1) as (Hi & _)
        end.
        rewrite Hi. reflexivity. }
      unfold AvatarSystem.handleSendText at 1. rewrite H. reflexivity.
Qed.

(** X12.  [handleSendText] does not look at what [sendMessage]
    returns.  With [isConnected] set and a text that is not blank, but
    the current transport not open, the user's message is appended to
    the history, the input is emptied and [isProcessing] is raised,
    while nothing reaches any transport. *)
Theorem text_recorded_though_not_delivered
    (now : N) (s : AvatarSystem.System) :
  AvatarSystem.isConnected s = true ->
  blank (AvatarSystem.inputText s) = false ->
  UseWebSocket.transport_state (AvatarSystem.ws s) <> Some UseWebSocket.OPEN ->
  let s' := AvatarSystem.handleSendText now s in
  AvatarSystem.ws s' = AvatarSystem.ws s
  /\ AvatarSystem.isProcessing s' = true
  /\ AvatarSystem.inputText s' = []
  /\ AvatarSystem.messages s'
     = AvatarSystem.messages s
       ++ [ {| AvatarSystem.id := number_toString now;
               AvatarSystem.type := AvatarSystem.user;
               AvatarSystem.text := AvatarSystem.inputText s;
               AvatarSystem.audio := None;
               AvatarSystem.timestamp := now |} ].
Proof.
  intros Hc Hb Hn s'. subst s'. unfold AvatarSystem.handleSendText.
  assert (Ht : negb (truthy (trim (AvatarSystem.inputText s))) = false).
  { destruct (truthy (trim (AvatarSystem.inputText s))) eqn:E; [reflexivity|].
    apply trim_falsy_iff_blank in E. congruence. }
  rewrite Ht, Hc. cbn [negb orb].
  match goal with
  | |- context [AvatarSystem.sendMessage ?m ?s1] =>
      destruct (sendMessage_cells m s1) as (Hi & Hm & Hp & _);
      pose proof (sendMessage_refused m s1 Hn) as Hw
  end.
  rewrite Hw, Hp, Hi, Hm. repeat split.
Qed.

Lemma text_recorded_though_not_delivered_witness :
  let s := AvatarSystemActions.first_transport_opened in
  let s' := AvatarSystem.handleSendText 7 s in
  AvatarSystem.isConnected s = true
  /\ UseWebSocket.transport_state (AvatarSystem.ws s)
     = Some UseWebSocket.CONNECTING
  /\ AvatarSystem.ws s' = AvatarSystem.ws s
  /\ AvatarSystem.isProcessing s' = true
  /\ length (AvatarSystem.messages s') = 1%nat.
Proof.
  intros s s'.
  assert (Hc : AvatarSystem.isConnected s = true) by (vm_compute; reflexivity).
  assert (Ht : UseWebSocket.transport_state (AvatarSystem.ws s)
               = Some UseWebSocket.CONNECTING) by (vm_compute; reflexivity).
  assert (Hb : blank (AvatarSystem.inputText s) = false)
    by (vm_compute; reflexivity).
  assert (Hn : UseWebSocket.transport_state (AvatarSystem.ws s)
               <> Some UseWebSocket.OPEN) by (rewrite Ht; discriminate).
  destruct (text_recorded_though_not_delivered 7 s Hc Hb Hn)
    as (Hw & Hp & _ & Hm).
  split; [exact Hc|]. split; [exact Ht|]. split; [exact Hw|].
  split; [exact Hp|]. subst s'. rewrite Hm, length_app.
  vm_compute. reflexivity.
Defined.

(** X13.  The component's periodic health check never disturbs an open
    connection and connects only when all three services are up.  With
    the current transport open it only stores the status it received;
    with some service down it only stores the status; and while a probe
    has not settled it changes nothing at all. *)
Theorem health_check_connects_only_when_all_up
    (env : AvatarService.Env) (seen : UseWebSocket.ConnectionStatus)
    (status : AvatarService.ServicesStatus) (s : AvatarSystem.System) :
  (UseWebSocket.transport_state (AvatarSystem.ws s) = Some UseWebSocket.OPEN ->
   AvatarSystemActions.checkServicesStatus_settled seen (Fulfilled status) s
   = AvatarSystem.setServicesStatus status s)
  /\ (AvatarSystemActions.every_service status = false ->
      AvatarSystemActions.checkServicesStatus_settled seen (Fulfilled status) s
      = AvatarSystem.setServicesStatus status s)
  /\ (AvatarService.settles
        (AvatarService.health_api env AvatarService.backend_health)
      && AvatarService.settles
           (AvatarService.health_api env AvatarService.tts_health)
      && AvatarService.settles
           (AvatarService.health_api env AvatarService.sadtalker_health)
      = false ->
      AvatarSystemActions.checkServicesStatus env seen s = s).
Proof.
  split; [|split].
  - intros Ho. unfold AvatarSystemActions.checkServicesStatus_settled.
    destruct (_ && _); [|reflexivity].
    apply with_ws_connect_open. exact Ho.
  - intros Hd. unfold AvatarSystemActions.checkServicesStatus_settled.
    rewrite Hd. reflexivity.
  - intros Hp. unfold AvatarSystemActions.checkServicesStatus.
    rewrite checkServices_outcome, Hp. reflexivity.
Qed.

Lemma health_check_connects_only_when_all_up_witness :
  let connected := AvatarSystem.steps AvatarSystem.mount [AvatarSystem.WsOpen 0] in
  let all_up := {| AvatarService.backend := true; AvatarService.tts := true;
                   AvatarService.sadtalker := true |} in
  UseWebSocket.transport_state (AvatarSystem.ws connected)
  = Some UseWebSocket.OPEN
  /\ AvatarSystemActions.checkServicesStatus_settled UseWebSocket.Disconnected
       (Fulfilled all_up) connected
     = AvatarSystem.setServicesStatus all_up connected
  /\ AvatarSystemActions.checkServicesStatus Scenario.tts_hangs
       UseWebSocket.Disconnected AvatarSystem.mount
     = AvatarSystem.mount.
Proof.
  intros connected all_up.
  assert (Ho : UseWebSocket.transport_state (AvatarSystem.ws connected)
               = Some UseWebSocket.OPEN) by (vm_compute; reflexivity).
  split; [exact Ho|]. split.
  - exact (proj1 (health_check_connects_only_when_all_up Scenario.tts_hangs
                    UseWebSocket.Disconnected all_up connected) Ho).
  - apply (proj2 (proj2 (health_check_connects_only_when_all_up
                           Scenario.tts_hangs UseWebSocket.Disconnected
                           all_up AvatarSystem.mount))).
    vm_compute. reflexivity.
Defined.

(** ** The page of the voice recorder *)

Section PageProperties.
Import AvatarPage.

Lemma handleAvatarResponse_messages (now : N) (response : AvatarResponse)
    (p : Page) :
  exists l, messages (handleAvatarResponse now response p) = messages p ++ l.
Proof.
  unfold handleAvatarResponse.
  destruct (r_recognizedText response) as [recognized|];
    [destruct (truthy recognized)|];
    first [ eexists; reflexivity
          | exists []; rewrite app_nil_r; reflexivity ].
Qed.

Lemma step_messages (s : App) (o : Occurrence) :
  exists l,
    messages (VoiceRecorder.parent (step s o))
    = messages (VoiceRecorder.parent s) ++ l.
Proof.
  assert (Hsame : forall s' : App,
             messages (VoiceRecorder.parent s')
             = messages (VoiceRecorder.parent s) ->
             exists l, messages (VoiceRecorder.parent s')
                       = messages (VoiceRecorder.parent s) ++ l).
  { intros s' H. exists []. rewrite app_nil_r. exact H. }
  unfold step.
  destruct (event o) as [ | |mic| |blob| | |i plays| | |seen_p seen_b].
  - apply Hsame. reflexivity.
  - apply Hsame. reflexivity.
  - apply Hsame. unfold VoiceRecorder.handleStartRecording.
    destruct (_ || _); [reflexivity|]. destruct mic; reflexivity.
  - apply Hsame. unfold VoiceRecorder.handleStopRecording. cbn zeta.
    destruct (VoiceRecorder.mediaRecorderRef _) as [[|]|]; reflexivity.
  - apply Hsame. reflexivity.
  - apply Hsame. unfold VoiceRecorder.handleSendAudio.
    destruct (VoiceRecorder.audioBlob s); [|reflexivity].
    destruct (VoiceRecorder.isProcessing _); reflexivity.
  - apply Hsame. unfold VoiceRecorder.cancel.
    destruct (VoiceRecorder.isProcessing _); reflexivity.
  - destruct (VoiceRecorder.inflight s !! i) as [blob|] eqn:Hi;
      [|apply Hsame; reflexivity].
    unfold VoiceRecorder.handleSendAudio_settled. rewrite Hi.
    destruct (snd _) as [result|e|]; [| |apply Hsame; reflexivity].
    + unfold voiceRecorderProps.
      cbn [VoiceRecorder.onResponseReceived VoiceRecorder.onProcessingChange].
      match goal with
      | |- context [handleAvatarResponse ?n ?r ?p] =>
          destruct (handleAvatarResponse_messages n r p) as [l Hl]
      end.
      exists l. destruct plays; exact Hl.
    + apply Hsame. reflexivity.
  - apply Hsame. reflexivity.
  - apply Hsame. reflexivity.
  - apply Hsame. unfold VoiceRecorder.handleStopRecording_deferred.
    destruct seen_b; [|reflexivity].
    unfold VoiceRecorder.handleSendAudio.
    destruct (VoiceRecorder.isProcessing _); reflexivity.
Qed.

Lemma handleSendAudio_inflight {P : Type} (pr : VoiceRecorder.Props P)
    (blob : Blob) (s : VoiceRecorder.State P) :
  VoiceRecorder.isProcessing pr = false ->
  VoiceRecorder.inflight (VoiceRecorder.handleSendAudio pr (Some blob) s)
  = VoiceRecorder.inflight s ++ [blob].
Proof.
  intros Hp. unfold VoiceRecorder.handleSendAudio. rewrite Hp. reflexivity.
Qed.

(** The send button is blocked: with no run in flight and the flag
    set, nothing but [handleVideoReady] and the deferred callback of
    the stop button carrying a recording and a lowered flag changes
    either. *)
Lemma step_blocked (s : App) (o : Occurrence) :
  match event o with
  | VideoReady | StopDeferred false (Some _) => False
  | _ => True
  end ->
  VoiceRecorder.inflight s = [] /\ isProcessing (VoiceRecorder.parent s) = true ->
  VoiceRecorder.inflight (step s o) = []
  /\ isProcessing (VoiceRecorder.parent (step s o)) = true.
Proof.
  intros Ho [Hf Hp]. unfold step.
  destruct (event o) as [ | |mic| |blob| | |i plays| | |seen_p seen_b].
  - split; [exact Hf|exact Hp].
  - split; [exact Hf|exact Hp].
  - unfold VoiceRecorder.handleStartRecording, voiceRecorderProps.
    cbn [VoiceRecorder.isConnected VoiceRecorder.isProcessing].
    rewrite Hp, orb_true_r. auto.
  - unfold VoiceRecorder.handleStopRecording. cbn zeta.
    destruct (VoiceRecorder.mediaRecorderRef _) as [[|]|]; auto.
  - split; [exact Hf|reflexivity].
  - unfold VoiceRecorder.handleSendAudio, voiceRecorderProps.
    cbn [VoiceRecorder.isProcessing]. rewrite Hp.
    destruct (VoiceRecorder.audioBlob s); auto.
  - unfold VoiceRecorder.cancel, voiceRecorderProps.
    cbn [VoiceRecorder.isProcessing]. rewrite Hp. auto.
  - rewrite Hf. auto.
  - split; [exact Hf|exact Hp].
  - contradiction.
  - unfold VoiceRecorder.handleStopRecording_deferred.
    destruct seen_b as [old|]; [|auto].
    destruct seen_p; [|contradiction].
    unfold VoiceRecorder.handleSendAudio. cbn [VoiceRecorder.isProcessing].
    auto.
Qed.

End PageProperties.

(** X14.  The history of the page is append-only: whatever happens, the
    messages present before are still there, in the same order, at the
    head of the history. *)
Theorem page_history_is_append_only
    (os : list AvatarPage.Occurrence) (s : AvatarPage.App) :
  exists l,
    AvatarPage.messages (VoiceRecorder.parent (AvatarPage.steps s os))
    = AvatarPage.messages (VoiceRecorder.parent s) ++ l.
Proof.
  revert s. induction os as [|o os IH]; intros s.
  - exists []. rewrite app_nil_r. reflexivity.
  - unfold AvatarPage.steps. cbn [fold_left].
    destruct (IH (AvatarPage.step s o)) as [l2 H2].
    destruct (step_messages s o) as [l1 H1].
    exists (l1 ++ l2). unfold AvatarPage.steps in H2.
    rewrite H2, H1, app_assoc. reflexivity.
Qed.

(** X15.  Once a recording has been stopped with no run in flight, the
    page has raised [isProcessing] itself, and until its
    [handleVideoReady] fires pressing send, record or cancel does
    nothing: no run is in flight and the flag stays set.  The one
    other thing that starts a run before [handleVideoReady] is the
    deferred callback of the stop button when it carries an earlier
    recording and the lowered flag of the render in which stop was
    pressed: it sends that earlier recording. *)
Theorem recording_cannot_be_sent_before_video_ready
    (s : AvatarPage.App) (stopped : AvatarPage.Occurrence) (blob : Blob)
    (os : list AvatarPage.Occurrence) :
  VoiceRecorder.inflight s = [] ->
  AvatarPage.event stopped = AvatarPage.RecorderStopped blob ->
  Forall (fun o => match AvatarPage.event o with
                   | AvatarPage.VideoReady
                   | AvatarPage.StopDeferred false (Some _) => False
                   | _ => True
                   end) os ->
  let s' := AvatarPage.steps (AvatarPage.step s stopped) os in
  VoiceRecorder.inflight s' = []
  /\ AvatarPage.isProcessing (VoiceRecorder.parent s') = true
  /\ forall (o : AvatarPage.Occurrence) (earlier : Blob),
       AvatarPage.event o = AvatarPage.StopDeferred false (Some earlier) ->
       VoiceRecorder.inflight (AvatarPage.step s' o) = [earlier].
Proof.
  intros Hf Hst Hno.
  assert (H0 : VoiceRecorder.inflight (AvatarPage.step s stopped) = []
               /\ AvatarPage.isProcessing
                    (VoiceRecorder.parent (AvatarPage.step s stopped)) = true).
  { unfold AvatarPage.step. rewrite Hst. split; [exact Hf|reflexivity]. }
  assert (H : VoiceRecorder.inflight
                (AvatarPage.steps (AvatarPage.step s stopped) os) = []
              /\ AvatarPage.isProcessing
                   (VoiceRecorder.parent
                      (AvatarPage.steps (AvatarPage.step s stopped) os)) = true).
  { revert Hno H0. generalize (AvatarPage.step s stopped). clear.
    induction os as [|o os IH]; intros s Hno H0; [exact H0|].
    inversion Hno as [|? ? Hv Hno']; subst.
    unfold AvatarPage.steps. cbn [fold_left].
    apply IH; [exact Hno'|]. apply step_blocked; assumption. }
  cbv zeta. destruct H as [H1 H2]. split; [exact H1|]. split; [exact H2|].
  revert H1. generalize (AvatarPage.steps (AvatarPage.step s stopped) os).
  intros s' H1 o earlier Ho. unfold AvatarPage.step. rewrite Ho.
  unfold VoiceRecorder.handleStopRecording_deferred.
  rewrite handleSendAudio_inflight by reflexivity.
  rewrite H1. reflexivity.
Qed.

Lemma recording_cannot_be_sent_before_video_ready_witness :
  let s := AvatarPage.steps (AvatarPage.mount 1700000000000)
             (List.map Scenario.at_
                [AvatarPage.ClickConnect; AvatarPage.ClickStart true;
                 AvatarPage.ClickStop]) in
  let os := List.map Scenario.at_
              [AvatarPage.StopDeferred false None;
               AvatarPage.ClickSend; AvatarPage.ClickStart true;
               AvatarPage.ClickSend; AvatarPage.ClickCancel;
               AvatarPage.ClickSend] in
  let s' := AvatarPage.steps
              (AvatarPage.step s
                 (Scenario.at_ (AvatarPage.RecorderStopped Scenario.speech)))
              os in
  VoiceRecorder.audioBlob s' = Some Scenario.speech
  /\ VoiceRecorder.inflight s' = []
  /\ AvatarPage.isProcessing (VoiceRecorder.parent s') = true.
Proof.
  intros s os s'.
  assert (Hno : Forall (fun o => match AvatarPage.event o with
                                 | AvatarPage.VideoReady
                                 | AvatarPage.StopDeferred false (Some _) => False
                                 | _ => True
                                 end) os)
    by (repeat constructor).
  destruct (recording_cannot_be_sent_before_video_ready s
              (Scenario.at_ (AvatarPage.RecorderStopped Scenario.speech))
              Scenario.speech os eq_refl eq_refl Hno) as (H1 & H2 & _).
  split; [vm_compute; reflexivity|]. split; [exact H1 | exact H2].
Defined.

(** X16.  When a run started from the voice recorder settles, the run
    leaves the runs in flight and the page's [isProcessing] is
    released, whichever way it settled.  A fulfilled run discards the
    recording; a rejected run keeps it for another try and shows the
    error's message. *)
Theorem run_settlement_releases_flag
    (a : AvatarPage.App) (i : nat) (blob : Blob)
    (env : AvatarService.Env) (now : N) (plays : bool) :
  VoiceRecorder.inflight a !! i = Some blob ->
  let a' := AvatarPage.step a
              {| AvatarPage.world := env; AvatarPage.now := now;
                 AvatarPage.event := AvatarPage.Settled i plays |} in
  match snd (AvatarService.run (AvatarService.processAudioInput env blob)) with
  | Fulfilled result =>
      VoiceRecorder.inflight a' = delete i (VoiceRecorder.inflight a)
      /\ AvatarPage.isProcessing (VoiceRecorder.parent a') = false
      /\ VoiceRecorder.audioBlob a' = None
      /\ VoiceRecorder.progress a' = []
  | Rejected e =>
      VoiceRecorder.inflight a' = delete i (VoiceRecorder.inflight a)
      /\ AvatarPage.isProcessing (VoiceRecorder.parent a') = false
      /\ VoiceRecorder.audioBlob a' = VoiceRecorder.audioBlob a
      /\ VoiceRecorder.progress a' = []
      /\ VoiceRecorder.error a'
         = match e with
           | ErrorObject message => message
           | OtherValue => js "Ошибка обработки аудио"
           end
      /\ AvatarPage.messages (VoiceRecorder.parent a')
         = AvatarPage.messages (VoiceRecorder.parent a)
  | Pending => a' = a
  end.
Proof.
  intros Hi a'. subst a'. unfold AvatarPage.step.
  cbn [AvatarPage.event AvatarPage.world AvatarPage.now]. rewrite Hi.
  unfold VoiceRecorder.handleSendAudio_settled. rewrite Hi.
  destruct (snd _) as [result|e|].
  - destruct plays; repeat split.
  - repeat split.
  - reflexivity.
Qed.

Lemma run_settlement_releases_flag_witness :
  let a' := AvatarPage.step Scenario.sending
              {| AvatarPage.world := Scenario.generation_unreachable;
                 AvatarPage.now := 7;
                 AvatarPage.event := AvatarPage.Settled 0 true |} in
  VoiceRecorder.inflight Scenario.sending !! 0%nat = Some Scenario.speech
  /\ VoiceRecorder.inflight a' = []
  /\ AvatarPage.isProcessing (VoiceRecorder.parent a') = false
  /\ VoiceRecorder.audioBlob a' = Some Scenario.speech.
Proof.
  intros a'.
  assert (Hi : VoiceRecorder.inflight Scenario.sending !! 0%nat
               = Some Scenario.speech) by (vm_compute; reflexivity).
  pose proof (run_settlement_releases_flag Scenario.sending 0 Scenario.speech
                Scenario.generation_unreachable 7 true Hi) as H.
  assert (Hrun : snd (AvatarService.run
                        (AvatarService.processAudioInput
                           Scenario.generation_unreachable Scenario.speech))
                 = Rejected Scenario.failed_to_fetch)
    by (vm_compute; reflexivity).
  cbv zeta in H. rewrite Hrun in H. destruct H as (H1 & H2 & H3 & _).
  split; [exact Hi|]. split; [|split; [exact H2|]].
  - subst a'. rewrite H1. vm_compute. reflexivity.
  - subst a'. rewrite H3. vm_compute. reflexivity.
Defined.

(** X17.  What a fulfilled run adds to the history of the page depends
    on the reply alone: with a reply that is not empty, a user message
    and an avatar message that both carry the reply; with an empty
    reply, nothing.  Either way the page plays the audio of the
    reply. *)
Theorem page_history_after_fulfilled_run
    (env : AvatarService.Env) (now : N) (plays : bool) (i : nat)
    (audioBlob : Blob) (result : AvatarService.ProcessResult)
    (a : AvatarPage.App) :
  VoiceRecorder.inflight a !! i = Some audioBlob ->
  snd (AvatarService.run (AvatarService.processAudioInput env audioBlob))
  = Fulfilled result ->
  let a' := AvatarPage.step a
              {| AvatarPage.world := env; AvatarPage.now := now;
                 AvatarPage.event := AvatarPage.Settled i plays |} in
  AvatarPage.messages (VoiceRecorder.parent a')
  = AvatarPage.messages (VoiceRecorder.parent a)
    ++ (if truthy (AvatarService.aiResponse result) then
          [ {| AvatarPage.id := number_toString now ++ js "-user";
               AvatarPage.text := AvatarService.aiResponse result;
               AvatarPage.sender := AvatarPage.user;
               AvatarPage.timestamp := now |};
            {| AvatarPage.id := number_toString now ++ js "-avatar";
               AvatarPage.text := AvatarService.aiResponse result;
               AvatarPage.sender := AvatarPage.avatar;
               AvatarPage.timestamp := now |} ]
        else [])
  /\ AvatarPage.played (VoiceRecorder.parent a')
     = AvatarPage.played (VoiceRecorder.parent a)
       ++ [AvatarService.audioUrl result].
Proof.
  intros Hi Hrun a'. subst a'. unfold AvatarPage.step.
  cbn [AvatarPage.event AvatarPage.world AvatarPage.now].
  rewrite Hi, Hrun.
  unfold VoiceRecorder.handleSendAudio_settled. rewrite Hi.
  unfold AvatarPage.voiceRecorderProps.
  cbn [VoiceRecorder.onResponseReceived VoiceRecorder.onProcessingChange].
  unfold AvatarPage.handleAvatarResponse.
  cbn [AvatarPage.r_recognizedText AvatarPage.r_text AvatarPage.r_audioUrl
         VoiceRecorder.text VoiceRecorder.audioUrl].
  destruct (truthy (AvatarService.aiResponse result)); destruct plays;
    split; rewrite ?app_nil_r; reflexivity.
Qed.

Lemma page_history_after_fulfilled_run_witness :
  let env := Scenario.all_up Scenario.hello [] in
  let a' := AvatarPage.step Scenario.sending
              {| AvatarPage.world := env; AvatarPage.now := 7;
                 AvatarPage.event := AvatarPage.Settled 0 true |} in
  AvatarPage.messages (VoiceRecorder.parent a')
  = AvatarPage.messages (VoiceRecorder.parent Scenario.sending)
  /\ AvatarPage.played (VoiceRecorder.parent a')
     = AvatarPage.played (VoiceRecorder.parent Scenario.sending)
       ++ [js "blob:a1"].
Proof.
  intros env a'.
  assert (Hi : VoiceRecorder.inflight Scenario.sending !! 0%nat
               = Some Scenario.speech) by (vm_compute; reflexivity).
  assert (Hrun : snd (AvatarService.run
                        (AvatarService.processAudioInput env Scenario.speech))
                 = Fulfilled {| AvatarService.recognizedText := Scenario.hello;
                                AvatarService.aiResponse := [];
                                AvatarService.audioUrl := js "blob:a1" |})
    by (vm_compute; reflexivity).
  destruct (page_history_after_fulfilled_run env 7 true 0 Scenario.speech _
              Scenario.sending Hi Hrun) as [Hm Hp].
  cbn [truthy AvatarService.aiResponse] in Hm. rewrite app_nil_r in Hm.
  split; [exact Hm | exact Hp].
Defined.

(** ** The status panel *)

(** X18.  The status panel's check raises [isChecking] and lowers it
    only when the check of the service settles.  When every probe has
    settled, the panel shows one flag per service, each computed from
    that service's probe alone, with the time of the check; while a
    probe has not settled, the panel keeps what it showed and
    [isChecking] stays set. *)
Theorem status_panel_check
    (env : AvatarService.Env) (now : N) (s : ServiceStatus.State) :
  let probe := AvatarService.health_api env in
  ServiceStatus.checkServices env now s
  = if AvatarService.settles (probe AvatarService.backend_health)
       && AvatarService.settles (probe AvatarService.tts_health)
       && AvatarService.settles (probe AvatarService.sadtalker_health)
    then {| ServiceStatus.services :=
              {| AvatarService.backend :=
                   AvatarService.up (probe AvatarService.backend_health);
                 AvatarService.tts :=
                   AvatarService.up (probe AvatarService.tts_health);
                 AvatarService.sadtalker :=
                   AvatarService.up (probe AvatarService.sadtalker_health) |};
            ServiceStatus.isChecking := false;
            ServiceStatus.lastCheck := Some now |}
    else {| ServiceStatus.services := ServiceStatus.services s;
            ServiceStatus.isChecking := true;
            ServiceStatus.lastCheck := ServiceStatus.lastCheck s |}.
Proof.
  cbv zeta. unfold ServiceStatus.checkServices.
  rewrite checkServices_outcome.
  destruct (_ && _); reflexivity.
Qed.


(** ** Uploading photos *)

Section Photos.
Import PhotoUpload.

Variable props : Props.

Lemma validateFile_acceptable (file : File) :
  validateFile props file = None <-> acceptable props file = true.
Proof.
  unfold validateFile, acceptable.
  destruct (includes (acceptedFormats props) (type file)); cbn [negb andb].
  - destruct (max_size <? size file) eqn:E.
    + split; [discriminate|]. intros H. apply N.leb_le in H.
      apply N.ltb_lt in E. lia.
    + split; [|reflexivity]. intros _. apply N.leb_le.
      apply N.ltb_ge in E. exact E.
  - split; discriminate.
Qed.

(** The loop of [processFiles]: the photos it accepts are acceptable
    files of the batch, in the order of the batch, and together with
    the photos already uploaded they never exceed [maxFiles]; an error
    once collected stays. *)
Lemma processFile_loop (uploaded files : list File)
    (acc : list File * list jsstring) :
  Forall (fun f => acceptable props f = true) (fst acc) ->
  (fst acc <> [] ->
   N.of_nat (length uploaded + length (fst acc)) <= maxFiles props) ->
  let r := fold_left (processFile props uploaded) files acc in
  Forall (fun f => acceptable props f = true) (fst r)
  /\ (fst r <> [] ->
      N.of_nat (length uploaded + length (fst r)) <= maxFiles props)
  /\ (snd acc <> [] -> snd r <> [])
  /\ (exists added, fst r = fst acc ++ added /\ sublist added files).
Proof.
  revert acc. induction files as [|file files IH]; intros [np errs] Hacc Hlen.
  - cbn. repeat split; try assumption; try (intros H; exact H).
    exists []. rewrite app_nil_r. split; [reflexivity|constructor].
  - cbn [fold_left]. cbn [fst snd] in *.
    assert (Hstep : processFile props uploaded (np, errs) file
              = match validateFile props file with
                | Some validationError =>
                    (np, errs ++ [name file ++ js ": " ++ validationError])
                | None =>
                    if maxFiles props <=? N.of_nat (length uploaded + length np)
                    then (np, errs ++ [js "Максимальное количество файлов: "
                                       ++ number_toString (maxFiles props)])
                    else (np ++ [file], errs)
                end) by reflexivity.
    rewrite Hstep. clear Hstep.
    destruct (validateFile props file) as [e|] eqn:Ev.
    + destruct (IH (np, errs ++ [name file ++ js ": " ++ e]) Hacc Hlen)
        as (H1 & H2 & H3 & added & H4 & H5).
      cbv zeta. split; [exact H1|]. split; [exact H2|]. split.
      * intros _. apply H3. cbn [snd]. intros H.
        apply app_eq_nil in H as [_ H]. discriminate.
      * exists added. split; [exact H4|]. apply sublist_cons. exact H5.
    + destruct (maxFiles props <=? N.of_nat (length uploaded + length np)) eqn:El.
      * destruct (IH (np, errs ++ [js "Максимальное количество файлов: "
                                    ++ number_toString (maxFiles props)])
                    Hacc Hlen) as (H1 & H2 & H3 & added & H4 & H5).
        cbv zeta. split; [exact H1|]. split; [exact H2|]. split.
        -- intros _. apply H3. cbn [snd]. intros H.
           apply app_eq_nil in H as [_ H]. discriminate.
        -- exists added. split; [exact H4|]. apply sublist_cons. exact H5.
      * apply N.leb_gt in El.
        assert (Hacc' : Forall (fun f => acceptable props f = true) (np ++ [file])).
        { apply Forall_app. split; [exact Hacc|]. constructor; [|constructor].
          apply validateFile_acceptable, Ev. }
        assert (Hlen' : np ++ [file] <> [] ->
                        N.of_nat (length uploaded + length (np ++ [file]))
                        <= maxFiles props).
        { intros _. rewrite length_app. cbn [length]. lia. }
        destruct (IH (np ++ [file], errs) Hacc' Hlen')
          as (H1 & H2 & H3 & added & H4 & H5).
        cbv zeta. split; [exact H1|]. split; [exact H2|]. split; [exact H3|].
        exists (file :: added). cbn [fst] in *. split.
        -- rewrite H4, <- app_assoc. reflexivity.
        -- apply sublist_skip. exact H5.
Qed.

Lemma filter_indexed_is_delete {A} (index : nat) (l : list A) (i : nat) :
  filter_indexed (fun j => negb (j =? i + index)%nat) i l = delete index l.
Proof.
  revert index i. induction l as [|x l IH]; intros index i; [reflexivity|].
  cbn [filter_indexed]. destruct index as [|index].
  - rewrite Nat.add_0_r, Nat.eqb_refl. cbn [negb].
    change (delete 0%nat (x :: l)) with l.
    assert (Hk : forall k (l' : list A), (i < k)%nat ->
               filter_indexed (fun j => negb (j =? i)%nat) k l' = l').
    { intros k l'. revert k. induction l' as [|y l' IHl]; intros k Hk;
        [reflexivity|].
      cbn [filter_indexed].
      destruct (k =? i)%nat eqn:E; [apply Nat.eqb_eq in E; lia|].
      cbn [negb]. rewrite IHl by lia. reflexivity. }
    apply Hk. lia.
  - destruct (i =? i + S index)%nat eqn:E; [apply Nat.eqb_eq in E; lia|].
    cbn [negb]. change (delete (S index) (x :: l)) with (x :: delete index l).
    f_equal. rewrite <- (IH index (S i)).
    replace (S i + index)%nat with (i + S index)%nat by lia. reflexivity.
Qed.

Lemma delete_past_end {A} (index : nat) (l : list A) :
  (length l <= index)%nat -> delete index l = l.
Proof.
  revert index. induction l as [|x l IH]; intros index H; [reflexivity|].
  destruct index as [|index]; cbn [length] in H; [lia|].
  change (delete (S index) (x :: l)) with (x :: delete index l).
  rewrite IH by lia. reflexivity.
Qed.

Lemma filter_index_is_delete {A} (index : nat) (l : list A) :
  filter_indexed (fun i => negb (i =? index)%nat) 0 l = delete index l.
Proof. exact (filter_indexed_is_delete index l 0). Qed.

Lemma processFiles_ok (files : list File) (s : State) :
  photos_ok props s -> photos_ok props (processFiles props files s).
Proof.
  intros [Hlen Hall]. unfold processFiles.
  pose proof (processFile_loop (uploadedPhotos s) files ([], [])) as H.
  cbn [fst snd] in H.
  specialize (H (Forall_nil_2 _) (fun K => False_ind _ (K eq_refl))).
  cbv zeta in H.
  destruct (fold_left _ files _) as [np errs]. cbn [fst snd] in H.
  destruct H as (H1 & H2 & _ & _).
  destruct errs as [|e errs]; [|split; assumption].
  destruct np as [|p np]; [split; assumption|].
  split; cbn.
  - rewrite length_app. apply H2. discriminate.
  - apply Forall_app. split; assumption.
Qed.

Lemma delete_ok (index : nat) (l : list File) :
  Forall (fun f => acceptable props f = true) l ->
  Forall (fun f => acceptable props f = true) (delete index l)
  /\ (length (delete index l) <= length l)%nat.
Proof.
  intros H. split.
  - apply Forall_delete, H.
  - apply sublist_length, sublist_delete.
Qed.

Lemma act_ok (a : Action) (s : State) :
  photos_ok props s -> photos_ok props (act props s a).
Proof.
  intros H. destruct a as [e|files|files|result|index]; cbn [act].
  - destruct e; exact H.
  - unfold handleDrop. cbv zeta. destruct files; [exact H|].
    apply processFiles_ok. exact H.
  - unfold handleFileInput. destruct files; [exact H|].
    apply processFiles_ok. exact H.
  - unfold reader_onload. destruct result as [url|]; [|exact H].
    destruct (truthy url); exact H.
  - destruct H as [Hlen Hall]. unfold removePhoto, photos_ok. cbn.
    rewrite filter_index_is_delete.
    destruct (delete_ok index _ Hall) as [Hd Hl]. split; [lia|exact Hd].
Qed.

(** An error is collected as soon as a file of the batch does not pass
    [validateFile]. *)
Lemma processFile_loop_bad (uploaded files : list File)
    (acc : list File * list jsstring) :
  Exists (fun f => acceptable props f = false) files \/ snd acc <> [] ->
  snd (fold_left (processFile props uploaded) files acc) <> [].
Proof.
  revert acc. induction files as [|file files IH]; intros [np errs] H.
  - destruct H as [H|H]; [inversion H|exact H].
  - cbn [fold_left]. apply IH.
    assert (Hstep : processFile props uploaded (np, errs) file
              = match validateFile props file with
                | Some validationError =>
                    (np, errs ++ [name file ++ js ": " ++ validationError])
                | None =>
                    if maxFiles props <=? N.of_nat (length uploaded + length np)
                    then (np, errs ++ [js "Максимальное количество файлов: "
                                       ++ number_toString (maxFiles props)])
                    else (np ++ [file], errs)
                end) by reflexivity.
    rewrite Hstep. clear Hstep.
    destruct H as [H|H].
    + inversion H as [? ? Hbad|? ? Hrest]; subst.
      * destruct (validateFile props file) as [e|] eqn:Ev.
        -- right. cbn [snd]. intros K. apply app_eq_nil in K as [_ K].
           discriminate.
        -- apply validateFile_acceptable in Ev. congruence.
      * left. exact Hrest.
    + right. cbn [snd] in H.
      destruct (validateFile props file);
        [|destruct (maxFiles props <=? _)]; cbn [snd];
        try exact H; intros K; apply app_eq_nil in K as [K _]; contradiction.
Qed.

(** With acceptable files only, the batch is taken whole when it fits
    and collects an error when it does not. *)
Lemma processFile_loop_good (uploaded files : list File)
    (acc : list File * list jsstring) :
  Forall (fun f => acceptable props f = true) files ->
  N.of_nat (length uploaded + length (fst acc)) <= maxFiles props ->
  let r := fold_left (processFile props uploaded) files acc in
  (N.of_nat (length uploaded + length (fst acc) + length files)
   <= maxFiles props -> r = (fst acc ++ files, snd acc))
  /\ (maxFiles props
       < N.of_nat (length uploaded + length (fst acc) + length files) ->
       snd r <> []).
Proof.
  revert acc. induction files as [|file files IH]; intros [np errs] Hall Hinv.
  - cbn [fst snd fold_left length] in *. split.
    + intros _. rewrite app_nil_r. reflexivity.
    + intros H. lia.
  - inversion Hall as [|? ? Hf Hall']; subst.
    cbn [fold_left fst snd].
    assert (Hstep : processFile props uploaded (np, errs) file
              = if maxFiles props <=? N.of_nat (length uploaded + length np)
                then (np, errs ++ [js "Максимальное количество файлов: "
                                   ++ number_toString (maxFiles props)])
                else (np ++ [file], errs)).
    { unfold processFile.
      apply validateFile_acceptable in Hf. rewrite Hf. reflexivity. }
    rewrite Hstep. clear Hstep. cbv zeta.
    destruct (maxFiles props <=? N.of_nat (length uploaded + length np)) eqn:El.
    + apply N.leb_le in El. split.
      * intros H. cbn [length] in H. lia.
      * intros _. apply processFile_loop_bad. right. cbn [snd].
        intros K. apply app_eq_nil in K as [_ K]. discriminate.
    + apply N.leb_gt in El.
      assert (Hinv' : N.of_nat (length uploaded + length (np ++ [file]))
                      <= maxFiles props)
        by (rewrite length_app; cbn [length]; lia).
      destruct (IH (np ++ [file], errs) Hall' Hinv') as [H1 H2].
      cbn [fst snd] in H1, H2. rewrite length_app in H1, H2.
      cbn [length] in *. split.
      * intros H. rewrite H1 by lia. rewrite <- app_assoc. reflexivity.
      * intros H. apply H2. lia.
Qed.

Lemma acts_ok (l : list Action) (s : State) :
  photos_ok props s -> photos_ok props (acts props s l).
Proof.
  revert s. induction l as [|a l IH]; intros s H; [exact H|].
  unfold acts. cbn [fold_left]. apply IH, act_ok, H.
Qed.

(** A batch of acceptable files that fits is added whole. *)
Lemma processFiles_adds (files : list File) (s : State) :
  files <> [] ->
  Forall (fun f => acceptable props f = true) files ->
  N.of_nat (length (uploadedPhotos s) + length files) <= maxFiles props ->
  let s' := processFiles props files s in
  uploadedPhotos s' = uploadedPhotos s ++ files
  /\ notified s' = notified s ++ [uploadedPhotos s ++ files]
  /\ error s' = None.
Proof.
  intros Hne Hall Hlen s'. subst s'. unfold processFiles.
  assert (Hinv : N.of_nat (length (uploadedPhotos s) + 0) <= maxFiles props)
    by lia.
  destruct (processFile_loop_good (uploadedPhotos s) files ([], []) Hall Hinv)
    as [H _].
  cbn [fst snd length] in H. rewrite Nat.add_0_r in H.
  rewrite (H Hlen). cbn [app].
  destruct files as [|f files]; [contradiction|]. repeat split.
Qed.

End Photos.

(** X19.  However photos are dropped, chosen and removed, the photos
    held by the upload component never exceed [maxFiles], and each of
    them is of an accepted format and of at most 10 MB. *)
Theorem uploaded_photos_stay_valid
    (props : PhotoUpload.Props)
    (l : list PhotoUpload.Action) :
  let s := PhotoUpload.acts props PhotoUpload.initial l in
  N.of_nat (length (PhotoUpload.uploadedPhotos s)) <= PhotoUpload.maxFiles props
  /\ Forall (fun f =>
               PhotoUpload.includes (PhotoUpload.acceptedFormats props)
                 (PhotoUpload.type f) = true
               /\ PhotoUpload.size f <= 10 * 1024 * 1024)
        (PhotoUpload.uploadedPhotos s).
Proof.
  assert (H0 : PhotoUpload.photos_ok props PhotoUpload.initial).
  { split; [cbn; lia | constructor]. }
  destruct (acts_ok props l _ H0) as [Hlen Hall].
  split; [exact Hlen|].
  eapply Forall_impl; [exact Hall|].
  intros f Hf. cbv beta in Hf. unfold PhotoUpload.acceptable in Hf.
  apply andb_prop in Hf as [H1 H2]. split; [exact H1|].
  apply N.leb_le in H2. exact H2.
Qed.

(** X20.  A batch is taken whole or not at all.  When one of its files
    is of a format that is not accepted or is larger than 10 MB, or
    when its files, all acceptable, would not fit within [maxFiles],
    no photo of the batch is added: the photos stay as they were, the
    parent is not notified and an error is shown. *)
Theorem batch_is_rejected_whole
    (props : PhotoUpload.Props)
    (files : list PhotoUpload.File) (s : PhotoUpload.State) :
  Exists (fun f => PhotoUpload.acceptable props f = false) files
  \/ (Forall (fun f => PhotoUpload.acceptable props f = true) files
      /\ N.of_nat (length (PhotoUpload.uploadedPhotos s))
         <= PhotoUpload.maxFiles props
         < N.of_nat (length (PhotoUpload.uploadedPhotos s) + length files)) ->
  let s' := PhotoUpload.processFiles props files s in
  PhotoUpload.uploadedPhotos s' = PhotoUpload.uploadedPhotos s
  /\ PhotoUpload.notified s' = PhotoUpload.notified s
  /\ PhotoUpload.previews s' = PhotoUpload.previews s
  /\ exists message, PhotoUpload.error s' = Some message.
Proof.
  intros H s'. subst s'. unfold PhotoUpload.processFiles.
  assert (He : snd (fold_left (PhotoUpload.processFile props
                                 (PhotoUpload.uploadedPhotos s)) files ([], []))
               <> []).
  { destruct H as [H|[Hall [Hinv Hlen]]].
    - apply processFile_loop_bad. left. exact H.
    - apply (processFile_loop_good props _ files ([], []) Hall);
        cbn [fst length]; rewrite Nat.add_0_r; assumption. }
  destruct (fold_left _ files _) as [np errs]. cbn [snd] in He.
  destruct errs as [|e errs]; [contradiction|].
  repeat split. eexists. reflexivity.
Qed.

(** X21.  A batch of acceptable files that fits within [maxFiles] is
    added whole, in its order, after the photos already there; the
    parent is handed the new list and the error is cleared. *)
Theorem batch_is_added_whole
    (props : PhotoUpload.Props)
    (files : list PhotoUpload.File) (s : PhotoUpload.State) :
  files <> [] ->
  Forall (fun f => PhotoUpload.acceptable props f = true) files ->
  N.of_nat (length (PhotoUpload.uploadedPhotos s) + length files)
  <= PhotoUpload.maxFiles props ->
  let s' := PhotoUpload.processFiles props files s in
  PhotoUpload.uploadedPhotos s' = PhotoUpload.uploadedPhotos s ++ files
  /\ PhotoUpload.notified s'
     = PhotoUpload.notified s ++ [PhotoUpload.uploadedPhotos s ++ files]
  /\ PhotoUpload.error s' = None.
Proof. exact (processFiles_adds props files s). Qed.

(** X22.  [removePhoto] removes exactly the photo at the index and the
    preview at the same index, each list by its own length, and hands
    the parent the new list of photos.  With an index within the
    photos they are one fewer; with an index past their end they stay
    as they were, and the parent is called all the same.  The previews
    follow their own length: a preview at the index is removed also
    when no photo is there, and they stay as they were only with an
    index past their own end. *)
Theorem removePhoto_deletes_at_index
    (index : nat) (s : PhotoUpload.State) :
  let s' := PhotoUpload.removePhoto index s in
  PhotoUpload.uploadedPhotos s' = delete index (PhotoUpload.uploadedPhotos s)
  /\ PhotoUpload.previews s' = delete index (PhotoUpload.previews s)
  /\ PhotoUpload.notified s'
     = PhotoUpload.notified s ++ [delete index (PhotoUpload.uploadedPhotos s)]
  /\ ((index < length (PhotoUpload.uploadedPhotos s))%nat ->
      S (length (PhotoUpload.uploadedPhotos s'))
      = length (PhotoUpload.uploadedPhotos s))
  /\ ((length (PhotoUpload.uploadedPhotos s) <= index)%nat ->
      PhotoUpload.uploadedPhotos s' = PhotoUpload.uploadedPhotos s)
  /\ ((index < length (PhotoUpload.previews s))%nat ->
      S (length (PhotoUpload.previews s')) = length (PhotoUpload.previews s))
  /\ ((length (PhotoUpload.previews s) <= index)%nat ->
      PhotoUpload.previews s' = PhotoUpload.previews s).
Proof.
  cbv zeta. unfold PhotoUpload.removePhoto. cbn.
  rewrite !filter_index_is_delete.
  split; [reflexivity|]. split; [reflexivity|]. split; [reflexivity|].
  split; [|split; [|split]].
  - intros H. rewrite length_delete by (apply lookup_lt_is_Some; exact H). lia.
  - intros H. apply delete_past_end. exact H.
  - intros H. rewrite length_delete by (apply lookup_lt_is_Some; exact H). lia.
  - intros H. apply delete_past_end. exact H.
Qed.

(** X23.  A rejected batch has nevertheless started a reader on the
    files it had accepted: with acceptable files that fit, followed by
    a file that is not acceptable, no photo is added, but a reader is
    started on each of the acceptable files, and when one of them has
    loaded its preview is shown although its photo is not held. *)
Theorem rejected_batch_still_reads
    (props : PhotoUpload.Props) (good rest : list PhotoUpload.File)
    (bad : PhotoUpload.File) (s : PhotoUpload.State) :
  Forall (fun f => PhotoUpload.acceptable props f = true) good ->
  PhotoUpload.acceptable props bad = false ->
  N.of_nat (length (PhotoUpload.uploadedPhotos s) + length good)
  <= PhotoUpload.maxFiles props ->
  let s' := PhotoUpload.processFiles props (good ++ bad :: rest) s in
  PhotoUpload.uploadedPhotos s' = PhotoUpload.uploadedPhotos s
  /\ (exists more,
        PhotoUpload.reading s' = PhotoUpload.reading s ++ good ++ more
        /\ sublist more rest)
  /\ forall url, truthy url = true ->
       let s'' := PhotoUpload.reader_onload (Some url) s' in
       PhotoUpload.previews s'' = PhotoUpload.previews s ++ [url]
       /\ PhotoUpload.uploadedPhotos s'' = PhotoUpload.uploadedPhotos s.
Proof.
  intros Hgood Hbad Hlen s'. subst s'. unfold PhotoUpload.processFiles.
  rewrite fold_left_app.
  assert (Hinv : N.of_nat (length (PhotoUpload.uploadedPhotos s) + 0)
                 <= PhotoUpload.maxFiles props) by lia.
  destruct (processFile_loop_good props (PhotoUpload.uploadedPhotos s)
              good ([], []) Hgood Hinv) as [H _].
  cbn [fst snd length] in H. rewrite Nat.add_0_r in H.
  rewrite (H Hlen). cbn [app fold_left]. clear H Hinv.
  assert (Hstep : exists e,
            PhotoUpload.processFile props (PhotoUpload.uploadedPhotos s)
              (good, []) bad = (good, [e])).
  { unfold PhotoUpload.processFile.
    destruct (PhotoUpload.validateFile props bad) as [e|] eqn:Ev.
    - eexists. reflexivity.
    - apply validateFile_acceptable in Ev. congruence. }
  destruct Hstep as [e Hstep]. rewrite Hstep.
  assert (Hacc : Forall (fun f => PhotoUpload.acceptable props f = true)
                   (fst (good, [e]))) by exact Hgood.
  assert (Hl : fst (good, [e]) <> [] ->
               N.of_nat (length (PhotoUpload.uploadedPhotos s)
                         + length (fst (good, [e])))
               <= PhotoUpload.maxFiles props) by (intros _; exact Hlen).
  destruct (processFile_loop props (PhotoUpload.uploadedPhotos s) rest
              (good, [e]) Hacc Hl) as (_ & _ & H3 & more & H4 & H5).
  destruct (fold_left _ rest _) as [np errs]. cbn [fst snd] in H3, H4.
  destruct errs as [|e' errs]; [exfalso; apply H3; [discriminate|reflexivity]|].
  subst np. split; [reflexivity|]. split.
  - exists more. split; [reflexivity|exact H5].
  - intros url Hurl. cbv zeta. unfold PhotoUpload.reader_onload.
    rewrite Hurl. split; reflexivity.
Qed.

Lemma batch_is_rejected_whole_witness :
  let photo := {| PhotoUpload.name := js "face.png";
                  PhotoUpload.type := js "image/png";
                  PhotoUpload.size := 200000 |} in
  let notes := {| PhotoUpload.name := js "notes.txt";
                  PhotoUpload.type := js "text/plain";
                  PhotoUpload.size := 120 |} in
  let s' := PhotoUpload.processFiles PhotoUpload.default_props
              [photo; notes] PhotoUpload.initial in
  PhotoUpload.uploadedPhotos s' = []
  /\ PhotoUpload.notified s' = []
  /\ exists message, PhotoUpload.error s' = Some message.
Proof.
  intros photo notes s'.
  assert (H : Exists (fun f => PhotoUpload.acceptable PhotoUpload.default_props f
                               = false) [photo; notes]).
  { apply Exists_cons_tl, Exists_cons_hd. vm_compute. reflexivity. }
  destruct (batch_is_rejected_whole PhotoUpload.default_props [photo; notes]
              PhotoUpload.initial (or_introl H)) as (H1 & H2 & _ & H4).
  split; [exact H1|]. split; [exact H2|exact H4].
Defined.

Lemma batch_is_added_whole_witness :
  let photo := {| PhotoUpload.name := js "face.png";
                  PhotoUpload.type := js "image/png";
                  PhotoUpload.size := 200000 |} in
  let side := {| PhotoUpload.name := js "side.jpg";
                 PhotoUpload.type := js "image/jpeg";
                 PhotoUpload.size := 10 * 1024 * 1024 |} in
  let s' := PhotoUpload.processFiles PhotoUpload.default_props
              [photo; side] PhotoUpload.initial in
  PhotoUpload.uploadedPhotos s' = [photo; side]
  /\ PhotoUpload.notified s' = [[photo; side]]
  /\ PhotoUpload.error s' = None.
Proof.
  intros photo side s'.
  assert (Hne : [photo; side] <> []) by discriminate.
  assert (Hall : Forall (fun f => PhotoUpload.acceptable PhotoUpload.default_props f
                                  = true) [photo; side])
    by (repeat constructor; vm_compute; reflexivity).
  assert (Hlen : N.of_nat (length (PhotoUpload.uploadedPhotos PhotoUpload.initial)
                           + length [photo; side])
                 <= PhotoUpload.maxFiles PhotoUpload.default_props)
    by (vm_compute; discriminate).
  exact (batch_is_added_whole PhotoUpload.default_props [photo; side]
           PhotoUpload.initial Hne Hall Hlen).
Defined.

Lemma rejected_batch_still_reads_witness :
  let photo := {| PhotoUpload.name := js "face.png";
                  PhotoUpload.type := js "image/png";
                  PhotoUpload.size := 200000 |} in
  let large := {| PhotoUpload.name := js "large.png";
                  PhotoUpload.type := js "image/png";
                  PhotoUpload.size := 10 * 1024 * 1024 + 1 |} in
  let s' := PhotoUpload.processFiles PhotoUpload.default_props
              [photo; large] PhotoUpload.initial in
  let s'' := PhotoUpload.reader_onload (Some (js "data:image/png;base64,AA")) s' in
  PhotoUpload.uploadedPhotos s'' = []
  /\ PhotoUpload.previews s'' = [js "data:image/png;base64,AA"].
Proof.
  intros photo large s' s''.
  assert (Hgood : Forall (fun f => PhotoUpload.acceptable PhotoUpload.default_props f
                                   = true) [photo])
    by (repeat constructor; vm_compute; reflexivity).
  assert (Hbad : PhotoUpload.acceptable PhotoUpload.default_props large = false)
    by (vm_compute; reflexivity).
  assert (Hlen : N.of_nat (length (PhotoUpload.uploadedPhotos PhotoUpload.initial)
                           + length [photo])
                 <= PhotoUpload.maxFiles PhotoUpload.default_props)
    by (vm_compute; discriminate).
  destruct (rejected_batch_still_reads PhotoUpload.default_props [photo] []
              large PhotoUpload.initial Hgood Hbad Hlen) as (_ & _ & H).
  assert (Hurl : truthy (js "data:image/png;base64,AA") = true)
    by (vm_compute; reflexivity).
  destruct (H _ Hurl) as [H1 H2]. split; [exact H2|exact H1].
Defined.

(** ** The settings page *)

Section Settings.
Import AvatarSettings.

(** The upload component calls [onPhotosUploaded] at most once per
    action, with the photos it then holds; without a call its photos
    stay as they were. *)
Lemma act_notifies (props : PhotoUpload.Props) (a : PhotoUpload.Action)
    (c : PhotoUpload.State) :
  let c' := PhotoUpload.act props c a in
  (PhotoUpload.notified c' = PhotoUpload.notified c
   /\ PhotoUpload.uploadedPhotos c' = PhotoUpload.uploadedPhotos c)
  \/ PhotoUpload.notified c'
     = PhotoUpload.notified c ++ [PhotoUpload.uploadedPhotos c'].
Proof.
  assert (Hp : forall files c0,
            let c' := PhotoUpload.processFiles props files c0 in
            (PhotoUpload.notified c' = PhotoUpload.notified c0
             /\ PhotoUpload.uploadedPhotos c' = PhotoUpload.uploadedPhotos c0)
            \/ PhotoUpload.notified c'
               = PhotoUpload.notified c0 ++ [PhotoUpload.uploadedPhotos c']).
  { intros files c0. cbv zeta. unfold PhotoUpload.processFiles.
    destruct (fold_left _ files _) as [np errs].
    destruct errs as [|e errs]; [|left; split; reflexivity].
    destruct np as [|p np]; [left; split; reflexivity|].
    right. reflexivity. }
  cbv zeta. destruct a as [e|files|files|result|index]; cbn [PhotoUpload.act].
  - left. destruct e; split; reflexivity.
  - unfold PhotoUpload.handleDrop. cbv zeta.
    destruct files as [|f files]; [left; split; reflexivity|].
    exact (Hp (f :: files) (PhotoUpload.setDragActive false c)).
  - unfold PhotoUpload.handleFileInput.
    destruct files as [|f files]; [left; split; reflexivity|].
    exact (Hp (f :: files) c).
  - left. unfold PhotoUpload.reader_onload.
    destruct result as [url|]; [|split; reflexivity].
    destruct (truthy url); split; reflexivity.
  - right. reflexivity.
Qed.

Lemma drop_length_app {A} (l more : list A) : drop (length l) (l ++ more) = more.
Proof. induction l as [|x l IH]; [destruct more; reflexivity|exact IH]. Qed.

(** What an action of the upload component does to the page. *)
Lemma photoUpload_act_cases (a : PhotoUpload.Action) (c : PhotoUpload.State)
    (s : State) :
  photoUpload s = Some c ->
  let c' := PhotoUpload.act photoUpload_props c a in
  (photoUpload_act a s = set_photoUpload (Some c') s
   /\ PhotoUpload.uploadedPhotos c' = PhotoUpload.uploadedPhotos c)
  \/ photoUpload_act a s
     = handlePhotosUploaded (PhotoUpload.uploadedPhotos c')
         (set_photoUpload (Some c') s).
Proof.
  intros Hc. cbv zeta. unfold photoUpload_act. rewrite Hc. cbv zeta.
  destruct (act_notifies photoUpload_props a c) as [[Hn Hu]|Hn].
  - left. rewrite Hn, drop_all. split; [reflexivity|exact Hu].
  - right. rewrite Hn, drop_length_app. reflexivity.
Qed.

Lemma initial_photos_ok (props : PhotoUpload.Props) :
  PhotoUpload.photos_ok props PhotoUpload.initial.
Proof. split; [cbn; lia|constructor]. Qed.

Lemma setActiveTab_ok (tab : Tab) (s : State) :
  settings_ok s -> settings_ok (setActiveTab tab s).
Proof.
  intros (H1 & H2 & H3 & H4 & H5).
  split; [exact H1|]. split; [exact H2|]. split; [|split; assumption].
  intros c Hc. cbn [photoUpload setActiveTab] in Hc.
  destruct tab, (activeTab s); try discriminate;
    try (apply (H3 _ Hc)); injection Hc as <-; apply initial_photos_ok.
Qed.

Lemma act_settings_ok (a : Action) (s : State) :
  settings_ok s -> settings_ok (act s a).
Proof.
  intros Hs. destruct a as [tab| |a|field value| |i throws]; cbn [act].
  - apply setActiveTab_ok, Hs.
  - destruct (isSaving s); [exact Hs|]. apply setActiveTab_ok, Hs.
  - destruct (photoUpload s) as [c|] eqn:Hc;
      [|unfold photoUpload_act; rewrite Hc; exact Hs].
    destruct Hs as (H1 & H2 & H3 & H4 & H5).
    pose proof (act_ok photoUpload_props a c (H3 c Hc)) as Hc'.
    destruct (photoUpload_act_cases a c s Hc) as [[-> _]| ->].
    + split; [exact H1|]. split; [exact H2|]. split; [|split; assumption].
      intros c0 E. injection E as <-. exact Hc'.
    + destruct Hc' as [Hl Ha].
      split; [|split; [exact Ha|split; [|split; assumption]]].
      * cbn. change (PhotoUpload.maxFiles photoUpload_props) with 5 in Hl. lia.
      * intros c0 E. injection E as <-. split; assumption.
  - destruct Hs as (H1 & H2 & H3 & H4 & H5).
    split; [exact H1|]. split; [exact H2|]. split; [exact H3|]. split; assumption.
  - destruct (isSaving s); cbn [orb]; [exact Hs|].
    destruct (length (photos (settings s)) =? 0)%nat eqn:E; [exact Hs|].
    unfold handleSave. rewrite E. apply Nat.eqb_neq in E.
    destruct Hs as (H1 & H2 & H3 & H4 & H5).
    split; [exact H1|]. split; [exact H2|]. split; [exact H3|].
    split; [|exact H5].
    cbn. apply Forall_app. split; [exact H4|].
    constructor; [|constructor]. split; [lia|exact H2].
  - unfold handleSave_resumed.
    destruct (saving s !! i) as [v|] eqn:E; [|exact Hs].
    destruct Hs as (H1 & H2 & H3 & H4 & H5).
    assert (Hv : photos_valid v)
      by (eapply Forall_lookup_1; [exact H4|exact E]).
    assert (Hsaved : Forall photos_valid (saved s ++ [v])).
    { apply Forall_app. split; [exact H5|]. constructor; [exact Hv|constructor]. }
    cbv zeta. destruct throws;
      (split; [exact H1|]; split; [exact H2|]; split; [exact H3|];
       split; [apply Forall_delete; exact H4|exact Hsaved]).
Qed.

Lemma acts_settings_ok (l : list Action) (s : State) :
  settings_ok s -> settings_ok (acts s l).
Proof.
  revert s. induction l as [|a l IH]; intros s H; [exact H|].
  unfold acts. cbn [fold_left]. apply IH, act_settings_ok, H.
Qed.

Lemma initial_settings_ok : settings_ok initial.
Proof.
  split; [cbn; lia|]. split; [constructor|]. split; [|split; constructor].
  intros c E. injection E as <-. apply initial_photos_ok.
Qed.

Lemma act_in_step (a : Action) (s : State) :
  leaves_photos_tab a = false -> in_step s -> in_step (act s a).
Proof.
  intros Ha (c & Hc & Ht & Hp).
  destruct a as [tab| |a|field value| |i throws]; cbn [act].
  - destruct tab; try discriminate. exists c. cbn. rewrite Ht. auto.
  - destruct (isSaving s); [exists c; auto|]. exists c. cbn. rewrite Ht. auto.
  - destruct (photoUpload_act_cases a c s Hc) as [[-> Hu]| ->].
    + eexists. split; [reflexivity|]. split; [exact Ht|]. cbn. congruence.
    + eexists. split; [reflexivity|]. split; [exact Ht|]. reflexivity.
  - exists c. auto.
  - destruct (isSaving s || _); [exists c; auto|]. unfold handleSave.
    destruct (_ =? _)%nat; exists c; auto.
  - unfold handleSave_resumed. destruct (saving s !! i); [|exists c; auto].
    cbv zeta. destruct throws; exists c; auto.
Qed.

End Settings.

(** X24.  Whatever is done on the settings page, the settings handed
    to [onSettingsSaved] hold at least one photo and at most five, each
    of an accepted format and of at most 10 MB. *)
Theorem saved_settings_hold_valid_photos (l : list AvatarSettings.Action) :
  let s := AvatarSettings.acts AvatarSettings.initial l in
  Forall (fun v =>
            (1 <= length (AvatarSettings.photos v) <= 5)%nat
            /\ Forall (fun f =>
                         PhotoUpload.includes
                           [js "image/jpeg"; js "image/png"; js "image/webp"]
                           (PhotoUpload.type f) = true
                         /\ PhotoUpload.size f <= 10 * 1024 * 1024)
                 (AvatarSettings.photos v))
    (AvatarSettings.saved s).
Proof.
  cbv zeta.
  destruct (acts_settings_ok l _ initial_settings_ok) as (_ & _ & _ & _ & H).
  eapply Forall_impl; [exact H|].
  intros v [Hl Hv]. split; [exact Hl|].
  eapply Forall_impl; [exact Hv|].
  intros f Hf. cbv beta in Hf. unfold PhotoUpload.acceptable in Hf.
  apply andb_prop in Hf as [H1 H2]. split; [exact H1|].
  apply N.leb_le in H2. exact H2.
Qed.

(** X25.  As long as the photos tab is not left, the photos of the
    settings are the photos the upload component holds. *)
Theorem settings_photos_mirror_upload (l : list AvatarSettings.Action) :
  forallb (fun a => negb (AvatarSettings.leaves_photos_tab a)) l = true ->
  let s := AvatarSettings.acts AvatarSettings.initial l in
  exists c, AvatarSettings.photoUpload s = Some c
            /\ AvatarSettings.photos (AvatarSettings.settings s)
               = PhotoUpload.uploadedPhotos c.
Proof.
  intros Hl. cbv zeta.
  assert (H : AvatarSettings.in_step (AvatarSettings.acts AvatarSettings.initial l)).
  { assert (H0 : AvatarSettings.in_step AvatarSettings.initial)
      by (eexists; repeat split; reflexivity).
    revert H0. generalize AvatarSettings.initial.
    induction l as [|a l IH]; intros s H0; [exact H0|].
    cbn [forallb] in Hl. apply andb_prop in Hl as [Ha Hl].
    unfold AvatarSettings.acts. cbn [fold_left]. apply (IH Hl).
    apply act_in_step; [|exact H0]. destruct (AvatarSettings.leaves_photos_tab a);
      [discriminate|reflexivity]. }
  destruct H as (c & Hc & _ & Hp). exists c. split; assumption.
Qed.

(** X26.  Leaving the photos tab and coming back forgets the uploaded
    photos in the upload component but not in the settings: the
    component is mounted anew without photos, the settings keep
    theirs, and the next batch that is accepted replaces them. *)
Theorem tab_switch_forgets_uploaded_photos
    (s : AvatarSettings.State) (tab : AvatarSettings.Tab)
    (files : list PhotoUpload.File) :
  tab <> AvatarSettings.Tab_photos ->
  files <> [] ->
  (length files <= 5)%nat ->
  Forall (fun f => PhotoUpload.acceptable AvatarSettings.photoUpload_props f
                   = true) files ->
  let back := AvatarSettings.acts s
                [AvatarSettings.ClickTab tab;
                 AvatarSettings.ClickTab AvatarSettings.Tab_photos] in
  let s' := AvatarSettings.act back
              (AvatarSettings.Upload (PhotoUpload.FileInput files)) in
  AvatarSettings.photoUpload back = Some PhotoUpload.initial
  /\ AvatarSettings.photos (AvatarSettings.settings back)
     = AvatarSettings.photos (AvatarSettings.settings s)
  /\ AvatarSettings.photos (AvatarSettings.settings s') = files.
Proof.
  intros Ht Hne Hlen Hall back s'.
  assert (Hb : AvatarSettings.photoUpload back = Some PhotoUpload.initial).
  { subst back. cbn. destruct tab; [contradiction|reflexivity|reflexivity]. }
  split; [exact Hb|]. split; [reflexivity|].
  subst s'. cbn [AvatarSettings.act].
  unfold AvatarSettings.photoUpload_act. rewrite Hb. cbv zeta.
  cbn [PhotoUpload.act]. unfold PhotoUpload.handleFileInput.
  assert (Hm : match files with
               | _ :: _ => PhotoUpload.processFiles
                             AvatarSettings.photoUpload_props files
                             PhotoUpload.initial
               | [] => PhotoUpload.initial
               end
               = PhotoUpload.processFiles AvatarSettings.photoUpload_props
                   files PhotoUpload.initial)
    by (destruct files; [contradiction|reflexivity]).
  rewrite Hm. clear Hm.
  assert (Hfit : N.of_nat (length (PhotoUpload.uploadedPhotos PhotoUpload.initial)
                           + length files)
                 <= PhotoUpload.maxFiles AvatarSettings.photoUpload_props).
  { cbn [PhotoUpload.uploadedPhotos PhotoUpload.initial length].
    change (PhotoUpload.maxFiles AvatarSettings.photoUpload_props) with 5. lia. }
  destruct (processFiles_adds AvatarSettings.photoUpload_props files
              PhotoUpload.initial Hne Hall Hfit) as (H1 & H2 & _).
  rewrite H2. cbn [PhotoUpload.notified PhotoUpload.initial length app drop].
  cbn [fold_left]. reflexivity.
Qed.

Lemma settings_photos_mirror_upload_witness :
  let photo := {| PhotoUpload.name := js "face.png";
                  PhotoUpload.type := js "image/png";
                  PhotoUpload.size := 200000 |} in
  let l := [AvatarSettings.Upload (PhotoUpload.FileInput [photo; photo]);
            AvatarSettings.ClickSave;
            AvatarSettings.Upload (PhotoUpload.RemovePhoto 0);
            AvatarSettings.SaveTimer 0 false] in
  let s := AvatarSettings.acts AvatarSettings.initial l in
  exists c, AvatarSettings.photoUpload s = Some c
            /\ AvatarSettings.photos (AvatarSettings.settings s)
               = PhotoUpload.uploadedPhotos c.
Proof.
  intros photo l s.
  assert (Hl : forallb (fun a => negb (AvatarSettings.leaves_photos_tab a)) l
               = true) by (vm_compute; reflexivity).
  exact (settings_photos_mirror_upload l Hl).
Defined.

Lemma tab_switch_forgets_uploaded_photos_witness :
  let photo := {| PhotoUpload.name := js "face.png";
                  PhotoUpload.type := js "image/png";
                  PhotoUpload.size := 200000 |} in
  let side := {| PhotoUpload.name := js "side.jpg";
                 PhotoUpload.type := js "image/jpeg";
                 PhotoUpload.size := 300000 |} in
  let s := AvatarSettings.acts AvatarSettings.initial
             [AvatarSettings.Upload (PhotoUpload.FileInput [photo])] in
  let s' := AvatarSettings.acts s
              [AvatarSettings.ClickTab AvatarSettings.Tab_voice;
               AvatarSettings.ClickTab AvatarSettings.Tab_photos;
               AvatarSettings.Upload (PhotoUpload.FileInput [side])] in
  AvatarSettings.photos (AvatarSettings.settings s) = [photo]
  /\ AvatarSettings.photos (AvatarSettings.settings s') = [side].
Proof.
  intros photo side s s'.
  assert (Ht : AvatarSettings.Tab_voice <> AvatarSettings.Tab_photos)
    by discriminate.
  assert (Hne : [side] <> []) by discriminate.
  assert (Hlen : (length [side] <= 5)%nat) by (cbn; lia).
  assert (Hall : Forall (fun f => PhotoUpload.acceptable
                                    AvatarSettings.photoUpload_props f = true)
                   [side])
    by (repeat constructor; vm_compute; reflexivity).
  destruct (tab_switch_forgets_uploaded_photos s AvatarSettings.Tab_voice [side]
              Ht Hne Hlen Hall) as (_ & _ & H).
  split; [vm_compute; reflexivity|exact H].
Defined.

(** ** The animated avatar *)

Section Animation.
Import AnimatedAvatar.
Import AvatarService (Response, status, body, ok).

Lemma mp4_units : js ".mp4" = [46; 109; 112; 52].
Proof. vm_compute. reflexivity. Qed.

Lemma not_elem_of_units (c : N) (s : jsstring) :
  forallb (fun x => negb (x =? c)) s = true -> c ∉ s.
Proof.
  induction s as [|x s IH]; intros H; [apply not_elem_of_nil|].
  cbn [forallb] in H. apply andb_prop in H as [Hx Hs].
  apply not_elem_of_cons. split; [|exact (IH Hs)].
  intros ->. rewrite N.eqb_refl in Hx. discriminate.
Qed.

Lemma split_without_separator (sep : N) (s : jsstring) :
  sep ∉ s -> split sep s = [s].
Proof.
  induction s as [|c s IH]; intros H; [reflexivity|].
  cbn [split]. apply not_elem_of_cons in H as [Hc Hs].
  destruct (c =? sep) eqn:E; [apply N.eqb_eq in E; congruence|].
  rewrite (IH Hs). reflexivity.
Qed.

Lemma split_last_segment (sep : N) (dir segment : jsstring) :
  sep ∉ segment ->
  exists segments,
    split sep (dir ++ sep :: segment) = segments ++ [segment]
    /\ segments <> [].
Proof.
  intros H. induction dir as [|c dir (segments & IH & Hne)].
  - exists [[]]. cbn [app split]. rewrite N.eqb_refl.
    rewrite (split_without_separator _ _ H). split; [reflexivity|discriminate].
  - cbn [app split]. rewrite IH. destruct (c =? sep).
    + exists ([] :: segments). split; [reflexivity|discriminate].
    + destruct segments as [|s0 segments]; [contradiction|].
      exists ((c :: s0) :: segments). split; [reflexivity|discriminate].
Qed.

Lemma startsWith_app (pattern rest : jsstring) :
  startsWith pattern (pattern ++ rest) = true.
Proof.
  induction pattern as [|p pattern IH]; [destruct rest; reflexivity|].
  cbn [app startsWith]. rewrite N.eqb_refl, IH. reflexivity.
Qed.

Lemma replace_first (p : N) (pattern name rest : jsstring) :
  p ∉ name ->
  replace (p :: pattern) [] (name ++ (p :: pattern) ++ rest) = name ++ rest.
Proof.
  intros H. induction name as [|c name IH].
  - cbn [app replace startsWith].
    rewrite N.eqb_refl, startsWith_app. cbn [andb app length drop].
    apply drop_length_app.
  - apply not_elem_of_cons in H as [Hc Hn].
    change ((c :: name) ++ (p :: pattern) ++ rest)
      with (c :: (name ++ (p :: pattern) ++ rest)).
    cbn [replace startsWith].
    destruct (p =? c) eqn:E; [apply N.eqb_eq in E; congruence|].
    cbn [andb]. rewrite (IH Hn). reflexivity.
Qed.

Lemma replace_absent (p : N) (pattern name : jsstring) :
  p ∉ name -> replace (p :: pattern) [] name = name.
Proof.
  intros H. induction name as [|c name IH]; [reflexivity|].
  apply not_elem_of_cons in H as [Hc Hn]. cbn [replace startsWith].
  destruct (p =? c) eqn:E; [apply N.eqb_eq in E; congruence|].
  cbn [andb]. rewrite (IH Hn). reflexivity.
Qed.

(** [checkVideo] issues one request per poll until a poll is answered
    ok. *)
Lemma checkVideo_first_ok (env : Env) (path : jsstring) (k : nat) :
  forall (attempt calls : nat) (log : list Request),
  (forall j, (j < k)%nat ->
     match video_api env (video_url path) (attempt + j) with
     | Fulfilled response => ok response = false
     | Rejected _ => True
     | Pending => False
     end) ->
  (exists response,
     video_api env (video_url path) (attempt + k) = Fulfilled response
     /\ ok response = true) ->
  (k < calls)%nat ->
  checkVideo env (Some path) attempt calls log
  = (log ++ replicate (S k) (GetVideo (video_url path)), Fulfilled tt).
Proof.
  induction k as [|k IH]; intros attempt calls log Hbefore (r & Hr & Hok) Hc.
  - destruct calls as [|calls]; [lia|]. cbn [checkVideo]. unfold fetch.
    rewrite Nat.add_0_r in Hr. rewrite Hr, Hok. reflexivity.
  - destruct calls as [|calls]; [lia|]. cbn [checkVideo]. unfold fetch.
    pose proof (Hbefore 0%nat ltac:(lia)) as H0. rewrite Nat.add_0_r in H0.
    assert (Hnext : checkVideo env (Some path) (S attempt) calls
                      (log ++ [GetVideo (video_url path)])
                    = (log ++ replicate (S (S k)) (GetVideo (video_url path)),
                       Fulfilled tt)).
    { rewrite (IH (S attempt) calls (log ++ [GetVideo (video_url path)])).
      - rewrite <- app_assoc. reflexivity.
      - intros j Hj. specialize (Hbefore (S j) ltac:(lia)).
        replace (S attempt + j)%nat with (attempt + S j)%nat by lia.
        exact Hbefore.
      - exists r. replace (S attempt + k)%nat with (attempt + S k)%nat by lia.
        split; assumption.
      - lia. }
    destruct (video_api env (video_url path) attempt) as [r0|e|];
      [rewrite H0; exact Hnext|exact Hnext|contradiction].
Qed.

(** [checkVideo] settles only when a poll is answered ok. *)
Lemma checkVideo_settles (env : Env) (videoPath : option jsstring) :
  forall (calls attempt : nat) (log : list Request),
  match snd (checkVideo env videoPath attempt calls log) with
  | Fulfilled _ =>
      exists path k response,
        videoPath = Some path
        /\ video_api env (video_url path) k = Fulfilled response
        /\ ok response = true
  | Rejected _ => False
  | Pending => True
  end.
Proof.
  induction calls as [|calls IH]; intros attempt log; [exact I|].
  cbn [checkVideo]. destruct videoPath as [path|]; [|apply IH].
  unfold fetch.
  destruct (video_api env (video_url path) attempt) as [r|e|] eqn:E;
    [|apply IH|exact I].
  destruct (ok r) eqn:Hok; [|apply IH].
  exists path, attempt, r. repeat split; assumption.
Qed.

Lemma checkVideo_log (env : Env) (videoPath : option jsstring) :
  forall (calls attempt : nat) (log : list Request),
  exists polls,
    fst (checkVideo env videoPath attempt calls log) = log ++ polls
    /\ Forall (fun rq => exists url, rq = GetVideo url) polls.
Proof.
  induction calls as [|calls IH]; intros attempt log.
  - exists []. rewrite app_nil_r. split; [reflexivity|constructor].
  - cbn [checkVideo]. destruct videoPath as [path|]; [|apply IH].
    unfold fetch.
    assert (Hnext : exists polls,
              fst (checkVideo env (Some path) (S attempt) calls
                     (log ++ [GetVideo (video_url path)])) = log ++ polls
              /\ Forall (fun rq => exists url, rq = GetVideo url) polls).
    { destruct (IH (S attempt) (log ++ [GetVideo (video_url path)]))
        as (polls & H1 & H2).
      exists (GetVideo (video_url path) :: polls). split.
      - rewrite H1, <- app_assoc. reflexivity.
      - constructor; [eexists; reflexivity|exact H2]. }
    assert (Hone : exists polls,
              log ++ [GetVideo (video_url path)] = log ++ polls
              /\ Forall (fun rq => exists url, rq = GetVideo url) polls).
    { eexists. split; [reflexivity|].
      constructor; [eexists; reflexivity|constructor]. }
    destruct (video_api env (video_url path) attempt) as [r|e|];
      [destruct (ok r)|..]; cbn [fst]; assumption.
Qed.

(** How the body of the [try] of [createAnimation] can be fulfilled. *)
Lemma animate_fulfilled (env : Env) (image_url audio_url : jsstring)
    (calls : nat) (videoPath : jsstring) :
  snd (run (animate env image_url audio_url calls)) = Fulfilled videoPath ->
  exists image audio response k poll,
    animate_api env image audio = Fulfilled response
    /\ ok response = true
    /\ body response = Fulfilled {| video_path := Some videoPath |}
    /\ video_api env (video_url videoPath) k = Fulfilled poll
    /\ ok poll = true.
Proof.
  unfold run, animate, bind, fetch, await, throw, ret, waitForVideo.
  destruct (get_api env audio_url) as [ra|e|]; cbn [snd]; try discriminate.
  destruct (body ra) as [audio|e|]; cbn [snd]; try discriminate.
  destruct (get_api env image_url) as [ri|e|]; cbn [snd]; try discriminate.
  destruct (body ri) as [image|e|]; cbn [snd]; try discriminate.
  destruct (animate_api env image audio) as [r|e|] eqn:Ha; cbn [snd];
    try discriminate.
  destruct (ok r) eqn:Hok; cbn [negb snd]; try discriminate.
  destruct (body r) as [[vp]|e|] eqn:Hb; cbn [snd]; try discriminate.
  cbn [video_path].
  pose proof (checkVideo_settles env vp calls 0
                ([] ++ [Get audio_url] ++ [Get image_url]
                 ++ [PostAnimate image audio])) as Hw.
  cbn [app] in Hw.
  destruct (checkVideo env vp 0 calls _) as [log' [[]|e|]]; cbn [snd] in *;
    try discriminate.
  destruct Hw as (path & k & poll & -> & Hp & Hpok).
  cbn [snd]. intros [= <-].
  exists image, audio, r, k, poll. repeat split; assumption.
Qed.

End Animation.

(** X27.  The identifier of the video in the poll address is the last
    segment of the path with its first [.mp4] removed: for a file name
    without a dot, the name itself, whatever the directories in front,
    and whatever follows the first [.mp4] is kept. *)
Theorem video_id_removes_first_mp4 (dir name rest : jsstring) :
  47 ∉ name -> 46 ∉ name -> 47 ∉ rest ->
  AnimatedAvatar.video_id (dir ++ js "/" ++ name ++ js ".mp4" ++ rest)
  = name ++ rest
  /\ AnimatedAvatar.video_id (name ++ js ".mp4" ++ rest) = name ++ rest
  /\ AnimatedAvatar.video_id (dir ++ js "/" ++ name) = name.
Proof.
  intros Hslash Hdot Hrest.
  assert (Hs : js "/" = [47]) by (vm_compute; reflexivity).
  rewrite Hs, mp4_units. clear Hs.
  assert (Hseg : 47 ∉ name ++ [46; 109; 112; 52] ++ rest).
  { intros H. apply elem_of_app in H as [H|H]; [contradiction|].
    apply elem_of_app in H as [H|H]; [|contradiction].
    repeat (apply elem_of_cons in H as [H|H]; [discriminate|]).
    inversion H. }
  unfold AnimatedAvatar.video_id. rewrite mp4_units. repeat split.
  - cbn [app].
    change (dir ++ 47 :: name ++ 46 :: 109 :: 112 :: 52 :: rest)
      with (dir ++ 47 :: (name ++ [46; 109; 112; 52] ++ rest)).
    destruct (split_last_segment 47 dir _ Hseg) as (segments & -> & _).
    rewrite last_snoc. apply replace_first. exact Hdot.
  - rewrite (split_without_separator _ _ Hseg). cbn [last].
    apply replace_first. exact Hdot.
  - cbn [app].
    destruct (split_last_segment 47 dir _ Hslash) as (segments & -> & _).
    rewrite last_snoc. apply replace_absent. exact Hdot.
Qed.

Lemma video_id_removes_first_mp4_witness :
  AnimatedAvatar.video_id (js "results/2024/answer_01.mp4") = js "answer_01"
  /\ AnimatedAvatar.video_id (js "answer_01.mp4.mp4") = js "answer_01.mp4".
Proof.
  assert (H1 : 47 ∉ js "answer_01")
    by (apply not_elem_of_units; vm_compute; reflexivity).
  assert (H2 : 46 ∉ js "answer_01")
    by (apply not_elem_of_units; vm_compute; reflexivity).
  assert (H3 : 47 ∉ ([] : jsstring)) by apply not_elem_of_nil.
  assert (H4 : 47 ∉ js ".mp4")
    by (apply not_elem_of_units; vm_compute; reflexivity).
  destruct (video_id_removes_first_mp4 (js "results/2024") (js "answer_01") []
              H1 H2 H3) as (Ha & _ & _).
  destruct (video_id_removes_first_mp4 [] (js "answer_01") (js ".mp4")
              H1 H2 H4) as (_ & Hb & _).
  assert (Ea : js "results/2024/answer_01.mp4"
               = js "results/2024" ++ js "/" ++ js "answer_01" ++ js ".mp4" ++ [])
    by (vm_compute; reflexivity).
  assert (Eb : js "answer_01.mp4.mp4"
               = js "answer_01" ++ js ".mp4" ++ js ".mp4")
    by (vm_compute; reflexivity).
  split.
  - rewrite Ea, Ha. apply app_nil_r.
  - rewrite Eb, Hb. vm_compute. reflexivity.
Defined.

Section AnimationRuns.
Import AnimatedAvatar.
Import AvatarService (Response, status, body, ok).

(** What a run of [createAnimation] leaves, by how the body of its
    [try] settles. *)
Lemma animation_run_settled (env : Env) (props : Props) (url : jsstring)
    (calls : nat) (s : State) :
  animation_run env props url calls s
  = match snd (run (animate env (imageUrl props) url calls)) with
    | Fulfilled videoPath =>
        {| videoUrl := videoPath; isAnimating := false;
           animationProgress := 100; error := [];
           ready := if onVideoReady props then ready s ++ [videoPath]
                    else ready s;
           runs := runs s |}
    | Rejected err =>
        {| videoUrl := videoUrl s; isAnimating := false;
           animationProgress := 0;
           error := match err with
                    | ErrorObject message => message
                    | OtherValue => js "Ошибка анимации"
                    end;
           ready := ready s; runs := runs s |}
    | Pending =>
        {| videoUrl := videoUrl s; isAnimating := true;
           animationProgress := 0; error := [];
           ready := ready s; runs := runs s ++ [url] |}
    end.
Proof.
  unfold animation_run, createAnimation_settled, createAnimation. cbv zeta.
  cbn [runs set_runs setAnimationProgress setError setIsAnimating].
  rewrite list_lookup_middle by reflexivity.
  destruct (snd (run (animate env (imageUrl props) url calls))) as [p|e|];
    [| |reflexivity].
  - unfold call_onVideoReady.
    cbn [runs set_runs setAnimationProgress setError setIsAnimating
         setVideoUrl onVideoReady].
    rewrite delete_middle, app_nil_r.
    destruct (onVideoReady props); reflexivity.
  - cbn [runs set_runs setAnimationProgress setError setIsAnimating].
    rewrite delete_middle, app_nil_r. reflexivity.
Qed.

Lemma animate_success (env : Env) (image_url url : jsstring) (calls : nat)
    (sa si : N) (audio image : Blob) (response : Response AnimateResult)
    (path : jsstring) (k : nat) :
  get_api env url = Fulfilled {| status := sa; body := Fulfilled audio |} ->
  get_api env image_url
  = Fulfilled {| status := si; body := Fulfilled image |} ->
  animate_api env image audio = Fulfilled response ->
  ok response = true ->
  body response = Fulfilled {| video_path := Some path |} ->
  (forall j, (j < k)%nat ->
     match video_api env (video_url path) j with
     | Fulfilled poll => ok poll = false
     | Rejected _ => True
     | Pending => False
     end) ->
  (exists poll,
     video_api env (video_url path) k = Fulfilled poll /\ ok poll = true) ->
  (k < calls)%nat ->
  run (animate env image_url url calls)
  = ([Get url; Get image_url; PostAnimate image audio]
     ++ replicate (S k) (GetVideo (video_url path)),
     Fulfilled path).
Proof.
  intros Ha Hi Hr Hok Hb Hbefore Hk Hc.
  unfold run, animate, bind, fetch, await, throw, ret, waitForVideo.
  rewrite Ha. cbn [body]. rewrite Hi. cbn [body]. rewrite Hr, Hok.
  cbn [negb]. rewrite Hb. cbn [video_path].
  rewrite (checkVideo_first_ok env path k 0 calls _ Hbefore Hk Hc).
  reflexivity.
Qed.

End AnimationRuns.

(** X28.  When the audio and the image are downloaded, whatever the
    status of their replies, the animation request is answered ok
    with a path, and the poll numbered [k] is the first that is
    answered ok, the run sends the two downloads, the animation
    request and [k + 1] polls of the video, then shows the video,
    hands its path to [onVideoReady] and is no longer animating. *)
Theorem animation_success
    (env : AnimatedAvatar.Env) (props : AnimatedAvatar.Props)
    (url : jsstring) (calls : nat) (s : AnimatedAvatar.State)
    (sa si : N) (audio image : Blob)
    (response : AvatarService.Response AnimatedAvatar.AnimateResult)
    (path : jsstring) (k : nat) :
  AnimatedAvatar.get_api env url
  = Fulfilled {| AvatarService.status := sa;
                 AvatarService.body := Fulfilled audio |} ->
  AnimatedAvatar.get_api env (AnimatedAvatar.imageUrl props)
  = Fulfilled {| AvatarService.status := si;
                 AvatarService.body := Fulfilled image |} ->
  AnimatedAvatar.animate_api env image audio = Fulfilled response ->
  AvatarService.ok response = true ->
  AvatarService.body response
  = Fulfilled {| AnimatedAvatar.video_path := Some path |} ->
  (forall j, (j < k)%nat ->
     match AnimatedAvatar.video_api env (AnimatedAvatar.video_url path) j with
     | Fulfilled poll => AvatarService.ok poll = false
     | Rejected _ => True
     | Pending => False
     end) ->
  (exists poll,
     AnimatedAvatar.video_api env (AnimatedAvatar.video_url path) k
     = Fulfilled poll
     /\ AvatarService.ok poll = true) ->
  (k < calls)%nat ->
  let s' := AnimatedAvatar.animation_run env props url calls s in
  fst (AnimatedAvatar.run
         (AnimatedAvatar.animate env (AnimatedAvatar.imageUrl props) url calls))
  = [AnimatedAvatar.Get url;
     AnimatedAvatar.Get (AnimatedAvatar.imageUrl props);
     AnimatedAvatar.PostAnimate image audio]
    ++ replicate (S k) (AnimatedAvatar.GetVideo (AnimatedAvatar.video_url path))
  /\ AnimatedAvatar.videoUrl s' = path
  /\ AnimatedAvatar.ready s'
     = (if AnimatedAvatar.onVideoReady props
        then AnimatedAvatar.ready s ++ [path] else AnimatedAvatar.ready s)
  /\ AnimatedAvatar.animationProgress s' = 100
  /\ AnimatedAvatar.isAnimating s' = false
  /\ AnimatedAvatar.error s' = []
  /\ AnimatedAvatar.runs s' = AnimatedAvatar.runs s.
Proof.
  intros Ha Hi Hr Hok Hb Hbefore Hk Hc s'. subst s'.
  rewrite animation_run_settled.
  rewrite (animate_success env _ url calls sa si audio image response path k
             Ha Hi Hr Hok Hb Hbefore Hk Hc).
  cbn [fst snd]. repeat split.
Qed.

(** X29.  A run of [createAnimation] is animating exactly while the
    body of its [try] has not settled, and it shows a video and calls
    [onVideoReady] only when the animation request was answered ok with
    the path of the video and a poll of that video was answered ok;
    otherwise the video shown and the calls of [onVideoReady] are as
    before. *)
Theorem video_reported_only_after_ok_poll
    (env : AnimatedAvatar.Env) (props : AnimatedAvatar.Props)
    (url : jsstring) (calls : nat) (s : AnimatedAvatar.State) :
  let s' := AnimatedAvatar.animation_run env props url calls s in
  (AnimatedAvatar.isAnimating s' = true
   <-> snd (AnimatedAvatar.run
              (AnimatedAvatar.animate env (AnimatedAvatar.imageUrl props)
                 url calls)) = Pending)
  /\ ((AnimatedAvatar.videoUrl s' = AnimatedAvatar.videoUrl s
       /\ AnimatedAvatar.ready s' = AnimatedAvatar.ready s)
      \/ exists path image audio response k poll,
           AnimatedAvatar.animate_api env image audio = Fulfilled response
           /\ AvatarService.ok response = true
           /\ AvatarService.body response
              = Fulfilled {| AnimatedAvatar.video_path := Some path |}
           /\ AnimatedAvatar.video_api env (AnimatedAvatar.video_url path) k
              = Fulfilled poll
           /\ AvatarService.ok poll = true
           /\ AnimatedAvatar.videoUrl s' = path
           /\ AnimatedAvatar.ready s'
              = (if AnimatedAvatar.onVideoReady props
                 then AnimatedAvatar.ready s ++ [path]
                 else AnimatedAvatar.ready s)).
Proof.
  cbv zeta. rewrite animation_run_settled.
  pose proof (animate_fulfilled env (AnimatedAvatar.imageUrl props) url calls)
    as Hf.
  destruct (snd (AnimatedAvatar.run _)) as [path|e|].
  - split; [split; discriminate|]. right.
    destruct (Hf path eq_refl) as (image & audio & r & k & poll & H).
    exists path, image, audio, r, k, poll.
    destruct H as (H1 & H2 & H3 & H4 & H5). repeat split; assumption.
  - split; [split; discriminate|]. left. split; reflexivity.
  - split; [split; reflexivity|]. left. split; reflexivity.
Qed.

(** X30.  When the animation request is answered with a status that is
    not ok, the run makes no poll of a video, shows the message of the
    failure, keeps the video it showed and does not call
    [onVideoReady], and is no longer animating. *)
Theorem animate_refused_shows_error
    (env : AnimatedAvatar.Env) (props : AnimatedAvatar.Props)
    (url : jsstring) (calls : nat) (s : AnimatedAvatar.State)
    (sa si : N) (audio image : Blob)
    (response : AvatarService.Response AnimatedAvatar.AnimateResult) :
  AnimatedAvatar.get_api env url
  = Fulfilled {| AvatarService.status := sa;
                 AvatarService.body := Fulfilled audio |} ->
  AnimatedAvatar.get_api env (AnimatedAvatar.imageUrl props)
  = Fulfilled {| AvatarService.status := si;
                 AvatarService.body := Fulfilled image |} ->
  AnimatedAvatar.animate_api env image audio = Fulfilled response ->
  AvatarService.ok response = false ->
  let s' := AnimatedAvatar.animation_run env props url calls s in
  fst (AnimatedAvatar.run
         (AnimatedAvatar.animate env (AnimatedAvatar.imageUrl props) url calls))
  = [AnimatedAvatar.Get url;
     AnimatedAvatar.Get (AnimatedAvatar.imageUrl props);
     AnimatedAvatar.PostAnimate image audio]
  /\ AnimatedAvatar.error s' = js "Ошибка создания анимации"
  /\ AnimatedAvatar.isAnimating s' = false
  /\ AnimatedAvatar.videoUrl s' = AnimatedAvatar.videoUrl s
  /\ AnimatedAvatar.ready s' = AnimatedAvatar.ready s
  /\ AnimatedAvatar.runs s' = AnimatedAvatar.runs s.
Proof.
  intros Ha Hi Hr Hok s'. subst s'. rewrite animation_run_settled.
  assert (Hrun : AnimatedAvatar.run
                   (AnimatedAvatar.animate env (AnimatedAvatar.imageUrl props)
                      url calls)
                 = ([AnimatedAvatar.Get url;
                     AnimatedAvatar.Get (AnimatedAvatar.imageUrl props);
                     AnimatedAvatar.PostAnimate image audio],
                    Rejected (ErrorObject (js "Ошибка создания анимации")))).
  { unfold AnimatedAvatar.run, AnimatedAvatar.animate, AnimatedAvatar.bind,
      AnimatedAvatar.fetch, AnimatedAvatar.await, AnimatedAvatar.throw.
    rewrite Ha. cbn [AvatarService.body]. rewrite Hi. cbn [AvatarService.body].
    rewrite Hr, Hok. reflexivity. }
  rewrite Hrun. cbn [fst snd]. repeat split.
Qed.

Lemma animation_success_witness :
  let path := js "results/answer.mp4" in
  let env :=
    {| AnimatedAvatar.get_api := fun _ =>
         Fulfilled {| AvatarService.status := 404;
                      AvatarService.body := Fulfilled [1; 2; 3] |};
       AnimatedAvatar.animate_api := fun _ _ =>
         Fulfilled {| AvatarService.status := 200;
                      AvatarService.body :=
                        Fulfilled {| AnimatedAvatar.video_path := Some path |} |};
       AnimatedAvatar.video_api := fun _ n =>
         if (n <? 2)%nat then Rejected OtherValue
         else Fulfilled {| AvatarService.status := 200;
                           AvatarService.body := Fulfilled tt |} |} in
  let props :=
    {| AnimatedAvatar.imageUrl := js "/avatar.jpg";
       AnimatedAvatar.audioUrl := Some (js "blob:a1");
       AnimatedAvatar.isSpeaking := true;
       AnimatedAvatar.onVideoReady := true |} in
  let s' := AnimatedAvatar.animation_run env props (js "blob:a1") 5
              AnimatedAvatar.initial in
  AnimatedAvatar.videoUrl s' = path
  /\ AnimatedAvatar.ready s' = [path]
  /\ AnimatedAvatar.isAnimating s' = false.
Proof.
  intros path env props s'.
  assert (Hbefore : forall j, (j < 2)%nat ->
            match AnimatedAvatar.video_api env (AnimatedAvatar.video_url path) j
            with
            | Fulfilled poll => AvatarService.ok poll = false
            | Rejected _ => True
            | Pending => False
            end).
  { intros j Hj. destruct j as [|[|j]]; [exact I|exact I|lia]. }
  assert (Hk : exists poll,
            AnimatedAvatar.video_api env (AnimatedAvatar.video_url path) 2
            = Fulfilled poll /\ AvatarService.ok poll = true).
  { eexists. split; reflexivity. }
  assert (Hc : (2 < 5)%nat) by lia.
  destruct (animation_success env props (js "blob:a1") 5 AnimatedAvatar.initial
              404 404 [1; 2; 3] [1; 2; 3] _ path 2
              eq_refl eq_refl eq_refl eq_refl eq_refl Hbefore Hk Hc)
    as (_ & H1 & H2 & _ & H3 & _).
  split; [exact H1|]. split; [exact H2|exact H3].
Defined.

Lemma animate_refused_shows_error_witness :
  let env :=
    {| AnimatedAvatar.get_api := fun _ =>
         Fulfilled {| AvatarService.status := 200;
                      AvatarService.body := Fulfilled [1; 2; 3] |};
       AnimatedAvatar.animate_api := fun _ _ =>
         Fulfilled {| AvatarService.status := 500;
                      AvatarService.body := Pending |};
       AnimatedAvatar.video_api := fun _ _ => Pending |} in
  let props :=
    {| AnimatedAvatar.imageUrl := js "/avatar.jpg";
       AnimatedAvatar.audioUrl := Some (js "blob:a1");
       AnimatedAvatar.isSpeaking := true;
       AnimatedAvatar.onVideoReady := true |} in
  let s' := AnimatedAvatar.animation_run env props (js "blob:a1") 5
              AnimatedAvatar.initial in
  AnimatedAvatar.error s' = js "Ошибка создания анимации"
  /\ AnimatedAvatar.isAnimating s' = false
  /\ AnimatedAvatar.ready s' = [].
Proof.
  intros env props s'.
  destruct (animate_refused_shows_error env props (js "blob:a1") 5
              AnimatedAvatar.initial 200 200 [1; 2; 3] [1; 2; 3] _
              eq_refl eq_refl eq_refl eq_refl)
    as (_ & H1 & H2 & _ & H3 & _).
  split; [exact H1|]. split; [exact H2|exact H3].
Defined.
